(** * LFC wavelength calibration: a model of [calibration_functions.py]

    The Python module detects the peaks of a laser-frequency-comb exposure,
    fits each of them, matches each peak with the exact wavelength of a comb
    mode and fits a calibration polynomial.  This file embeds the functions of
    that module and proves properties of them.

    Numbers.  A Python [float] and a NumPy [float64] are IEEE-754 binary64
    values; they are modelled by Rocq's primitive [float], whose operations
    are the same correctly rounded binary64 operations.  The two differ in
    the power operator, which raises [OverflowError] on a Python [float]
    only.  A Python [int] is a [Z].  A NumPy [int64] is a [Z] within the
    range of 64-bit integers; the subtraction of [np.diff] and the
    conversion [astype(int)] wrap around or saturate as NumPy does.

    Effects.  A Python exception is an [outcome] other than [Ok]; the one
    [while] loop of the module runs on fuel and reports [OutOfFuel] when the
    fuel is exhausted.

    Collaborators.  SciPy's peak finder and chi-square survival function,
    iminuit's minimiser, the power and exponential functions of libm and
    the reader of FITS files are variables of a section. *)

From Stdlib Require Import String DecimalString.
From Stdlib Require Import ZArith List Floats Lia Bool Arith.
Import ListNotations.

Set Warnings "-inexact-float".

Local Open Scope Z_scope.

(** ** Exceptions and outcomes *)

Inductive exn : Set :=
| ValueError
| TypeError
| IndexError
| OverflowError
| ZeroDivisionError
| AssertionError
| NameError.

Inductive outcome (A : Type) : Type :=
| Ok (a : A)
| Raise (e : exn)
| OutOfFuel.

Arguments Ok {A} a.
Arguments Raise {A} e.
Arguments OutOfFuel {A}.

Definition bind {A B : Type} (m : outcome A) (k : A -> outcome B) : outcome B :=
  match m with
  | Ok a => k a
  | Raise e => Raise e
  | OutOfFuel => OutOfFuel
  end.

Declare Scope outcome_scope.
Delimit Scope outcome_scope with outcome.
Notation "x <- m ;; k" := (bind m (fun x => k))
  (at level 61, m at next level, right associativity) : outcome_scope.
Notation "' pat <- m ;; k" := (bind m (fun x => match x with pat => k end))
  (at level 61, pat pattern, m at next level, right associativity) : outcome_scope.
Local Open Scope outcome_scope.

(** A [for] loop that builds a list with [append]: it stops at the first
    exception. *)
Fixpoint for_each {A B : Type} (body : A -> outcome B) (l : list A) : outcome (list B) :=
  match l with
  | [] => Ok []
  | a :: rest =>
      b <- body a ;;
      bs <- for_each body rest ;;
      Ok (b :: bs)
  end.

(** ** Python and NumPy numbers *)

(** [float(n)] for a Python [int]: the nearest binary64 value, ties to even.
    [Z2float] is the conversion itself; it is infinite exactly when Python
    raises [OverflowError]. *)
Definition Z2float (n : Z) : float :=
  SF2Prim (binary_normalize prec emax n 0 false).

Definition float_of_int (n : Z) : outcome float :=
  let x := Z2float n in
  if is_infinity x then Raise OverflowError else Ok x.

(** [int(x)] for a float: truncation toward zero; [ValueError] on a NaN and
    [OverflowError] on an infinity. *)
Definition int_of_float (x : float) : outcome Z :=
  match Prim2SF x with
  | S754_nan => Raise ValueError
  | S754_infinity _ => Raise OverflowError
  | S754_zero _ => Ok 0
  | S754_finite s m e => Ok (cond_Zopp s (Z.shiftl (Zpos m) e))
  end.

(** The value that a 64-bit integer operation of NumPy keeps of the exact
    result [z]: it wraps around. *)
Definition wrap_int64 (z : Z) : Z := (z + 2 ^ 63) mod 2 ^ 64 - 2 ^ 63.

(** [np.diff] of a one-dimensional [int64] array: the differences
    [a[i+1] - a[i]], each one wrapped. *)
Fixpoint np_diff (a : list Z) : list Z :=
  match a with
  | x :: ((y :: _) as rest) => wrap_int64 (y - x) :: np_diff rest
  | _ => []
  end.

(** [np.mean] of an integer array: the sum is accumulated in binary64 and
    divided by the number of items; the mean of an empty array is
    [0.0 / 0], a NaN.  (NumPy adds in pairwise order; on integers whose
    partial sums are below 2^53 every order gives the same exact sum.) *)
Definition np_mean (a : list Z) : float :=
  (fold_left (fun acc d => acc + Z2float d) a 0 / Z2float (Z.of_nat (length a)))%float.

(** [np.arange(start, stop)] on integers. *)
Definition np_arange (start stop : Z) : list Z :=
  map (fun i => start + Z.of_nat i) (seq 0 (Z.to_nat (stop - start))).

(** The bound of a slice [a[start:stop]], as Python normalises it. *)
Definition slice_index (len i : Z) : Z :=
  if i <? 0 then Z.max 0 (i + len) else Z.min i len.

Definition py_slice {A : Type} (a : list A) (start stop : Z) : list A :=
  let len := Z.of_nat (length a) in
  let lo := slice_index len start in
  let hi := slice_index len stop in
  firstn (Z.to_nat (hi - lo)) (skipn (Z.to_nat lo) a).

(** [a[i]] for one integer index: negative indices count from the end. *)
Definition py_index {A : Type} (a : list A) (i : Z) : outcome A :=
  let len := Z.of_nat (length a) in
  let j := if i <? 0 then i + len else i in
  if (0 <=? j) && (j <? len)
  then match nth_error a (Z.to_nat j) with
       | Some x => Ok x
       | None => Raise IndexError
       end
  else Raise IndexError.

(** [a[idx]] for an integer index array. *)
Definition np_take {A : Type} (a : list A) (idx : list Z) : outcome (list A) :=
  for_each (py_index a) idx.

(** Arithmetic of two one-dimensional arrays under NumPy's broadcasting. *)
Fixpoint zip_with {A B C : Type} (op : A -> B -> C) (a : list A) (b : list B) : list C :=
  match a, b with
  | x :: a', y :: b' => op x y :: zip_with op a' b'
  | _, _ => []
  end.

Definition broadcast (op : float -> float -> float) (a b : list float)
  : outcome (list float) :=
  if Nat.eqb (length a) (length b) then Ok (zip_with op a b)
  else match a, b with
       | [x], _ => Ok (map (op x) b)
       | _, [y] => Ok (map (fun x => op x y) a)
       | _, _ => Raise ValueError
       end.

(** ** Peak windows: [get_peak_index_ranges] *)

(** The window of one peak.  [nPeak] is an [int64] and the size a float, so
    both bounds are computed in binary64 and truncated by [int]. *)
Definition peak_index_range (peak_range_size : float) (nPeak : Z) : outcome (Z * Z) :=
  let start := (Z2float nPeak - peak_range_size / 2)%float in
  let end_ := (Z2float nPeak + peak_range_size / 2)%float in
  a <- int_of_float start ;;
  b <- int_of_float end_ ;;
  Ok (a, b).

(** The size used when the caller gives none: [int(np.mean(np.diff(peak_locs)))]. *)
Definition mean_peak_separation (peak_locs : list Z) : outcome Z :=
  int_of_float (np_mean (np_diff peak_locs)).

(** [get_peak_index_ranges(peak_locs, peak_range_size=np.nan)].  An inferred
    size is a Python [int]; its half [size/2] is the binary64 quotient, which
    is the half of [float(size)] since [size] was cut from a float. *)
Definition get_peak_index_ranges (peak_locs : list Z) (peak_range_size : float)
  : outcome (list (Z * Z)) :=
  size <- (if is_nan peak_range_size
           then s <- mean_peak_separation peak_locs ;; Ok (Z2float s)
           else Ok peak_range_size) ;;
  for_each (peak_index_range size) peak_locs.

(** ** The comb wavelengths and their matching: [get_true_wavel] *)

(** [true_wavel(n)]: the wavelength, in angstrom, of comb mode [n].  The
    product [v_rep * n] converts the Python [int] [n] to a float first. *)
Definition true_wavel (n : Z) : outcome float :=
  let c := Z2float 299792458 in
  let v_rep := 14e9%float in
  let v_offset := 6.19e9%float in
  nf <- float_of_int n ;;
  let f := (v_rep * nf + v_offset)%float in
  let wavel := (c / f * 1e10)%float in
  Ok wavel.

(** The two cuts, [wavel_given_min * (1 - 0.001)] and
    [wavel_given_max * (1 + 0.001)]. *)
Definition lower_cut (wavel_given_min : float) : float :=
  (wavel_given_min * (1 - 0.001))%float.

Definition upper_cut (wavel_given_max : float) : float :=
  (wavel_given_max * (1 + 0.001))%float.

(** The [while] loop that extends [wavel_true] until its last wavelength is
    not above the lower cut.  [last_wavel] is [wavel_true[-1][0]]. *)
Definition last_wavel (wavel_true : list (float * Z)) : float :=
  fst (last wavel_true (nan, 0)).

Fixpoint gen_true_wavel (fuel : nat) (wavel_given_min : float)
    (wavel_true : list (float * Z)) (n : Z) : outcome (list (float * Z)) :=
  if (lower_cut wavel_given_min <? last_wavel wavel_true)%float
  then match fuel with
       | O => OutOfFuel
       | S fuel' =>
           let n := n + 1 in
           w <- true_wavel n ;;
           gen_true_wavel fuel' wavel_given_min (wavel_true ++ [(w, n)]) n
       end
  else Ok wavel_true.

(** [np.asarray(wavel_true)] turns the mode numbers into floats; the rows
    kept are those below the upper cut, in reverse order. *)
Definition cut_and_reverse (wavel_given_max : float) (wavel_true : list (float * Z))
  : list (float * float) :=
  rev (filter (fun row => (fst row <? upper_cut wavel_given_max)%float)
         (map (fun row => (fst row, Z2float (snd row))) wavel_true)).

(** Python's [min(iterable, key=...)]: the first item whose key is not
    above the key of any later item, found by keeping the best item so far
    and replacing it when a key is strictly smaller. *)
Fixpoint py_min_from (key : float -> float) (best : float) (rest : list float) : float :=
  match rest with
  | [] => best
  | x :: rest' =>
      if (key x <? key best)%float
      then py_min_from key x rest'
      else py_min_from key best rest'
  end.

Definition py_min (key : float -> float) (l : list float) : outcome float :=
  match l with
  | [] => Raise ValueError
  | x :: rest => Ok (py_min_from key x rest)
  end.

(** [next((idx for idx, val in np.ndenumerate(a) if val == v), None)[0]]:
    the first index holding [v]; subscripting [None] is a [TypeError]. *)
Fixpoint first_index_from (i : nat) (v : float) (a : list float) : outcome nat :=
  match a with
  | [] => Raise TypeError
  | val :: rest => if (val =? v)%float then Ok i else first_index_from (S i) v rest
  end.

Definition first_index := first_index_from 0.

(** The key of the minimum, [lambda x: abs(x - lambd_given)]. *)
Definition residual (lambd_given x : float) : float := abs (x - lambd_given).

(** The body of the matching loop for one nominal wavelength. *)
Definition match_true_wavel (wavel_true : list (float * float)) (lambd_given : float)
  : outcome (float * float) :=
  min_val <- py_min (residual lambd_given) (map fst wavel_true) ;;
  min_val_index <- first_index min_val (map fst wavel_true) ;;
  n <- py_index (map snd wavel_true) (Z.of_nat min_val_index) ;;
  Ok (min_val, n).

(** The candidates the matching loop works on. *)
Definition true_wavel_candidates (fuel : nat) (wavel_given : list float)
  : outcome (list (float * float)) :=
  wavel_given_min <- py_index wavel_given 0 ;;
  wavel_given_max <- py_index wavel_given (-1) ;;
  w0 <- true_wavel 0 ;;
  w1 <- true_wavel 1 ;;
  wavel_true <- gen_true_wavel fuel wavel_given_min [(w0, 0); (w1, 1)] 1 ;;
  Ok (cut_and_reverse wavel_given_max wavel_true).

Definition get_true_wavel (fuel : nat) (data_wavel_given : list float) (peak_locs : list Z)
  : outcome (list (float * float)) :=
  wavel_given <- np_take data_wavel_given peak_locs ;;
  wavel_true <- true_wavel_candidates fuel wavel_given ;;
  for_each (match_true_wavel wavel_true) wavel_given.

(** ** Values that are a number or an array

    A number is a Python [float] ([Scalar]) or a NumPy [float64]
    ([NpScalar]), the item of an array.  The two hold the same values and
    differ in the power operator: on a Python [float] an overflow raises
    [OverflowError], NumPy returns the infinity (with a warning). *)

Inductive pyval : Type :=
| Scalar (x : float)
| NpScalar (x : float)
| Array (a : list float).

(** The operators [+], [-] and [*], and [/] where NumPy divides: a NumPy
    operand makes the result a NumPy value. *)
Definition lift2 (op : float -> float -> float) (u v : pyval) : outcome pyval :=
  match u, v with
  | Scalar a, Scalar b => Ok (Scalar (op a b))
  | Scalar a, NpScalar b => Ok (NpScalar (op a b))
  | NpScalar a, Scalar b => Ok (NpScalar (op a b))
  | NpScalar a, NpScalar b => Ok (NpScalar (op a b))
  | Scalar a, Array b => Ok (Array (map (op a) b))
  | NpScalar a, Array b => Ok (Array (map (op a) b))
  | Array a, Scalar b => Ok (Array (map (fun x => op x b) a))
  | Array a, NpScalar b => Ok (Array (map (fun x => op x b) a))
  | Array a, Array b => l <- broadcast op a b ;; Ok (Array l)
  end.

Definition vop (op : float -> float -> float) (u v : outcome pyval) : outcome pyval :=
  a <- u ;; b <- v ;; lift2 op a b.

(** The operator [/]: Python raises when it divides a [float] by a zero
    [float]; NumPy returns an infinity or a NaN. *)
Definition vdiv (u v : outcome pyval) : outcome pyval :=
  a <- u ;;
  b <- v ;;
  match a, b with
  | Scalar x, Scalar y =>
      if (y =? 0)%float then Raise ZeroDivisionError else Ok (Scalar (x / y)%float)
  | _, _ => lift2 PrimFloat.div a b
  end.

(** A model function [f(x, *par)]. *)
Definition py_function : Type := pyval -> list float -> outcome pyval.

(** ** The functions that call a collaborator *)

Record params : Set := Params {
  p_A : float;
  p_mu : float;
  p_sigma : float;
  p_P : float;
  p_C : float
}.

(** [minuit.values[:]]: one value per parameter of the objective. *)
Definition values_list (p : params) : list float :=
  [p_A p; p_mu p; p_sigma p; p_P p; p_C p].

(** What is read from a [Minuit] object after [migrad()]; the parameter
    space is [X]. *)
Record minuit (X : Type) : Type := Minuit {
  values : X;
  errors : X;
  fval : float;
  is_valid : bool
}.

Arguments Minuit {X} values errors fval is_valid.
Arguments values {X} m.
Arguments errors {X} m.
Arguments fval {X} m.
Arguments is_valid {X} m.

(** One entry of the list [peak_fits], before [np.asarray]. *)
Record peak_fit : Set := PeakFit {
  fit_A : float; fit_A_err : float;
  fit_mu : float; fit_mu_err : float;
  fit_sigma : float; fit_sigma_err : float;
  fit_C : float; fit_C_err : float;
  fit_chi2 : float;
  fit_ndof : Z;
  fit_converged : bool;
  fit_index_start : Z;
  fit_index_end : Z;
  fit_prob : float;
  fit_P : float; fit_P_err : float
}.

(** [np.asarray] makes every entry of a row a float. *)
Definition peak_fit_row (r : peak_fit) : list float :=
  [fit_A r; fit_A_err r; fit_mu r; fit_mu_err r; fit_sigma r; fit_sigma_err r;
   fit_C r; fit_C_err r; fit_chi2 r; Z2float (fit_ndof r);
   (if fit_converged r then 1 else 0)%float;
   Z2float (fit_index_start r); Z2float (fit_index_end r); fit_prob r;
   fit_P r; fit_P_err r].

(** What [func_find_peaks] returns. *)
Record peak_info : Set := PeakInfo {
  peaks : list Z;
  prominences : list float;
  left_ips : list Z;
  right_ips : list Z;
  widths : list float;
  peak_heights : list float
}.

(** One spectral order of the exposure table. *)
Record order_data : Set := OrderData {
  spectrum : list float;
  uncertainty : list float;
  wavelength : list float
}.

(** One entry of [results]. *)
Record order_result : Set := OrderResult {
  res_order : Z;
  res_peak_fits : list (list float);
  res_wavel_true : list (list float);
  res_wavel_given : list float
}.

(** The calls the orchestrator makes, in the order it makes them. *)
Inductive event : Set :=
| CallFindPeaks (order : Z)
| CallPeakIndexRanges (order : Z)
| CallFitPeaks (order : Z)
| CallTrueWavel (order : Z).

Definition traced (A : Type) : Type := (outcome A * list event)%type.

Definition tbind {A B : Type} (m : traced A) (k : A -> traced B) : traced B :=
  match fst m with
  | Ok a => let r := k a in (fst r, snd m ++ snd r)
  | Raise e => (Raise e, snd m)
  | OutOfFuel => (OutOfFuel, snd m)
  end.

Definition call {A : Type} (ev : event) (m : outcome A) : traced A := (m, [ev]).
Definition tret {A : Type} (a : A) : traced A := (Ok a, []).

(** [np.round(x)]: the nearest integer, ties to even, as an exact integer;
    [None] for a NaN or an infinity. *)
Definition np_round (x : float) : option Z :=
  match Prim2SF x with
  | S754_finite s m e =>
      if 0 <=? e then Some (cond_Zopp s (Z.shiftl (Zpos m) e))
      else
        let q := Z.shiftr (Zpos m) (- e) in
        let r := Zpos m - Z.shiftl q (- e) in
        let half := Z.shiftl 1 (- e - 1) in
        Some (cond_Zopp s (if (r <? half) || ((r =? half) && Z.even q) then q else q + 1))
  | S754_zero _ => Some 0
  | _ => None
  end.

(** [np.round(x).astype(int)].  The result of [astype] on a NaN, on an
    infinity and on a value outside the range of [int64] is the smallest
    [int64]. *)
Definition np_round_astype_int (x : float) : Z :=
  match np_round x with
  | Some n => if (- 2 ^ 63 <=? n) && (n <? 2 ^ 63) then n else - 2 ^ 63
  | None => - 2 ^ 63
  end.

Section Collaborators.

(** NumPy and libm: [pow] is the power that NumPy takes of each item of an
    array (for the exponent 2 it multiplies), [libm_pow] the function [pow]
    of the C library, which Python calls for a [float] and NumPy for a
    [float64]; then [np.exp] and [np.sum]. *)
Variable pow : float -> float -> float.
Variable libm_pow : float -> float -> float.
Variable np_exp : float -> float.
Variable np_sum : list float -> float.

(** SciPy: [stats.chi2.sf], and the three functions of [scipy.signal]
    (the peaks with their heights; prominences with their bases; widths,
    width heights and the two interpolated positions). *)
Variable chi2_sf : float -> Z -> float.
Variable signal_find_peaks : list float -> Z -> float -> list float -> list Z * list float.
Variable signal_peak_prominences :
  list float -> list Z -> Z -> list float * list Z * list Z.
Variable signal_peak_widths :
  list float -> list Z -> float -> list float * list Z * list Z ->
  list float * list float * list float * list float.

(** iminuit: [Minuit(fcn, start).migrad()], for any parameter space [X]. *)
Variable migrad : forall X : Type, (X -> outcome float) -> X -> outcome (minuit X).

(** astropy: [fits.open(filename)[1].data.copy()], the table of orders. *)
Variable fits_open : string -> outcome (list order_data).

(** *** The power operator *)

(** [x ** k] for a Python [float] [x] and one of the exponents of the
    module, the [int] literals 2 to 9: the value of the C library, and
    [OverflowError] when the base is finite and the power is infinite.  (Of
    a NaN and of an infinity Python returns, without the call, what C
    prescribes for [pow].) *)
Definition float_pow (x k : float) : outcome float :=
  let r := libm_pow x k in
  if is_finite x && is_infinity r then Raise OverflowError else Ok r.

(** [u ** k] for a number or an array [u]. *)
Definition vpow (u : outcome pyval) (k : float) : outcome pyval :=
  a <- u ;;
  match a with
  | Scalar x => r <- float_pow x k ;; Ok (Scalar r)
  | NpScalar x => Ok (NpScalar (libm_pow x k))
  | Array l => Ok (Array (map (fun v => pow v k) l))
  end.

(** *** [func_find_peaks] *)

Definition func_find_peaks (y : list float) (required_dist : Z) (required_prominence : float)
  : peak_info :=
  let '(peaks, heights) :=
    signal_find_peaks y required_dist required_prominence (map (fun _ => 0%float) y) in
  let prom := signal_peak_prominences y peaks 20 in
  let '(w, _, left_pos, right_pos) := signal_peak_widths y peaks 1 prom in
  PeakInfo peaks (fst (fst prom)) (map np_round_astype_int left_pos)
    (map np_round_astype_int right_pos) w heights.

(** *** [fit_peaks] *)

(** [super_gauss(x, A, mu, sigma, P, C, b=0)] on the pixel array [x], for
    the Python floats that the minimiser hands over.  The powers of the
    arrays [(x - mu)] and [z] are NumPy's; [sigma**2] is the power of a
    Python [float] and can raise. *)
Definition super_gauss (x : list Z) (A mu sigma P C b : float) : outcome (list float) :=
  sigma2 <- float_pow sigma 2 ;;
  Ok (map (fun xi =>
             let z := (pow (Z2float xi - mu) 2 / (2 * sigma2))%float in
             (A * np_exp (- pow z P) + C + b * (Z2float xi - mu))%float) x).

(** [model_chi(A, mu, sigma, P, C)] of one window; the subtraction and the
    division broadcast, and raise [ValueError] when they cannot. *)
Definition model_chi (x : list Z) (y ey : list float) (p : params) : outcome float :=
  y_fit <- super_gauss x (p_A p) (p_mu p) (p_sigma p) (p_P p) (p_C p) 0 ;;
  d <- broadcast PrimFloat.sub y y_fit ;;
  q <- broadcast PrimFloat.div d ey ;;
  Ok (np_sum (map (fun v => pow v 2) q)).

(** The arrays of one window and the minimisation on them: [x], [y], [ey],
    the start values and [Minuit(model_chi, ...).migrad()]. *)
Definition peak_minuit (data_spec data_spec_err : list float)
    (peak_index_range : Z * Z) : outcome (minuit params) :=
  let '(index_start, index_end) := peak_index_range in
  let x := np_arange index_start index_end in
  let y := py_slice data_spec index_start index_end in
  let ey := py_slice data_spec_err index_start index_end in
  let A_init := 0.87%float in
  let mu_init := np_mean x in
  let sigma_init := (-1.8)%float in
  let P_init := 1.3%float in
  let C_init := 0.12%float in
  migrad params (model_chi x y ey) (Params A_init mu_init sigma_init P_init C_init).

(** The number of points of a window, [len(x)]. *)
Definition Npoints (peak_index_range : Z * Z) : Z :=
  Z.of_nat (length (np_arange (fst peak_index_range) (snd peak_index_range))).

(** The body of the loop of [fit_peaks] for one window.  The flag [print]
    shadows the built-in of that name: when it is true, the call
    [print(...)] calls a [bool], a [TypeError]. *)
Definition fit_peak (data_spec data_spec_err : list float) (print : bool)
    (peak_index_range : Z * Z) : outcome peak_fit :=
  m <- peak_minuit data_spec data_spec_err peak_index_range ;;
  let ndof := Npoints peak_index_range - Z.of_nat (length (values_list (values m))) in
  let Chi2_val := fval m in
  let converged := is_valid m in
  let Prob := chi2_sf Chi2_val ndof in
  let row :=
    PeakFit (p_A (values m)) (p_A (errors m))
            (p_mu (values m)) (p_mu (errors m))
            (p_sigma (values m)) (p_sigma (errors m))
            (p_C (values m)) (p_C (errors m))
            Chi2_val ndof converged (fst peak_index_range) (snd peak_index_range) Prob
            (p_P (values m)) (p_P (errors m)) in
  if print then Raise TypeError else Ok row.

(** The list [peak_fits] that the loop builds. *)
Definition fit_peaks_list (data_spec data_spec_err : list float)
    (peak_index_ranges : list (Z * Z)) (print : bool) : outcome (list peak_fit) :=
  for_each (fit_peak data_spec data_spec_err print) peak_index_ranges.

(** [fit_peaks(data_spec, data_spec_err, peak_index_ranges, print=False)]. *)
Definition fit_peaks (data_spec data_spec_err : list float)
    (peak_index_ranges : list (Z * Z)) (print : bool) : outcome (list (list float)) :=
  peak_fits <- fit_peaks_list data_spec data_spec_err peak_index_ranges print ;;
  Ok (map peak_fit_row peak_fits).

(** *** The calibration polynomials and [get_calib_poly_func] *)

Local Notation "$ c" := (Ok (Scalar c)) (at level 9, c at level 9).
Local Notation "a +. b" := (vop PrimFloat.add a b) (at level 50, left associativity).
Local Notation "a *. b" := (vop PrimFloat.mul a b) (at level 40, left associativity).
Local Notation "a ^. k" := (vpow a k) (at level 30, right associativity).

Definition calib_poly_func_1 (x : pyval) (c0 c1 : float) : outcome pyval :=
  let x := Ok x in
  $c0 +. $c1 *. x.

Definition calib_poly_func_2 (x : pyval) (c0 c1 c2 : float) : outcome pyval :=
  let x := Ok x in
  $c0 +. $c1 *. x +. $c2 *. x ^. 2.

Definition calib_poly_func_3 (x : pyval) (c0 c1 c2 c3 : float) : outcome pyval :=
  let x := Ok x in
  $c0 +. $c1 *. x +. $c2 *. x ^. 2 +. $c3 *. x ^. 3.

Definition calib_poly_func_4 (x : pyval) (c0 c1 c2 c3 c4 : float) : outcome pyval :=
  let x := Ok x in
  $c0 +. $c1 *. x +. $c2 *. x ^. 2 +. $c3 *. x ^. 3 +. $c4 *. x ^. 4.

Definition calib_poly_func_5 (x : pyval) (c0 c1 c2 c3 c4 c5 : float) : outcome pyval :=
  let x := Ok x in
  $c0 +. $c1 *. x +. $c2 *. x ^. 2 +. $c3 *. x ^. 3 +. $c4 *. x ^. 4 +. $c5 *. x ^. 5.

Definition calib_poly_func_6 (x : pyval) (c0 c1 c2 c3 c4 c5 c6 : float) : outcome pyval :=
  let x := Ok x in
  $c0 +. $c1 *. x +. $c2 *. x ^. 2 +. $c3 *. x ^. 3 +. $c4 *. x ^. 4 +. $c5 *. x ^. 5
  +. $c6 *. x ^. 6.

Definition calib_poly_func_7 (x : pyval) (c0 c1 c2 c3 c4 c5 c6 c7 : float) : outcome pyval :=
  let x := Ok x in
  $c0 +. $c1 *. x +. $c2 *. x ^. 2 +. $c3 *. x ^. 3 +. $c4 *. x ^. 4 +. $c5 *. x ^. 5
  +. $c6 *. x ^. 6 +. $c7 *. x ^. 7.

Definition calib_poly_func_8 (x : pyval) (c0 c1 c2 c3 c4 c5 c6 c7 c8 : float)
  : outcome pyval :=
  let x := Ok x in
  $c0 +. $c1 *. x +. $c2 *. x ^. 2 +. $c3 *. x ^. 3 +. $c4 *. x ^. 4 +. $c5 *. x ^. 5
  +. $c6 *. x ^. 6 +. $c7 *. x ^. 7 +. $c8 *. x ^. 8.

Definition calib_poly_func_9 (x : pyval) (c0 c1 c2 c3 c4 c5 c6 c7 c8 c9 : float)
  : outcome pyval :=
  let x := Ok x in
  $c0 +. $c1 *. x +. $c2 *. x ^. 2 +. $c3 *. x ^. 3 +. $c4 *. x ^. 4 +. $c5 *. x ^. 5
  +. $c6 *. x ^. 6 +. $c7 *. x ^. 7 +. $c8 *. x ^. 8 +. $c9 *. x ^. 9.

(** The module's global names that [exec] can resolve; a call with the
    wrong number of arguments is a [TypeError]. *)
Definition globals : list (string * py_function) :=
  [ ("calib_poly_func_1"%string,
      fun x par => match par with
                   | [c0; c1] => calib_poly_func_1 x c0 c1
                   | _ => Raise TypeError end);
    ("calib_poly_func_2"%string,
      fun x par => match par with
                   | [c0; c1; c2] => calib_poly_func_2 x c0 c1 c2
                   | _ => Raise TypeError end);
    ("calib_poly_func_3"%string,
      fun x par => match par with
                   | [c0; c1; c2; c3] => calib_poly_func_3 x c0 c1 c2 c3
                   | _ => Raise TypeError end);
    ("calib_poly_func_4"%string,
      fun x par => match par with
                   | [c0; c1; c2; c3; c4] => calib_poly_func_4 x c0 c1 c2 c3 c4
                   | _ => Raise TypeError end);
    ("calib_poly_func_5"%string,
      fun x par => match par with
                   | [c0; c1; c2; c3; c4; c5] => calib_poly_func_5 x c0 c1 c2 c3 c4 c5
                   | _ => Raise TypeError end);
    ("calib_poly_func_6"%string,
      fun x par => match par with
                   | [c0; c1; c2; c3; c4; c5; c6] =>
                       calib_poly_func_6 x c0 c1 c2 c3 c4 c5 c6
                   | _ => Raise TypeError end);
    ("calib_poly_func_7"%string,
      fun x par => match par with
                   | [c0; c1; c2; c3; c4; c5; c6; c7] =>
                       calib_poly_func_7 x c0 c1 c2 c3 c4 c5 c6 c7
                   | _ => Raise TypeError end);
    ("calib_poly_func_8"%string,
      fun x par => match par with
                   | [c0; c1; c2; c3; c4; c5; c6; c7; c8] =>
                       calib_poly_func_8 x c0 c1 c2 c3 c4 c5 c6 c7 c8
                   | _ => Raise TypeError end);
    ("calib_poly_func_9"%string,
      fun x par => match par with
                   | [c0; c1; c2; c3; c4; c5; c6; c7; c8; c9] =>
                       calib_poly_func_9 x c0 c1 c2 c3 c4 c5 c6 c7 c8 c9
                   | _ => Raise TypeError end) ].

Fixpoint lookup_global (name : string) (g : list (string * py_function))
  : outcome py_function :=
  match g with
  | [] => Raise NameError
  | (k, f) :: rest => if String.eqb k name then Ok f else lookup_global name rest
  end.

(** [get_calib_poly_func(degree)]: the assertion, then the name built from
    the degree is resolved in [globals()]. *)
Definition get_calib_poly_func (degree : Z) : outcome py_function :=
  if existsb (Z.eqb degree) (np_arange 1 10)
  then lookup_global ("calib_poly_func_" ++ NilZero.string_of_int (Z.to_int degree)) globals
  else Raise AssertionError.

(** *** [compute_f] and [Chi2Regression] *)

Definition set_var_if_None (var : option (list float)) (x : list float) : list float :=
  match var with
  | Some v => v
  | None => map (fun _ => 1%float) x
  end.

(** [np.array] of the values of a model function at the items of an
    array.  Arrays of more than one dimension are outside this model: when
    a value is itself an array the result is reported as [ValueError]. *)
Fixpoint np_array (items : list pyval) : outcome (list float) :=
  match items with
  | [] => Ok []
  | Scalar v :: rest => l <- np_array rest ;; Ok (v :: l)
  | NpScalar v :: rest => l <- np_array rest ;; Ok (v :: l)
  | Array _ :: _ => Raise ValueError
  end.

(** [np.array([f(xi, *par) for xi in x])]: the items [xi] of the array [x]
    are NumPy values. *)
Definition evaluate_each (f : py_function) (x : list float) (par : list float)
  : outcome pyval :=
  items <- for_each (fun xi => f (NpScalar xi) par) x ;;
  l <- np_array items ;;
  Ok (Array l).

(** [compute_f(f, x, *par)]. *)
Definition compute_f (f : py_function) (x : list float) (par : list float)
  : outcome pyval :=
  match f (Array x) par with
  | Raise ValueError => evaluate_each f x par
  | r => r
  end.

Record Chi2Regression : Type := MkChi2Regression {
  chi_f : py_function;
  chi_x : list float;
  chi_y : list float;
  chi_sy : list float;
  chi_weights : list float
}.

(** [a[mask]] for a boolean mask. *)
Definition mask_select (mask : list bool) (a : list float) : outcome (list float) :=
  if Nat.eqb (length mask) (length a)
  then Ok (map snd (filter fst (combine mask a)))
  else Raise IndexError.

(** [Chi2Regression(f, x, y, sy=None, weights=None, bound=None)].  With a
    bound and no [sy], [np.array(None)[mask]] is an [IndexError]. *)
Definition Chi2Regression_init (f : py_function) (x y : list float)
    (sy weights : option (list float)) (bound : option (float * float))
  : outcome Chi2Regression :=
  '(x, y, sy) <-
    match bound with
    | None => Ok (x, y, sy)
    | Some (lo, hi) =>
        let mask := map (fun v => (lo <=? v)%float && (v <=? hi)%float) x in
        x' <- mask_select mask x ;;
        y' <- mask_select mask y ;;
        sy' <- match sy with
               | Some s => mask_select mask s
               | None => Raise IndexError
               end ;;
        Ok (x', y', Some sy')
    end ;;
  Ok (MkChi2Regression f x y (set_var_if_None sy x) (set_var_if_None weights x)).

(** [Chi2Regression.__call__], applied to the parameters [par]. *)
Definition Chi2Regression_call (self : Chi2Regression) (par : list float) : outcome float :=
  let f := compute_f (chi_f self) (chi_x self) par in
  r <- vdiv
         (Ok (Array (chi_weights self)) *. (vop PrimFloat.sub (Ok (Array (chi_y self))) f) ^. 2)
         (Ok (Array (chi_sy self)) ^. 2) ;;
  match r with
  | Scalar v => Ok v
  | NpScalar v => Ok v
  | Array l => Ok (np_sum l)
  end.

(** *** [fit_peak_positions] *)

(** [a[:, j]] for the array [a] that [np.asarray] makes of a list of rows.
    Of the empty list it makes a one-dimensional array, which has no second
    axis: [IndexError].  (An array of no row and some columns, which no
    function of the module returns, is not a value of this model.) *)
Definition column (a : list (list float)) (j : Z) : outcome (list float) :=
  match a with
  | [] => Raise IndexError
  | _ => for_each (fun row => py_index row j) a
  end.

Definition fit_peak_positions (wavel_true_match : list float)
    (peak_fits : list (list float)) (poly_degree : Z)
  : outcome (list float * float * float * py_function * bool) :=
  x <- column peak_fits 2 ;;
  let y := wavel_true_match in
  y_err <- column peak_fits 4 ;;
  fit_func <- get_calib_poly_func poly_degree ;;
  let init_values := map (fun _ => 1%float) (np_arange 0 (poly_degree + 1)) in
  model_chi2 <- Chi2Regression_init fit_func x y (Some y_err) None None ;;
  m <- migrad (list float) (Chi2Regression_call model_chi2) init_values ;;
  let Npoints := Z.of_nat (length x) in
  let Nvar := poly_degree + 1 in
  let Ndof_fit := Npoints - Nvar in
  let chi2_fit := fval m in
  let prob_fit := chi2_sf chi2_fit Ndof_fit in
  Ok (values m, chi2_fit, prob_fit, fit_func, is_valid m).

(** *** [fit_all_peaks_in_all_orders] *)

(** The number of peaks found in the spectrum of an order:
    [len(peak_locs)] for [peak_locs = func_find_peaks(data_spec, 11, 0.15)[0]]. *)
Definition peak_count (d : order_data) : nat :=
  length (peaks (func_find_peaks (spectrum d) 11 0.15)).

(** The entry saved for an order with fewer than 10 peaks. *)
Definition nan_result (order : Z) : order_result :=
  OrderResult order [[nan]] [[nan]] [nan].

(** The body of the loop over the orders; [results.append] is the value
    returned. *)
Definition fit_order (fuel : nat) (data : list order_data) (correct_errors : bool)
    (custom_error_factor : option float) (order : Z) : traced order_result :=
  match py_index data order with
  | Raise e => (Raise e, [])
  | OutOfFuel => (OutOfFuel, [])
  | Ok d =>
      let data_spec := spectrum d in
      let data_spec_err := uncertainty d in
      let data_wavel := wavelength d in
      let data_spec_err :=
        if correct_errors
        then match custom_error_factor with
             | Some factor => map (fun e => (e * factor)%float) data_spec_err
             | None => map (fun e => (e * sqrt 3)%float) data_spec_err
             end
        else data_spec_err in
      tbind (call (CallFindPeaks order) (Ok (func_find_peaks data_spec 11 0.15)))
        (fun peak_info =>
      let peak_locs := peaks peak_info in
      if Z.of_nat (length peak_locs) <? 10
      then tret (nan_result order)
      else
        tbind (call (CallPeakIndexRanges order) (get_peak_index_ranges peak_locs nan))
          (fun peak_index_ranges =>
        tbind (call (CallFitPeaks order)
                 (fit_peaks data_spec data_spec_err peak_index_ranges false))
          (fun peak_fits =>
        tbind (call (CallTrueWavel order) (get_true_wavel fuel data_wavel peak_locs))
          (fun wavel_true =>
        tbind (np_take data_wavel peak_locs, [])
          (fun wavel_given =>
        tret (OrderResult order peak_fits
                (map (fun row => [fst row; snd row]) wavel_true) wavel_given))))))
  end.

(** The loop [for order in range(40, 76)], with the list [results] it
    appends to. *)
Fixpoint fit_orders (fuel : nat) (data : list order_data) (correct_errors : bool)
    (custom_error_factor : option float) (orders : list Z) (results : list order_result)
  : traced (list order_result) :=
  match orders with
  | [] => tret results
  | order :: rest =>
      tbind (fit_order fuel data correct_errors custom_error_factor order)
        (fun r =>
           fit_orders fuel data correct_errors custom_error_factor rest (results ++ [r]))
  end.

Definition fit_all_peaks_in_all_orders (fuel : nat) (filename : string)
    (correct_errors : bool) (custom_error_factor : option float)
  : traced (list order_result) :=
  match fits_open filename with
  | Raise e => (Raise e, [])
  | OutOfFuel => (OutOfFuel, [])
  | Ok data =>
      fit_orders fuel data correct_errors custom_error_factor (np_arange 40 76) []
  end.

End Collaborators.

(** * Definitions used in the statements

    None of these is part of the module: they are the notions the
    specification speaks of (the closed form of a wavelength, truncation,
    the sum of a polynomial, a matcher that breaks ties by the order of
    generation), written from its words to be compared with the functions
    above, the predicates of the proofs, and the inputs of the examples. *)

(** ** Binary64 values

    The comparison of two floats that are not NaN is the lexicographic
    comparison of their keys. *)
Definition SFkey (x : spec_float) : Z * Z * Z :=
  match x with
  | S754_nan => (0, 0, 0)
  | S754_zero _ => (0, 0, 0)
  | S754_infinity true => (-2, 0, 0)
  | S754_infinity false => (2, 0, 0)
  | S754_finite false m e => (1, e, Zpos m)
  | S754_finite true m e => (-1, - e, Zneg m)
  end.

Definition lex_lt (a b : Z * Z * Z) : Prop :=
  let '(a1, a2, a3) := a in
  let '(b1, b2, b3) := b in
  a1 < b1 \/ (a1 = b1 /\ (a2 < b2 \/ (a2 = b2 /\ a3 < b3))).

Definition SFis_nan (x : spec_float) : bool :=
  match x with S754_nan => true | _ => false end.

Definition fkey (x : float) : Z * Z * Z := SFkey (Prim2SF x).

(** A value of sign [s]: a zero, an infinity or a finite value. *)
Definition SFsigned (s : bool) (r : spec_float) : Prop :=
  r = S754_zero s \/ r = S754_infinity s \/ exists m e, r = S754_finite s m e.

(** A value that is [+0], positive or [+inf]. *)
Definition SFnonneg (r : spec_float) : Prop := SFsigned false r.

Definition nonneg (x : float) : Prop := SFnonneg (Prim2SF x).

(** Finite floats: zeros and finite values. *)
Definition SFfinite (x : spec_float) : bool :=
  match x with
  | S754_zero _ | S754_finite _ _ _ => true
  | _ => false
  end.

Definition finite (x : float) : Prop := SFfinite (Prim2SF x) = true.

(** Truncation toward zero, in the words of the specification: the integer
    part of a finite float, the fraction dropped, which is the quotient
    toward zero of its signed mantissa. *)
Definition truncate (x : float) : Z :=
  match Prim2SF x with
  | S754_finite s m e =>
      if e <? 0 then Z.quot (cond_Zopp s (Z.pos m)) (2 ^ (- e))
      else cond_Zopp s (Z.pos m) * 2 ^ e
  | _ => 0
  end.

(** ** The comb wavelengths *)

(** The largest mode number used in the proofs: at this mode the frequency
    overflows and the wavelength is zero. *)
Definition mode_limit : Z := 2 ^ 1000.

(** The closed form of the specification, [c / (v_rep * n + v_offset) * 1e10]
    with c = 299792458, v_rep = 14e9 and v_offset = 6.19e9, on the float
    [n]. *)
Definition comb_wavelength (n : float) : float :=
  (Z2float 299792458 / (14e9 * n + 6.19e9) * 1e10)%float.

(** A candidate wavelength: [+0] or positive, and not infinite. *)
Definition good_wavel (w : float) : Prop := nonneg w /\ finite w.

(** The rows of the generated list are the modes 0, 1, 2, ... in order, each
    with its wavelength. *)
Definition mode_rows (l : list (float * Z)) : Prop :=
  forall i w m, nth_error l i = Some (w, m) -> m = Z.of_nat i /\ true_wavel m = Ok w.

(** The matcher in the words of the specification, which breaks ties by the
    order of generation: the candidate with the least residual, the first
    one of the sequence n = 0, 1, 2, ... on a tie.  It is compared with
    [get_true_wavel] below. *)
Fixpoint nearest_from (lambd_given : float) (best : float * float)
    (rest : list (float * float)) : float * float :=
  match rest with
  | [] => best
  | c :: rest' =>
      if (residual lambd_given (fst c) <? residual lambd_given (fst best))%float
      then nearest_from lambd_given c rest'
      else nearest_from lambd_given best rest'
  end.

Definition first_generated_nearest (generated : list (float * float)) (lambd_given : float)
  : outcome (float * float) :=
  match generated with
  | [] => Raise ValueError
  | c :: rest => Ok (nearest_from lambd_given c rest)
  end.

Definition first_generated_get_true_wavel (fuel : nat) (data_wavel_given : list float)
    (peak_locs : list Z) : outcome (list (float * float)) :=
  wavel_given <- np_take data_wavel_given peak_locs ;;
  wavel_true <- true_wavel_candidates fuel wavel_given ;;
  for_each (first_generated_nearest (rev wavel_true)) wavel_given.

(** ** Polynomials and pointwise functions *)

(** A function of one float applied to a value: to a number, or to each
    item of an array. *)
Definition pointwise (g : float -> float) (x : pyval) : pyval :=
  match x with
  | Scalar v => Scalar (g v)
  | NpScalar v => NpScalar (g v)
  | Array l => Array (map g l)
  end.

(** The float that a number holds. *)
Definition number_value (r : pyval) : option float :=
  match r with
  | Scalar v => Some v
  | NpScalar v => Some v
  | Array _ => None
  end.

(** The power that is taken of a value: NumPy's own of the items of an
    array, the C library's of a number. *)
Definition item_pow (pow libm_pow : float -> float -> float) (x : pyval)
  : float -> float -> float :=
  match x with
  | Array _ => pow
  | _ => libm_pow
  end.

(** Whether [x ** k] raises [OverflowError] on the Python float [x], and
    whether one of the powers [x ** 2], ..., [x ** degree] does. *)
Definition power_overflows (libm_pow : float -> float -> float) (x : float) (k : Z)
  : bool :=
  is_finite x && is_infinity (libm_pow x (Z2float k)).

Definition some_power_overflows (libm_pow : float -> float -> float) (x : float)
    (degree : Z) : bool :=
  existsb (power_overflows libm_pow x) (np_arange 2 (degree + 1)).

(** The polynomial of the specification: the sum of the terms [c_k * x^k],
    k = 0 .. d, added from left to right as Python does; the terms of degree
    0 and 1 are [c0] and [c1 * x]. *)
Definition poly_term (pow : float -> float -> float) (x : float) (k : Z) (c : float)
  : float :=
  if k =? 0 then c
  else if k =? 1 then (c * x)%float
  else (c * pow x (Z2float k))%float.

Fixpoint poly_sum_from (pow : float -> float -> float) (x : float) (k : Z) (acc : float)
    (cs : list float) : float :=
  match cs with
  | [] => acc
  | c :: cs' => poly_sum_from pow x (k + 1) (acc + poly_term pow x k c)%float cs'
  end.

Definition poly_sum (pow : float -> float -> float) (cs : list float) (x : float) : float :=
  match cs with
  | [] => 0%float
  | c0 :: cs' => poly_sum_from pow x 1 (poly_term pow x 0 c0) cs'
  end.

(** ** The orchestrator's trace *)

(** The order an event belongs to. *)
Definition event_order (ev : event) : Z :=
  match ev with
  | CallFindPeaks o | CallPeakIndexRanges o | CallFitPeaks o | CallTrueWavel o => o
  end.

(** ** Example inputs *)

(** Collaborators for the examples: a minimiser that evaluates the objective
    at the start values and gives up there, reporting that it did not
    converge; squares for powers; and simple stand-ins for the others. *)
Definition stalled_migrad (X : Type) (fcn : X -> outcome float) (start : X)
  : outcome (minuit X) :=
  v <- fcn start ;; Ok (Minuit start start v false).

Definition square_pow (x y : float) : float := (x * x)%float.
Definition linear_exp (x : float) : float := (1 + x)%float.
Definition left_sum (l : list float) : float := fold_left PrimFloat.add l 0%float.
Definition unit_chi2_sf (chi2 : float) (ndof : Z) : float := 1%float.

(** A spectrum of twelve pixels with two peaks, and two windows on it. *)
Definition example_spec : list float :=
  [0.1; 0.2; 0.9; 0.2; 0.1; 0.1; 0.1; 0.3; 0.8; 0.3; 0.1; 0.1]%float.

Definition example_err : list float :=
  [0.1; 0.1; 0.1; 0.1; 0.1; 0.1; 0.1; 0.1; 0.1; 0.1; 0.1; 0.1]%float.

Definition example_wavel : list float :=
  [5000.0; 5000.1; 5000.2; 5000.3; 5000.4; 5000.5; 5000.6; 5000.7; 5000.8; 5000.9;
   5001.0; 5001.1]%float.

Definition example_ranges : list (Z * Z) := [(0, 5); (6, 11)].

(** The rows [fit_peaks] returns on the example. *)
Definition example_fits : list (list float) :=
  Eval vm_compute in
    match fit_peaks square_pow square_pow linear_exp left_sum unit_chi2_sf stalled_migrad
            example_spec example_err example_ranges false with
    | Ok l => l
    | _ => []
    end.

(** A peak finder that finds the two peaks of [example_spec], and a table
    of 76 orders that all hold that spectrum. *)
Definition two_peaks (y : list float) (distance : Z) (prominence : float)
    (height : list float) : list Z * list float :=
  ([2; 8], [0.9; 0.8]%float).

Definition no_prominences (y : list float) (peaks : list Z) (wlen : Z)
  : list float * list Z * list Z := ([], [], []).

Definition no_widths (y : list float) (peaks : list Z) (rel_height : float)
    (prom : list float * list Z * list Z)
  : list float * list float * list float * list float := ([], [], [], []).

Definition example_order : order_data := OrderData example_spec example_err example_wavel.

Definition example_table (filename : string) : outcome (list order_data) :=
  Ok (repeat example_order 76).

(** A nominal wavelength half way between the modes 5 and 4, and one near
    mode 4. *)
Definition tie_wavel : list float := [43776950.277170539%float; 48300000%float].

(** The candidates of [tie_wavel]: the modes 5 and 4. *)
Definition tie_candidates : list (float * float) :=
  [(39348006.037537731%float, 5%float); (48205894.516803347%float, 4%float)].

(** The polynomial of degree 2 that [get_calib_poly_func] returns. *)
Definition example_poly : py_function :=
  match get_calib_poly_func square_pow square_pow 2 with
  | Ok f => f
  | _ => fun _ _ => Raise NameError
  end.

(** A model function that is not pointwise: [f(x, c) = c * np.sum(x)], a
    NumPy number.  ([np.sum] adds fewer than eight items in their order.) *)
Definition sum_model : py_function :=
  fun x par =>
    match par with
    | [c] =>
        match x with
        | Scalar v => Ok (NpScalar (c * v)%float)
        | NpScalar v => Ok (NpScalar (c * v)%float)
        | Array l => Ok (NpScalar (c * fold_left PrimFloat.add l 0)%float)
        end
    | _ => Raise TypeError
    end.

(** * Further notions and example inputs

    The uncertainties that the loop over the orders hands to the peak
    fitter, written as a function of their own; the terms of the chi-square
    sum; and more inputs for the examples. *)

(** The uncertainties given to the peak fitter: scaled by the custom factor,
    or by [np.sqrt(3)], when [correct_errors] is set. *)
Definition corrected_uncertainty (correct_errors : bool) (custom_error_factor : option float)
    (data_spec_err : list float) : list float :=
  if correct_errors
  then match custom_error_factor with
       | Some factor => map (fun e => (e * factor)%float) data_spec_err
       | None => map (fun e => (e * sqrt 3)%float) data_spec_err
       end
  else data_spec_err.

(** The terms of the sum of [Chi2Regression.__call__], for a model function
    that computes [g] of each item. *)
Definition chi2_terms (pow : float -> float -> float) (g : float -> float)
    (x y sy weights : list float) : list float :=
  zip_with PrimFloat.div
    (zip_with PrimFloat.mul weights
       (map (fun d => pow d 2%float) (zip_with PrimFloat.sub y (map g x))))
    (map (fun s => pow s 2%float) sy).

(** A model function with a branch on its argument,
    [f(x, c) = c if x > 0 else 0.0]: on an array of two items or more the
    test raises a [ValueError]; an array of one item is tested as its item
    is, and an empty array counts as false (in the versions of NumPy that
    the module was written for; later ones raise [ValueError]). *)
Definition step_model : py_function :=
  fun x par =>
    match par with
    | [c] =>
        match x with
        | Scalar v | NpScalar v | Array [v] =>
            Ok (Scalar (if (0 <? v)%float then c else 0%float))
        | Array [] => Ok (Scalar 0%float)
        | Array _ => Raise ValueError
        end
    | _ => Raise TypeError
    end.

(** The same function written for arrays, [np.where(x > 0, c, 0.0)].  Of a
    number it returns an array of no dimension, which is modelled as a
    NumPy number. *)
Definition step_model_where : py_function :=
  fun x par =>
    match par with
    | [c] =>
        match x with
        | Scalar v | NpScalar v => Ok (NpScalar (if (0 <? v)%float then c else 0%float))
        | Array l => Ok (Array (map (fun v => if (0 <? v)%float then c else 0%float) l))
        end
    | _ => Raise TypeError
    end.

(** A spectrum of 100 pixels with a peak every ten pixels, its wavelengths
    (from 4.0e7 to 4.99e7 angstrom, around the comb modes 4 and 5), and a
    peak finder that finds its ten peaks and the two peaks of any other
    spectrum. *)
Definition comb_spec : list float :=
  map (fun i => if i mod 10 =? 5 then 0.9%float else 0.1%float) (np_arange 0 100).

Definition comb_err : list float := map (fun _ => 0.1%float) (np_arange 0 100).

Definition comb_wavel : list float :=
  map (fun i => (4e7 + Z2float i * 1e5)%float) (np_arange 0 100).

Definition comb_order : order_data := OrderData comb_spec comb_err comb_wavel.

Definition comb_peaks (y : list float) (distance : Z) (prominence : float)
    (height : list float) : list Z * list float :=
  if Nat.eqb (length y) 100
  then (map (fun k => 10 * k + 5) (np_arange 0 10), repeat 0.9%float 10)
  else two_peaks y distance prominence height.

(** A table of 76 orders: the last 18 hold the spectrum with ten peaks. *)
Definition comb_table (filename : string) : outcome (list order_data) :=
  Ok (repeat example_order 58 ++ repeat comb_order 18).

(** A table of 30 orders. *)
Definition short_table (filename : string) : outcome (list order_data) :=
  Ok (repeat example_order 30).

(** The results on [comb_table], without and with corrected uncertainties. *)
Definition comb_results : list order_result :=
  Eval vm_compute in
    match fst (fit_all_peaks_in_all_orders square_pow square_pow linear_exp left_sum unit_chi2_sf
                 comb_peaks no_prominences no_widths stalled_migrad comb_table
                 10 "LFC.fits" false None) with
    | Ok l => l
    | _ => []
    end.

Definition comb_results_corrected : list order_result :=
  Eval vm_compute in
    match fst (fit_all_peaks_in_all_orders square_pow square_pow linear_exp left_sum unit_chi2_sf
                 comb_peaks no_prominences no_widths stalled_migrad comb_table
                 10 "LFC.fits" true (Some 2%float)) with
    | Ok l => l
    | _ => []
    end.

(** The polynomial of degree 1, and the value of the objective of
    [fit_peak_positions] at the start values on the two fitted peaks of
    [example_fits]. *)
Definition example_line : py_function :=
  match get_calib_poly_func square_pow square_pow 1 with
  | Ok f => f
  | _ => fun _ _ => Raise NameError
  end.

Definition example_chi2 : float :=
  Eval vm_compute in
    match fit_peak_positions square_pow square_pow left_sum unit_chi2_sf stalled_migrad
            [5000.2; 5000.8]%float example_fits 1 with
    | Ok (_, chi2, _, _, _) => chi2
    | _ => nan
    end.

(** * Facts on binary64 arithmetic

    What the proofs below need of the primitive floats, derived from the
    specification of their operations on [spec_float]. *)

(** ** The order

    The comparison of two floats that are not NaN is the lexicographic
    comparison of their keys. *)
Lemma SFcompare_nan_l x y : SFis_nan x = true -> SFcompare x y = None.
Proof. destruct x; try discriminate; reflexivity. Qed.

Lemma SFcompare_Lt x y :
  SFcompare x y = Some Lt <->
  SFis_nan x = false /\ SFis_nan y = false /\ lex_lt (SFkey x) (SFkey y).
Proof.
  destruct x as [[]|[]| |[] mx ex], y as [[]|[]| |[] my ey]; simpl;
    try (split; [discriminate | intros (? & ? & ?); try discriminate; lia]);
    try (split; [intros _; repeat split; lia | reflexivity]).
  - destruct (Z.compare_spec ex ey); change (Pos.compare_cont Eq mx my) with (Pos.compare mx my);
      try destruct (Pos.compare_spec mx my); simpl;
      (split; [try discriminate; intros _; repeat split; lia
              | intros (_ & _ & ?); try reflexivity; lia]).
  - destruct (Z.compare_spec ex ey); change (Pos.compare_cont Eq mx my) with (Pos.compare mx my);
      try destruct (Pos.compare_spec mx my); simpl;
      (split; [try discriminate; intros _; repeat split; lia
              | intros (_ & _ & ?); try reflexivity; lia]).
Qed.

Lemma SFcompare_Eq x y :
  SFcompare x y = Some Eq <->
  SFis_nan x = false /\ SFis_nan y = false /\ SFkey x = SFkey y.
Proof.
  destruct x as [[]|[]| |[] mx ex], y as [[]|[]| |[] my ey]; simpl;
    try (split; [discriminate | intros (? & ? & ?); discriminate]);
    try (split; [intros _; repeat split | reflexivity]).
  - destruct (Z.compare_spec ex ey); change (Pos.compare_cont Eq mx my) with (Pos.compare mx my);
      try destruct (Pos.compare_spec mx my); simpl;
      (split; [try discriminate; intros _; repeat split; congruence
              | intros (_ & _ & E); try reflexivity; injection E; lia]).
  - destruct (Z.compare_spec ex ey); change (Pos.compare_cont Eq mx my) with (Pos.compare mx my);
      try destruct (Pos.compare_spec mx my); simpl;
      (split; [try discriminate; intros _; repeat split; congruence
              | intros (_ & _ & E); try reflexivity; injection E; lia]).
Qed.

Lemma is_nan_spec x : is_nan x = SFis_nan (Prim2SF x).
Proof.
  unfold is_nan. rewrite FloatAxioms.eqb_spec. unfold SFeqb.
  destruct (SFcompare (Prim2SF x) (Prim2SF x)) as [[]|] eqn:E.
  - apply (proj1 (SFcompare_Eq _ _)) in E. destruct E as (N & _). rewrite N. reflexivity.
  - apply (proj1 (SFcompare_Lt _ _)) in E. destruct E as (_ & _ & E).
    destruct (SFkey (Prim2SF x)) as [[a b] c]. simpl in E. lia.
  - destruct (SFis_nan (Prim2SF x)) eqn:N; [reflexivity|].
    assert (SFcompare (Prim2SF x) (Prim2SF x) = Some Eq) by (apply SFcompare_Eq; auto).
    congruence.
  - destruct (SFis_nan (Prim2SF x)) eqn:N; [reflexivity|].
    assert (SFcompare (Prim2SF x) (Prim2SF x) = Some Eq) by (apply SFcompare_Eq; auto).
    congruence.
Qed.

Lemma ltb_true_iff x y :
  (x <? y)%float = true <->
  is_nan x = false /\ is_nan y = false /\ lex_lt (fkey x) (fkey y).
Proof.
  rewrite FloatAxioms.ltb_spec, !is_nan_spec. unfold SFltb, fkey.
  rewrite <- SFcompare_Lt.
  destruct (SFcompare (Prim2SF x) (Prim2SF y)) as [[]|]; split; congruence.
Qed.

Lemma eqb_true_iff x y :
  (x =? y)%float = true <->
  is_nan x = false /\ is_nan y = false /\ fkey x = fkey y.
Proof.
  rewrite FloatAxioms.eqb_spec, !is_nan_spec. unfold SFeqb, fkey.
  rewrite <- SFcompare_Eq.
  destruct (SFcompare (Prim2SF x) (Prim2SF y)) as [[]|]; split; congruence.
Qed.

Lemma ltb_false_iff x y :
  (x <? y)%float = false <->
  is_nan x = true \/ is_nan y = true \/ ~ lex_lt (fkey x) (fkey y).
Proof.
  destruct (x <? y)%float eqn:E.
  - apply (proj1 (ltb_true_iff _ _)) in E. destruct E as (A & B & C).
    split; [discriminate|]. intros [H|[H|H]]; congruence || contradiction.
  - split; [intros _|reflexivity].
    destruct (is_nan x) eqn:A; [auto|]. destruct (is_nan y) eqn:B; [auto|].
    right; right. intros C.
    assert ((x <? y)%float = true) by (apply ltb_true_iff; auto). congruence.
Qed.

Ltac lex_lia :=
  unfold lex_lt in *;
  repeat match goal with
         | H : context [fkey ?x] |- _ => destruct (fkey x) as [[? ?] ?]
         | |- context [fkey ?x] => destruct (fkey x) as [[? ?] ?]
         end;
  try lia.

Lemma ltb_trans x y z :
  (x <? y)%float = true -> (y <? z)%float = true -> (x <? z)%float = true.
Proof.
  rewrite !ltb_true_iff. intros (A & B & C) (_ & D & E).
  repeat split; auto. lex_lia.
Qed.

Lemma ltb_irrefl x : (x <? x)%float = false.
Proof. apply ltb_false_iff. right; right. lex_lia. Qed.

(** [z] is not below [y], [x] is: then [x] is below [z]. *)
Lemma ltb_neg_trans x y z :
  (x <? y)%float = true -> (z <? y)%float = false -> is_nan z = false ->
  (x <? z)%float = true.
Proof.
  rewrite !ltb_true_iff, ltb_false_iff. intros (A & B & C) [D|[D|D]] E; try congruence.
  repeat split; auto. lex_lia.
Qed.

Lemma ltb_not_lt_trans x y z :
  (y <? x)%float = false -> (z <? y)%float = false ->
  is_nan y = false -> (z <? x)%float = false.
Proof.
  rewrite !ltb_false_iff. intros [A|[A|A]] [B|[B|B]] C; try congruence; auto.
  right; right. lex_lia.
Qed.

Lemma lex_le_trans a b c :
  lex_lt a b \/ a = b -> lex_lt b c \/ b = c -> lex_lt a c \/ a = c.
Proof.
  intros [H|<-] [G|<-]; auto. left.
  destruct a as [[? ?] ?], b as [[? ?] ?], c as [[? ?] ?]. unfold lex_lt in *. lia.
Qed.

Lemma lex_chain a b c d :
  lex_lt a b -> lex_lt b c \/ b = c -> ~ lex_lt d c -> lex_lt a d.
Proof.
  intros H [G|<-] N;
    destruct a as [[? ?] ?], b as [[? ?] ?], d as [[? ?] ?];
    try destruct c as [[? ?] ?]; unfold lex_lt in *; lia.
Qed.

Lemma leb_true_iff x y :
  (x <=? y)%float = true <->
  is_nan x = false /\ is_nan y = false /\ (lex_lt (fkey x) (fkey y) \/ fkey x = fkey y).
Proof.
  rewrite FloatAxioms.leb_spec, !is_nan_spec. unfold SFleb, fkey.
  pose proof (SFcompare_Lt (Prim2SF x) (Prim2SF y)) as L.
  pose proof (SFcompare_Eq (Prim2SF x) (Prim2SF y)) as E.
  destruct (SFcompare (Prim2SF x) (Prim2SF y)) as [[]|]; split; try discriminate.
  - intros _. destruct (proj1 E eq_refl) as (A & B & C). auto.
  - reflexivity.
  - intros _. destruct (proj1 L eq_refl) as (A & B & C). auto.
  - reflexivity.
  - intros (A & B & [C|C]).
    + assert (Some Gt = Some Lt) by (apply L; auto). discriminate.
    + assert (Some Gt = Some Eq) by (apply E; auto). discriminate.
  - intros (A & B & [C|C]).
    + assert (@None comparison = Some Lt) by (apply L; auto). discriminate.
    + assert (@None comparison = Some Eq) by (apply E; auto). discriminate.
Qed.

(** ** Digits and shifts *)

Lemma digits2_pos_size p : digits2_pos p = Pos.size p.
Proof. induction p; simpl; congruence. Qed.

Lemma Zdigits2_log2 m : 0 < m -> Zdigits2 m = Z.log2 m + 1.
Proof.
  destruct m as [|p|p]; try lia. intros _. simpl.
  rewrite digits2_pos_size. destruct p; simpl; lia.
Qed.

Lemma Zdigits2_bounds m : 0 < m -> 2 ^ (Zdigits2 m - 1) <= m < 2 ^ Zdigits2 m.
Proof.
  intros H. rewrite Zdigits2_log2 by assumption.
  replace (Z.log2 m + 1 - 1) with (Z.log2 m) by lia.
  replace (Z.log2 m + 1) with (Z.succ (Z.log2 m)) by lia.
  apply Z.log2_spec. assumption.
Qed.

Lemma Zdigits2_nonneg m : 0 <= Zdigits2 m.
Proof. destruct m; simpl; lia. Qed.

Lemma Zdigits2_pos m : 0 < m -> 0 < Zdigits2 m.
Proof. destruct m; simpl; lia. Qed.

Lemma Zdigits2_unique m d : 0 < m -> 2 ^ (d - 1) <= m < 2 ^ d -> Zdigits2 m = d.
Proof.
  intros Hm H. rewrite Zdigits2_log2 by assumption.
  assert (0 < d).
  { destruct (Z.ltb_spec 0 d); auto. rewrite (Z.pow_neg_r 2 (d - 1)) in H by lia.
    assert (2 ^ d <= 1); [|lia].
    destruct (Z.eqb_spec d 0); [subst; simpl; lia|]. rewrite Z.pow_neg_r; lia. }
  assert (Z.log2 m = d - 1); [|lia].
  apply Z.log2_unique; [lia|]. replace (Z.succ (d - 1)) with d by lia. assumption.
Qed.

Lemma Zdigits2_div_pow2 m n :
  0 < m -> 0 <= n -> n < Zdigits2 m ->
  0 < m / 2 ^ n /\ Zdigits2 (m / 2 ^ n) = Zdigits2 m - n.
Proof.
  intros Hm Hn Hlt.
  pose proof (Zdigits2_bounds m Hm) as [Hlo Hhi].
  assert (Hp : 0 < 2 ^ n) by (apply Z.pow_pos_nonneg; lia).
  assert (H1 : 2 ^ (Zdigits2 m - n - 1) <= m / 2 ^ n).
  { apply Z.div_le_lower_bound; [lia|]. rewrite <- Z.pow_add_r by lia.
    replace (n + (Zdigits2 m - n - 1)) with (Zdigits2 m - 1) by lia. assumption. }
  assert (H2 : m / 2 ^ n < 2 ^ (Zdigits2 m - n)).
  { apply Z.div_lt_upper_bound; [lia|]. rewrite <- Z.pow_add_r by lia.
    replace (n + (Zdigits2 m - n)) with (Zdigits2 m) by lia. assumption. }
  assert (H0 : 0 < 2 ^ (Zdigits2 m - n - 1)) by (apply Z.pow_pos_nonneg; lia).
  split; [lia|]. apply Zdigits2_unique; [lia|]. split; assumption.
Qed.

Lemma div_pow2_small m n : 0 <= m -> Zdigits2 m <= n -> m / 2 ^ n = 0.
Proof.
  intros Hm Hn. pose proof (Zdigits2_nonneg m) as Hd.
  destruct (Z.eqb_spec m 0) as [->|Hne];
    [apply Z.div_0_l; apply Z.pow_nonzero; lia|].
  apply Z.div_small. split; [lia|].
  pose proof (Zdigits2_bounds m ltac:(lia)) as [_ Hhi].
  eapply Z.lt_le_trans; [exact Hhi|]. apply Z.pow_le_mono_r; lia.
Qed.

(** iterated halving *)
Lemma shr_1_m mrs : 0 <= shr_m mrs -> shr_m (shr_1 mrs) = shr_m mrs / 2.
Proof.
  destruct mrs as [m r s]. simpl. intros H.
  destruct m as [|[p|p|]|p]; simpl; try lia; try reflexivity.
  - rewrite (Pos2Z.inj_xI p). apply Z.div_unique with (r := 1); lia.
  - rewrite (Pos2Z.inj_xO p). apply Z.div_unique with (r := 0); lia.
Qed.

Lemma shr_1_nonneg mrs : 0 <= shr_m mrs -> 0 <= shr_m (shr_1 mrs).
Proof. intros H. rewrite shr_1_m by assumption. apply Z.div_pos; lia. Qed.

Lemma pow2_xI p : 2 ^ Z.pos p~1 = 2 * (2 ^ Z.pos p * 2 ^ Z.pos p).
Proof.
  rewrite (Pos2Z.inj_xI p). replace (2 * Z.pos p + 1) with (1 + (Z.pos p + Z.pos p)) by lia.
  rewrite Z.pow_add_r by lia. rewrite Z.pow_add_r by lia. reflexivity.
Qed.

Lemma pow2_xO p : 2 ^ Z.pos p~0 = 2 ^ Z.pos p * 2 ^ Z.pos p.
Proof.
  rewrite (Pos2Z.inj_xO p). replace (2 * Z.pos p) with (Z.pos p + Z.pos p) by lia.
  rewrite Z.pow_add_r by lia. reflexivity.
Qed.

Lemma iter_pos_shr_1_m p : forall mrs,
  0 <= shr_m mrs ->
  shr_m (iter_pos shr_1 p mrs) = shr_m mrs / 2 ^ Zpos p.
Proof.
  induction p as [p IH|p IH|]; intros mrs H; simpl iter_pos.
  - assert (Hp : 0 < 2 ^ Z.pos p) by (apply Z.pow_pos_nonneg; lia).
    assert (H1 : 0 <= shr_m (shr_1 mrs)) by (apply shr_1_nonneg; assumption).
    assert (H2 : 0 <= shr_m (iter_pos shr_1 p (shr_1 mrs))).
    { rewrite IH by assumption. apply Z.div_pos; lia. }
    rewrite IH by assumption. rewrite IH by assumption. rewrite shr_1_m by assumption.
    rewrite pow2_xI. rewrite !Z.div_div by lia. reflexivity.
  - assert (Hp : 0 < 2 ^ Z.pos p) by (apply Z.pow_pos_nonneg; lia).
    assert (H2 : 0 <= shr_m (iter_pos shr_1 p mrs)).
    { rewrite IH by assumption. apply Z.div_pos; lia. }
    rewrite IH by assumption. rewrite IH by assumption.
    rewrite pow2_xO. rewrite !Z.div_div by lia. reflexivity.
  - rewrite shr_1_m by assumption. reflexivity.
Qed.

Lemma shr_record_of_loc_m m l : shr_m (shr_record_of_loc m l) = m.
Proof. destruct l as [|[]]; reflexivity. Qed.

(** What one [shr_fexp] does to the mantissa and the exponent. *)
Lemma shr_fexp_spec m e l :
  0 <= m ->
  let n := Z.max 0 (fexp prec emax (Zdigits2 m + e) - e) in
  shr_m (fst (shr_fexp prec emax m e l)) = m / 2 ^ n /\
  snd (shr_fexp prec emax m e l) = e + n.
Proof.
  intros H n. subst n. unfold shr_fexp, shr.
  destruct (fexp prec emax (Zdigits2 m + e) - e) as [|p|p] eqn:E; simpl fst; simpl snd.
  - rewrite shr_record_of_loc_m. simpl. rewrite Z.div_1_r. lia.
  - rewrite iter_pos_shr_1_m by (rewrite shr_record_of_loc_m; assumption).
    rewrite shr_record_of_loc_m. rewrite Z.max_r by lia. split; reflexivity.
  - rewrite shr_record_of_loc_m. simpl. rewrite Z.div_1_r. lia.
Qed.

Lemma round_nearest_even_cases m l :
  round_nearest_even m l = m \/ round_nearest_even m l = m + 1.
Proof. unfold round_nearest_even. destruct l as [|[]]; try destruct (Z.even m); auto. Qed.

Lemma Zdigits2_below m k : 0 <= k -> 0 <= m < 2 ^ k -> Zdigits2 m <= k.
Proof.
  intros Hk [H0 H1]. destruct (Z.eqb_spec m 0) as [->|N]; [simpl; lia|].
  pose proof (Zdigits2_bounds m ltac:(lia)) as [L _].
  destruct (Z.leb_spec (Zdigits2 m) k) as [|G]; [assumption|].
  assert (2 ^ k <= 2 ^ (Zdigits2 m - 1)) by (apply Z.pow_le_mono_r; lia).
  lia.
Qed.

Lemma Zdigits2_above m k : 0 <= k -> 2 ^ k <= m -> k < Zdigits2 m.
Proof.
  intros Hk H. assert (0 < 2 ^ k) by (apply Z.pow_pos_nonneg; lia).
  pose proof (Zdigits2_bounds m ltac:(lia)) as [_ U].
  destruct (Z.ltb_spec k (Zdigits2 m)) as [|G]; [assumption|].
  assert (2 ^ Zdigits2 m <= 2 ^ k) by (apply Z.pow_le_mono_r; [lia|lia]).
  lia.
Qed.

(** ** Signs: the result of rounding keeps the sign it is given *)

Lemma iter_pos_shr_1_nonneg p : forall mrs,
  0 <= shr_m mrs -> 0 <= shr_m (iter_pos shr_1 p mrs).
Proof.
  induction p; intros mrs H; simpl; auto using shr_1_nonneg.
Qed.

Lemma shr_fexp_nonneg m e l :
  0 <= m -> 0 <= shr_m (fst (shr_fexp prec emax m e l)).
Proof.
  intros H. unfold shr_fexp, shr.
  assert (H0 : 0 <= shr_m (shr_record_of_loc m l)) by (destruct l as [|[]]; exact H).
  destruct (fexp prec emax (Zdigits2 m + e) - e); simpl; auto using iter_pos_shr_1_nonneg.
Qed.

Lemma round_nearest_even_nonneg m l : 0 <= m -> 0 <= round_nearest_even m l.
Proof.
  intros H. unfold round_nearest_even. destruct l as [|[]]; try destruct (Z.even m); lia.
Qed.

Lemma binary_round_aux_signed sx mx ex lx :
  0 <= mx -> SFsigned sx (binary_round_aux prec emax sx mx ex lx).
Proof.
  intros H. unfold binary_round_aux.
  pose proof (shr_fexp_nonneg mx ex lx H) as H1.
  destruct (shr_fexp prec emax mx ex lx) as [mrs' e']. simpl in H1.
  pose proof (shr_fexp_nonneg _ e' loc_Exact
                (round_nearest_even_nonneg _ (loc_of_shr_record mrs') H1)) as H2.
  destruct (shr_fexp prec emax _ e' loc_Exact) as [mrs'' e'']. simpl in H2.
  destruct (shr_m mrs'') as [|m|m].
  - left; reflexivity.
  - destruct (e'' <=? emax - prec).
    + right; right; eauto.
    + right; left; reflexivity.
  - lia.
Qed.

Lemma binary_round_signed sx mx ex : SFsigned sx (binary_round prec emax sx mx ex).
Proof.
  unfold binary_round. destruct (shl_align mx ex _) as [mz ez].
  apply binary_round_aux_signed. lia.
Qed.

Lemma binary_normalize_nonneg m e : 0 <= m -> SFnonneg (binary_normalize prec emax m e false).
Proof.
  intros H. destruct m as [|p|p]; simpl; try lia.
  - left; reflexivity.
  - apply binary_round_signed.
Qed.

Lemma SFmul_nonneg x y m e :
  SFnonneg x -> y = S754_finite false m e -> SFnonneg (SFmul prec emax x y).
Proof.
  intros [->|[->|(mx & ex & ->)]] ->; simpl.
  - left; reflexivity.
  - right; left; reflexivity.
  - apply binary_round_aux_signed. lia.
Qed.

Lemma SFmul_nonneg_l x y m e :
  x = S754_finite false m e -> SFnonneg y -> SFnonneg (SFmul prec emax x y).
Proof.
  intros -> [->|[->|(my & ey & ->)]]; simpl.
  - left; reflexivity.
  - right; left; reflexivity.
  - apply binary_round_aux_signed. lia.
Qed.

Lemma SFadd_nonneg x y m e :
  SFnonneg x -> y = S754_finite false m e -> SFnonneg (SFadd prec emax x y).
Proof.
  intros [->|[->|(mx & ex & ->)]] ->; simpl.
  - right; right; eauto.
  - right; left; reflexivity.
  - apply binary_round_signed.
Qed.

Lemma SFdiv_nonneg x y m e :
  x = S754_finite false m e -> SFnonneg y -> SFnonneg (SFdiv prec emax x y).
Proof.
  intros -> [->|[->|(my & ey & ->)]]; simpl.
  - right; left; reflexivity.
  - left; reflexivity.
  - unfold SFdiv_core_binary.
    set (m' := match _ with Z0 => _ | Zpos _ => Z.shiftl _ _ | Zneg _ => _ end).
    assert (Hm : 0 <= m').
    { subst m'. destruct (_ - _ - _); try lia. apply Z.shiftl_nonneg. lia. }
    pose proof (Z_div_mod m' (Zpos my) eq_refl) as Hd.
    destruct (Z.div_eucl m' (Zpos my)) as [q r].
    apply binary_round_aux_signed. nia.
Qed.

Lemma SFldexp_nonneg x e : SFnonneg x -> SFnonneg (SFldexp prec emax x e).
Proof.
  intros [->|[->|(mx & ex & ->)]]; simpl.
  - left; reflexivity.
  - right; left; reflexivity.
  - apply binary_round_signed.
Qed.

Lemma nonneg_not_nan x : nonneg x -> is_nan x = false.
Proof.
  unfold nonneg. rewrite is_nan_spec. intros [->|[->|(m & e & ->)]]; reflexivity.
Qed.

(** ** Rounding *)

Local Abbreviation fexp := (SpecFloat.fexp prec emax).

Lemma fexp_eq e : fexp e = Z.max (e - 53) (-1074).
Proof. reflexivity. Qed.

Lemma Zdigits2_le m m' : 0 < m -> m <= m' -> Zdigits2 m <= Zdigits2 m'.
Proof.
  intros H H'. rewrite !Zdigits2_log2 by lia.
  pose proof (Z.log2_le_mono m m' H'). lia.
Qed.

Lemma div_pow2_0 m : m / 2 ^ 0 = m.
Proof. simpl. apply Z.div_1_r. Qed.

(** The two shifts of [binary_round_aux], on a mantissa that has at least
    the digits its exponent calls for: the result is a valid float; it is a
    zero only when the whole mantissa is shifted out, and an infinity only
    when the exponent is too large. *)
Lemma binary_round_aux_shape sx mx ex lx :
  0 < mx -> ex <= fexp (Zdigits2 mx + ex) ->
  let r := binary_round_aux prec emax sx mx ex lx in
  valid_binary r = true /\
  (r = S754_zero sx -> Zdigits2 mx + ex <= fexp (Zdigits2 mx + ex)) /\
  (r = S754_infinity sx -> emax - prec < fexp (Zdigits2 mx + ex + 1)).
Proof.
  intros Hm Hex r. subst r. unfold binary_round_aux.
  pose proof (shr_fexp_spec mx ex lx ltac:(lia)) as [Hm' He'].
  destruct (shr_fexp prec emax mx ex lx) as [mrs' e']. simpl in Hm', He'.
  set (n1 := Z.max 0 (fexp (Zdigits2 mx + ex) - ex)) in *.
  set (m1 := round_nearest_even (shr_m mrs') (loc_of_shr_record mrs')).
  assert (Hp1 : 0 < 2 ^ n1) by (apply Z.pow_pos_nonneg; lia).
  assert (Hm'0 : 0 <= shr_m mrs') by (rewrite Hm'; apply Z.div_pos; lia).
  assert (Hm1 : m1 = shr_m mrs' \/ m1 = shr_m mrs' + 1) by apply round_nearest_even_cases.
  pose proof (shr_fexp_spec m1 e' loc_Exact ltac:(lia)) as [Hm'' He''].
  destruct (shr_fexp prec emax m1 e' loc_Exact) as [mrs'' e'']. simpl in Hm'', He''.
  set (n2 := Z.max 0 (fexp (Zdigits2 m1 + e') - e')) in *.
  assert (Hp2 : 0 < 2 ^ n2) by (apply Z.pow_pos_nonneg; lia).
  pose proof (Zdigits2_pos mx Hm) as Hd.
  (* the first shift *)
  assert (He'min : -1074 <= e') by (rewrite He'; subst n1; rewrite fexp_eq; lia).
  assert (H1 : (0 < shr_m mrs' /\ Zdigits2 (shr_m mrs') + e' = Zdigits2 mx + ex /\
                n1 < Zdigits2 mx)
               \/ (shr_m mrs' = 0 /\ Zdigits2 mx <= n1 /\ e' = -1074)).
  { destruct (Z.ltb_spec n1 (Zdigits2 mx)) as [L|L].
    - left. destruct (Zdigits2_div_pow2 mx n1 Hm ltac:(lia) L) as [A B].
      rewrite Hm'. split; [assumption|]. rewrite B. lia.
    - right. split; [rewrite Hm'; apply div_pow2_small; lia|].
      split; [assumption|]. rewrite He'. subst n1. rewrite fexp_eq in *. lia. }
  (* the mantissa after the second shift *)
  destruct (Z.eqb_spec m1 0) as [Z1|NZ1].
  { rewrite Hm'', Z1. rewrite Z.div_0_l by lia. simpl.
    split; [reflexivity|]. split; [|discriminate]. intros _.
    destruct H1 as [(A & _)|(_ & A & _)]; [lia|]. subst n1. lia. }
  assert (Hm1pos : 0 < m1) by lia.
  pose proof (Zdigits2_pos m1 Hm1pos) as Hd1.
  assert (Hd1le : fexp (Zdigits2 m1 + e') <= fexp (Zdigits2 mx + ex + 1)).
  { destruct H1 as [(A & B & _)|(A & B & C)].
    - assert (Zdigits2 m1 <= Zdigits2 (shr_m mrs') + 1); [|rewrite !fexp_eq; lia].
      destruct Hm1 as [->| ->]; [lia|].
      pose proof (Zdigits2_bounds (shr_m mrs') A) as [_ U].
      pose proof (Zdigits2_pos _ A).
      assert (V : shr_m mrs' + 1 < 2 ^ (Zdigits2 (shr_m mrs') + 1)).
      { rewrite Z.pow_add_r by lia. simpl (2 ^ 1). lia. }
      destruct (Z.leb_spec (Zdigits2 (shr_m mrs' + 1)) (Zdigits2 (shr_m mrs') + 1)); auto.
      pose proof (Zdigits2_bounds (shr_m mrs' + 1) ltac:(lia)) as [W _].
      assert (2 ^ (Zdigits2 (shr_m mrs') + 1) <= 2 ^ (Zdigits2 (shr_m mrs' + 1) - 1))
        by (apply Z.pow_le_mono_r; lia).
      lia.
    - assert (E1 : m1 = 1) by lia. rewrite E1. simpl Zdigits2.
      rewrite !fexp_eq. lia. }
  assert (Hn2 : n2 < Zdigits2 m1).
  { subst n2. rewrite fexp_eq. lia. }
  assert (Hge : e' <= fexp (Zdigits2 m1 + e')).
  { destruct H1 as [(A & B & _)|(A & B & C)].
    - assert (Zdigits2 (shr_m mrs') <= Zdigits2 m1) by (apply Zdigits2_le; lia).
      assert (e' = fexp (Zdigits2 mx + ex)) by (rewrite He'; subst n1; lia).
      rewrite fexp_eq in *. lia.
    - rewrite fexp_eq. lia. }
  destruct (Zdigits2_div_pow2 m1 n2 Hm1pos ltac:(lia) Hn2) as [A B].
  rewrite <- Hm'' in A, B.
  destruct (shr_m mrs'') as [|m''|m'']; try lia.
  assert (Hcan : fexp (Zdigits2 (Z.pos m'') + e'') = e'').
  { rewrite B, He''. replace (Zdigits2 m1 - n2 + (e' + n2)) with (Zdigits2 m1 + e') by lia.
    subst n2. lia. }
  assert (He''le : e'' <= fexp (Zdigits2 mx + ex + 1)).
  { rewrite He''. subst n2. lia. }
  destruct (Z.leb_spec e'' (emax - prec)) as [L|L].
  - split; [|split; discriminate].
    simpl. unfold bounded, canonical_mantissa.
    change (Z.pos (digits2_pos m'')) with (Zdigits2 (Z.pos m'')).
    rewrite Hcan, Z.eqb_refl. simpl. apply Z.leb_le. assumption.
  - split; [reflexivity|]. split; [discriminate|]. intros _. lia.
Qed.

(** [shl_align]: the exponent is lowered by shifting the mantissa left. *)
Lemma shift_left_value mx d : Z.pos (Pos.iter xO mx d) = Z.pos mx * 2 ^ Z.pos d.
Proof.
  change (Pos.iter xO mx d) with (Zpower.shift_pos d mx).
  rewrite Zpower.shift_pos_correct. change (Z.pow_pos 2 d) with (2 ^ Z.pos d). lia.
Qed.

Lemma Zdigits2_mul_pow2 m k : 0 < m -> 0 <= k -> Zdigits2 (m * 2 ^ k) = Zdigits2 m + k.
Proof.
  intros Hm Hk. pose proof (Zdigits2_bounds m Hm) as [L U].
  pose proof (Zdigits2_pos m Hm) as Hd.
  assert (Hp : 0 < 2 ^ k) by (apply Z.pow_pos_nonneg; lia).
  apply Zdigits2_unique; [nia|].
  replace (Zdigits2 m + k - 1) with (Zdigits2 m - 1 + k) by lia.
  rewrite !Z.pow_add_r by lia. nia.
Qed.

Lemma shl_align_spec mx ex ex' :
  let mz := fst (shl_align mx ex ex') in
  let ez := snd (shl_align mx ex ex') in
  ez = Z.min ex ex' /\ Z.pos mz = Z.pos mx * 2 ^ (ex - ez) /\
  Zdigits2 (Z.pos mz) + ez = Zdigits2 (Z.pos mx) + ex.
Proof.
  unfold shl_align. destruct (ex' - ex) as [|d|d] eqn:E; simpl fst; simpl snd.
  - rewrite Z.min_l by lia. rewrite Z.sub_diag, Z.mul_1_r. auto.
  - rewrite Z.min_l by lia. rewrite Z.sub_diag, Z.mul_1_r. auto.
  - rewrite Z.min_r by lia. replace (ex - ex') with (Z.pos d) by lia.
    rewrite shift_left_value. split; [reflexivity|]. split; [reflexivity|].
    rewrite Zdigits2_mul_pow2 by lia. lia.
Qed.

(** [binary_round] yields a valid float, never a zero, and an infinity only
    when the exponent is too large. *)
Lemma binary_round_shape sx mx ex :
  let r := binary_round prec emax sx mx ex in
  valid_binary r = true /\
  (r = S754_zero sx -> Zdigits2 (Z.pos mx) + ex <= -1074) /\
  (r = S754_infinity sx -> emax - prec < fexp (Zdigits2 (Z.pos mx) + ex + 1)).
Proof.
  unfold binary_round.
  pose proof (shl_align_spec mx ex (fexp (Z.pos (digits2_pos mx) + ex))) as (A & B & C).
  destruct (shl_align mx ex _) as [mz ez]. cbn [fst snd] in A, B, C.
  change (Z.pos (digits2_pos mx)) with (Zdigits2 (Z.pos mx)) in *.
  assert (H : ez <= fexp (Zdigits2 (Z.pos mz) + ez)) by (rewrite C; lia).
  pose proof (binary_round_aux_shape sx (Z.pos mz) ez loc_Exact eq_refl H) as (V & Z0 & I).
  rewrite C in Z0, I.
  split; [exact V|]. split; [|exact I].
  intros E. specialize (Z0 E). rewrite fexp_eq in *. lia.
Qed.

Lemma binary_normalize_valid m e : valid_binary (binary_normalize prec emax m e false) = true.
Proof.
  destruct m; simpl; [reflexivity| |]; apply binary_round_shape.
Qed.

Lemma valid_finite_exponent s m e :
  valid_binary (S754_finite s m e) = true -> fexp (Zdigits2 (Z.pos m) + e) = e.
Proof.
  simpl. unfold bounded, canonical_mantissa. intros H.
  apply andb_true_iff in H. destruct H as [H _]. apply Z.eqb_eq in H. exact H.
Qed.

(** The difference of two finite floats is never a NaN. *)
Lemma SFsub_finite_not_nan x y :
  SFfinite x = true -> SFfinite y = true -> SFsub prec emax x y <> S754_nan.
Proof.
  destruct x as [sx| | |sx mx ex], y as [sy| | |sy my ey]; try discriminate; intros _ _; simpl.
  - destruct sx, sy; discriminate.
  - set (X := _ - _). set (ez := Z.min ex ey). destruct X as [|p|p].
    + discriminate.
    + change (binary_normalize prec emax (Z.pos p) ez false)
        with (binary_round prec emax false p ez).
      destruct (binary_round_signed false p ez) as [E|[E|(m & e & E)]];
        rewrite E; discriminate.
    + change (binary_normalize prec emax (Z.neg p) ez false)
        with (binary_round prec emax true p ez).
      destruct (binary_round_signed true p ez) as [E|[E|(m & e & E)]];
        rewrite E; discriminate.
Qed.

(** The difference of two finite floats is a zero only when they compare
    equal (there is no underflow to zero in a subtraction). *)
Lemma SFsub_zero_eq x y s :
  valid_binary x = true -> valid_binary y = true ->
  SFfinite x = true -> SFfinite y = true ->
  SFsub prec emax x y = S754_zero s -> SFcompare x y = Some Eq.
Proof.
  destruct x as [sx| | |sx mx ex], y as [sy| | |sy my ey]; try discriminate;
    intros Vx Vy _ _.
  - intros _. reflexivity.
  - apply valid_finite_exponent in Vx, Vy. unfold SFsub.
    set (ez := Z.min ex ey).
    pose proof (shl_align_spec mx ex ez) as (_ & Ax & Dx).
    pose proof (shl_align_spec my ey ez) as (_ & Ay & Dy).
    cbn zeta in Ax, Dx, Ay, Dy.
    assert (Ex : snd (shl_align mx ex ez) = ez).
    { unfold shl_align. destruct (ez - ex) eqn:E; simpl; lia. }
    assert (Ey : snd (shl_align my ey ez) = ez).
    { unfold shl_align. destruct (ez - ey) eqn:E; simpl; lia. }
    rewrite Ex in Ax, Dx. rewrite Ey in Ay, Dy.
    set (ax := fst (shl_align mx ex ez)) in *.
    set (ay := fst (shl_align my ey ez)) in *.
    assert (Hmin : -1074 <= ez) by (rewrite fexp_eq in Vx, Vy; lia).
    destruct (cond_Zopp sx (Z.pos ax) - cond_Zopp sy (Z.pos ay)) as [|p|p] eqn:X.
    + intros _.
      assert (S : sx = sy /\ ax = ay)
        by (destruct sx, sy; unfold cond_Zopp in X; try (exfalso; lia);
            (split; [reflexivity | lia])).
      destruct S as [-> S]. rewrite S in Dx.
      assert (ex = ey) by (rewrite <- Vx, <- Vy; f_equal; lia).
      subst ey. assert (Z.pos mx = Z.pos my) by (rewrite S in Ax; nia).
      apply SFcompare_Eq. repeat split. simpl. destruct sy; congruence.
    + change (binary_normalize prec emax (Z.pos p) ez false)
        with (binary_round prec emax false p ez).
      intros E. exfalso.
      destruct (binary_round_signed false p ez) as [F|[F|(m & e & F)]];
        rewrite F in E; try discriminate.
      pose proof (binary_round_shape false p ez) as (_ & Z0 & _).
      specialize (Z0 F). pose proof (Zdigits2_pos (Z.pos p) eq_refl). lia.
    + change (binary_normalize prec emax (Z.neg p) ez false)
        with (binary_round prec emax true p ez).
      intros E. exfalso.
      destruct (binary_round_signed true p ez) as [F|[F|(m & e & F)]];
        rewrite F in E; try discriminate.
      pose proof (binary_round_shape true p ez) as (_ & Z0 & _).
      specialize (Z0 F). pose proof (Zdigits2_pos (Z.pos p) eq_refl). lia.
Qed.

Lemma SFsub_eq_zero x y :
  SFfinite x = true -> SFfinite y = true -> SFcompare x y = Some Eq ->
  SFabs (SFsub prec emax x y) = S754_zero false.
Proof.
  intros Fx Fy E. apply SFcompare_Eq in E. destruct E as (_ & _ & E).
  destruct x as [sx| | |sx mx ex], y as [sy| | |sy my ey]; try discriminate.
  - destruct sx, sy; reflexivity.
  - destruct sy; discriminate.
  - destruct sx; discriminate.
  - assert (S : sx = sy /\ mx = my /\ ex = ey).
    { destruct sx, sy; simpl in E; try discriminate; injection E; intros; repeat split; lia. }
    destruct S as (-> & -> & ->). unfold SFsub. rewrite Z.sub_diag. reflexivity.
Qed.

(** The two shifts of [binary_round_aux], spelled out: the mantissa is cut
    by [n1] bits and rounded up by at most one, and cut again, by [n2] bits,
    when the rounding made it too long. *)
Lemma binary_round_aux_eq sx mx ex lx :
  0 <= mx ->
  exists n1 m1 n2,
    n1 = Z.max 0 (fexp (Zdigits2 mx + ex) - ex) /\
    (m1 = mx / 2 ^ n1 \/ m1 = mx / 2 ^ n1 + 1) /\
    n2 = Z.max 0 (fexp (Zdigits2 m1 + (ex + n1)) - (ex + n1)) /\
    binary_round_aux prec emax sx mx ex lx
    = match m1 / 2 ^ n2 with
      | 0 => S754_zero sx
      | Z.pos m => if ex + n1 + n2 <=? emax - prec then S754_finite sx m (ex + n1 + n2)
                   else S754_infinity sx
      | Z.neg _ => S754_nan
      end.
Proof.
  intros Hm. unfold binary_round_aux.
  pose proof (shr_fexp_spec mx ex lx Hm) as [Hm' He'].
  destruct (shr_fexp prec emax mx ex lx) as [mrs' e']. simpl in Hm', He'.
  set (n1 := Z.max 0 (fexp (Zdigits2 mx + ex) - ex)) in *.
  set (m1 := round_nearest_even (shr_m mrs') (loc_of_shr_record mrs')).
  assert (Hp1 : 0 < 2 ^ n1) by (apply Z.pow_pos_nonneg; lia).
  assert (Hm'0 : 0 <= shr_m mrs') by (rewrite Hm'; apply Z.div_pos; lia).
  assert (Hm1 : m1 = shr_m mrs' \/ m1 = shr_m mrs' + 1) by apply round_nearest_even_cases.
  pose proof (shr_fexp_spec m1 e' loc_Exact ltac:(lia)) as [Hm'' He''].
  destruct (shr_fexp prec emax m1 e' loc_Exact) as [mrs'' e'']. simpl in Hm'', He''.
  exists n1, m1, (Z.max 0 (fexp (Zdigits2 m1 + (ex + n1)) - (ex + n1))).
  split; [reflexivity|]. split; [rewrite <- Hm'; exact Hm1|]. split; [reflexivity|].
  rewrite <- He', <- Hm'', <- He''. reflexivity.
Qed.

(** The product of a normal positive float and [1 - 0.001] is below it. *)
Lemma SFmul_lower mx ex :
  Zdigits2 (Z.pos mx) = 53 -> -1074 <= ex <= emax - prec ->
  let r := SFmul prec emax (S754_finite false mx ex)
             (S754_finite false 8998192055486251 (-53)) in
  SFis_nan r = false /\ lex_lt (SFkey r) (1, ex, Z.pos mx).
Proof.
  intros D [El Eu]. cbn [SFmul xorb]. rewrite Pos2Z.inj_mul.
  pose proof (Zdigits2_bounds (Z.pos mx) eq_refl) as [L U]. rewrite D in L, U.
  change (2 ^ (53 - 1)) with 4503599627370496 in L.
  change (2 ^ 53) with 9007199254740992 in U.
  change (emax - prec) with 971 in *.
  set (P := Z.pos mx * Z.pos 8998192055486251).
  assert (HP : 2 ^ 104 <= P < 2 ^ 106).
  { subst P. change (2 ^ 104) with 20282409603651670423947251286016.
    change (2 ^ 106) with 81129638414606681695789005144064. lia. }
  assert (Dlo : 104 < Zdigits2 P) by (apply Zdigits2_above; lia).
  assert (Dhi : Zdigits2 P <= 106) by (apply Zdigits2_below; lia).
  destruct (binary_round_aux_eq false P (ex + -53) loc_Exact ltac:(lia))
    as (n1 & m1 & n2 & Hn1 & Hm1 & Hn2 & ->).
  change (emax - prec) with 971. rewrite fexp_eq in Hn1, Hn2.
  assert (C1 : n1 = 53 \/ (n1 = 52 /\ Zdigits2 P = 105 /\ -1073 <= ex)) by lia.
  clear Hn1. destruct C1 as [N1|(N1 & D105 & E1)]; subst n1.
  - (* the exponent stays, the mantissa is smaller *)
    change (2 ^ 53) with 9007199254740992 in Hm1.
    assert (Q : 0 <= P / 9007199254740992 <= Z.pos mx - 2).
    { split; [apply Z.div_pos; lia|]. apply Z.lt_succ_r.
      apply Z.div_lt_upper_bound; [lia|]. subst P. lia. }
    assert (M : 0 <= m1 < Z.pos mx) by lia.
    assert (D1 : Zdigits2 m1 <= 53).
    { apply Zdigits2_below; [lia|]. change (2 ^ 53) with 9007199254740992. lia. }
    assert (N2 : n2 = 0) by lia. clear Hn2. subst n2.
    change (2 ^ 0) with 1. rewrite Z.div_1_r.
    destruct m1 as [|m|m]; try lia.
    + split; [reflexivity|]. simpl. lia.
    + destruct (Z.leb_spec (ex + -53 + 53 + 0) 971); [|lia].
      split; [reflexivity|]. simpl. lia.
  - (* the exponent is one less, unless the mantissa is rounded to 2^53 *)
    change (2 ^ 52) with 4503599627370496 in Hm1.
    assert (HP' : P < 2 ^ 105).
    { pose proof (Zdigits2_bounds P ltac:(lia)) as [_ B]. rewrite D105 in B. exact B. }
    change (2 ^ 105) with 40564819207303340847894502572032 in HP'.
    assert (Q : 0 <= P / 4503599627370496 < 9007199254740992).
    { split; [apply Z.div_pos; lia|]. apply Z.div_lt_upper_bound; lia. }
    destruct (Z.eqb_spec m1 9007199254740992) as [T|T].
    + assert (D1 : Zdigits2 m1 = 54) by (rewrite T; reflexivity).
      assert (N2 : n2 = 1) by lia. clear Hn2. subst n2 m1.
      change (9007199254740992 / 2 ^ 1) with (Z.pos 4503599627370496).
      cbv iota.
      destruct (Z.leb_spec (ex + -53 + 52 + 1) 971); [|lia].
      split; [reflexivity|]. simpl.
      assert (4503599627370496 < Z.pos mx); [|lia].
      assert (9007199254740991 <= P / 4503599627370496) by lia.
      assert (9007199254740991 * 4503599627370496 <= P).
      { pose proof (Z.mul_div_le P 4503599627370496 ltac:(lia)). lia. }
      subst P. lia.
    + assert (M : 0 <= m1 < 9007199254740992) by lia.
      assert (D1 : Zdigits2 m1 <= 53).
      { apply Zdigits2_below; [lia|]. change (2 ^ 53) with 9007199254740992. lia. }
      assert (N2 : n2 = 0) by lia. clear Hn2. subst n2.
      change (2 ^ 0) with 1. rewrite Z.div_1_r.
      destruct m1 as [|m|m]; try lia.
      * split; [reflexivity|]. simpl. lia.
      * destruct (Z.leb_spec (ex + -53 + 52 + 0) 971); [|lia].
        split; [reflexivity|]. simpl. lia.
Qed.

(** The product of a normal positive float and [1 + 0.001] is not below
    it. *)
Lemma SFmul_upper mx ex :
  Zdigits2 (Z.pos mx) = 53 -> -1074 <= ex <= emax - prec ->
  let r := SFmul prec emax (S754_finite false mx ex)
             (S754_finite false 4508103226997866 (-52)) in
  SFis_nan r = false /\ ~ lex_lt (SFkey r) (1, ex, Z.pos mx).
Proof.
  intros D [El Eu]. cbn [SFmul xorb]. rewrite Pos2Z.inj_mul.
  pose proof (Zdigits2_bounds (Z.pos mx) eq_refl) as [L U]. rewrite D in L, U.
  change (2 ^ (53 - 1)) with 4503599627370496 in L.
  change (2 ^ 53) with 9007199254740992 in U.
  change (emax - prec) with 971 in *.
  set (P := Z.pos mx * Z.pos 4508103226997866).
  assert (HP : 2 ^ 104 <= P < 2 ^ 106).
  { subst P. change (2 ^ 104) with 20282409603651670423947251286016.
    change (2 ^ 106) with 81129638414606681695789005144064. lia. }
  assert (Dlo : 104 < Zdigits2 P) by (apply Zdigits2_above; lia).
  assert (Dhi : Zdigits2 P <= 106) by (apply Zdigits2_below; lia).
  pose proof (Zdigits2_bounds P ltac:(lia)) as [BL BU].
  destruct (binary_round_aux_eq false P (ex + -52) loc_Exact ltac:(lia))
    as (n1 & m1 & n2 & Hn1 & Hm1 & Hn2 & ->).
  change (emax - prec) with 971. rewrite fexp_eq in Hn1, Hn2.
  assert (C1 : (n1 = 52 /\ Zdigits2 P = 105) \/ (n1 = 53 /\ Zdigits2 P = 106)) by lia.
  clear Hn1. destruct C1 as [(N1 & DP)|(N1 & DP)]; subst n1; rewrite DP in BL, BU.
  - change (2 ^ 52) with 4503599627370496 in Hm1.
    change (2 ^ 105) with 40564819207303340847894502572032 in BU.
    assert (Q : Z.pos mx <= P / 4503599627370496 < 9007199254740992).
    { split; [apply Z.div_le_lower_bound; subst P; lia|].
      apply Z.div_lt_upper_bound; lia. }
    destruct (Z.eqb_spec m1 9007199254740992) as [T|T].
    + assert (D1 : Zdigits2 m1 = 54) by (rewrite T; reflexivity).
      assert (N2 : n2 = 1) by lia. clear Hn2. subst n2 m1.
      change (9007199254740992 / 2 ^ 1) with (Z.pos 4503599627370496).
      cbv iota.
      destruct (Z.leb_spec (ex + -52 + 52 + 1) 971); (split; [reflexivity|]); simpl; lia.
    + assert (M : Z.pos mx <= m1 < 9007199254740992) by lia.
      assert (D1 : Zdigits2 m1 = 53).
      { apply Zdigits2_unique; [lia|]. change (2 ^ (53 - 1)) with 4503599627370496.
        change (2 ^ 53) with 9007199254740992. lia. }
      assert (N2 : n2 = 0) by lia. clear Hn2. subst n2.
      change (2 ^ 0) with 1. rewrite Z.div_1_r.
      destruct m1 as [|m|m]; try lia.
      destruct (Z.leb_spec (ex + -52 + 52 + 0) 971); [|lia].
      split; [reflexivity|]. simpl. lia.
  - change (2 ^ 53) with 9007199254740992 in Hm1.
    change (2 ^ (106 - 1)) with 40564819207303340847894502572032 in BL.
    change (2 ^ 106) with 81129638414606681695789005144064 in BU.
    assert (Q : 4503599627370496 <= P / 9007199254740992 < 9007199254740992).
    { split; [apply Z.div_le_lower_bound; lia|]. apply Z.div_lt_upper_bound; lia. }
    destruct (Z.eqb_spec m1 9007199254740992) as [T|T].
    + assert (D1 : Zdigits2 m1 = 54) by (rewrite T; reflexivity).
      assert (N2 : n2 = 1) by lia. clear Hn2. subst n2 m1.
      change (9007199254740992 / 2 ^ 1) with (Z.pos 4503599627370496).
      cbv iota.
      destruct (Z.leb_spec (ex + -52 + 53 + 1) 971); (split; [reflexivity|]); simpl; lia.
    + assert (M : 4503599627370496 <= m1 < 9007199254740992) by lia.
      assert (D1 : Zdigits2 m1 = 53).
      { apply Zdigits2_unique; [lia|]. change (2 ^ (53 - 1)) with 4503599627370496.
        change (2 ^ 53) with 9007199254740992. lia. }
      assert (N2 : n2 = 0) by lia. clear Hn2. subst n2.
      change (2 ^ 0) with 1. rewrite Z.div_1_r.
      destruct m1 as [|m|m]; try lia.
      destruct (Z.leb_spec (ex + -52 + 53 + 0) 971); (split; [reflexivity|]); simpl; lia.
Qed.

(** ** Primitive floats *)

Lemma nonneg_cases x :
  nonneg x ->
  Prim2SF x = S754_zero false \/ Prim2SF x = S754_infinity false \/
  exists m e, Prim2SF x = S754_finite false m e.
Proof. exact (fun H => H). Qed.

Lemma is_infinity_spec x :
  is_infinity x = match Prim2SF x with S754_infinity _ => true | _ => false end.
Proof.
  unfold is_infinity. rewrite FloatAxioms.eqb_spec, abs_spec.
  change (Prim2SF infinity) with (S754_infinity false).
  destruct (Prim2SF x) as [[]|[]| |[] m e]; reflexivity.
Qed.

Lemma Z2float_spec n : Prim2SF (Z2float n) = binary_normalize prec emax n 0 false.
Proof. unfold Z2float. apply Prim2SF_SF2Prim. apply binary_normalize_valid. Qed.

Lemma Z2float_nonneg n : 0 <= n -> nonneg (Z2float n).
Proof.
  intros H. unfold nonneg. rewrite Z2float_spec. apply binary_normalize_nonneg. exact H.
Qed.

Lemma Z2float_finite n : 0 <= n <= mode_limit -> finite (Z2float n).
Proof.
  intros [H0 H1]. unfold finite. rewrite Z2float_spec.
  destruct n as [|p|p]; try reflexivity; try lia.
  change (binary_normalize prec emax (Z.pos p) 0 false) with (binary_round prec emax false p 0).
  pose proof (binary_round_shape false p 0) as (_ & _ & I).
  destruct (binary_round_signed false p 0) as [E|[E|(m & e & E)]]; rewrite E in *;
    try reflexivity.
  specialize (I eq_refl). exfalso.
  assert (D : Zdigits2 (Z.pos p) <= 1001).
  { pose proof (Zdigits2_bounds (Z.pos p) eq_refl) as [L _].
    destruct (Z.leb_spec (Zdigits2 (Z.pos p)) 1001) as [|G]; [assumption|].
    assert (2 ^ 1001 <= 2 ^ (Zdigits2 (Z.pos p) - 1)) by (apply Z.pow_le_mono_r; lia).
    assert (mode_limit < 2 ^ 1001) by reflexivity. lia. }
  rewrite fexp_eq in I. change (emax - prec) with 971 in I. lia.
Qed.

Lemma float_of_int_ok n :
  0 <= n <= mode_limit ->
  float_of_int n = Ok (Z2float n) /\ nonneg (Z2float n) /\ finite (Z2float n).
Proof.
  intros H. pose proof (Z2float_finite n H) as F. pose proof (Z2float_nonneg n (proj1 H)) as N.
  split; [|auto]. unfold float_of_int. rewrite is_infinity_spec.
  unfold finite in F. destruct (Prim2SF (Z2float n)); try discriminate; reflexivity.
Qed.

Lemma float_of_int_nonneg n x : 0 <= n -> float_of_int n = Ok x -> nonneg x /\ finite x.
Proof.
  intros H. unfold float_of_int. rewrite is_infinity_spec.
  pose proof (Z2float_nonneg n H) as N. unfold finite.
  destruct N as [E|[E|(m & e & E)]]; unfold nonneg, SFnonneg, SFsigned; rewrite E;
    try discriminate; intros [= <-]; rewrite E; split; eauto.
Qed.

(** Every comb wavelength is [+0], positive or [+inf]. *)
Lemma true_wavel_nonneg n w : 0 <= n -> true_wavel n = Ok w -> nonneg w.
Proof.
  intros H. unfold true_wavel.
  destruct (float_of_int n) as [nf| |] eqn:E; try discriminate. simpl.
  intros [= <-]. destruct (float_of_int_nonneg n nf H E) as [N _].
  unfold nonneg. rewrite mul_spec.
  eapply SFmul_nonneg; [|vm_compute; reflexivity].
  rewrite div_spec. eapply SFdiv_nonneg; [rewrite Z2float_spec; vm_compute; reflexivity|].
  rewrite add_spec. eapply SFadd_nonneg; [|vm_compute; reflexivity].
  rewrite mul_spec. eapply SFmul_nonneg_l; [vm_compute; reflexivity|]. exact N.
Qed.

Lemma true_wavel_ok n : 0 <= n <= mode_limit -> exists w, true_wavel n = Ok w /\ nonneg w.
Proof.
  intros H. destruct (float_of_int_ok n H) as (E & _).
  assert (exists w, true_wavel n = Ok w) as [w Hw].
  { unfold true_wavel. rewrite E. simpl. eauto. }
  exists w. split; [assumption|]. eapply true_wavel_nonneg; [apply H|eassumption].
Qed.

Lemma true_wavel_limit : true_wavel mode_limit = Ok 0%float.
Proof. vm_compute. reflexivity. Qed.

(** More on the order *)
Lemma ltb_le_lt_trans x y z :
  (y <? x)%float = false -> is_nan x = false ->
  (y <? z)%float = true -> (x <? z)%float = true.
Proof.
  rewrite ltb_false_iff, !ltb_true_iff. intros [A|[A|A]] B (C & D & E); try congruence.
  repeat split; auto. lex_lia.
Qed.

Lemma ltb_nan_l x y : is_nan x = true -> (x <? y)%float = false.
Proof. intros H. apply ltb_false_iff. auto. Qed.

Lemma ltb_nan_r x y : is_nan y = true -> (x <? y)%float = false.
Proof. intros H. apply ltb_false_iff. auto. Qed.

Lemma eqb_refl x : is_nan x = false -> (x =? x)%float = true.
Proof. intros H. apply eqb_true_iff. auto. Qed.

Lemma ltb_eqb_false x y : (x <? y)%float = true -> (y =? x)%float = false.
Proof.
  intros H. apply (proj1 (ltb_true_iff _ _)) in H. destruct H as (A & B & C).
  destruct (y =? x)%float eqn:E; [|reflexivity].
  apply (proj1 (eqb_true_iff _ _)) in E. destruct E as (_ & _ & E).
  rewrite E in C. exfalso. lex_lia.
Qed.

(** * Facts on the functions of the module *)

(** ** Python's [min] with a key *)
Section PyMin.
Variable key : float -> float.

Lemma py_min_from_nan best rest :
  is_nan (key best) = true -> py_min_from key best rest = best.
Proof.
  intros H. induction rest as [|x rest IH]; simpl; [reflexivity|].
  rewrite ltb_nan_r by assumption. exact IH.
Qed.

(** On keys that are not NaN, the item returned is the first one with the
    least key: no item has a smaller key and every item before it has a
    larger one. *)
Lemma py_min_from_first best rest :
  (forall x, In x (best :: rest) -> is_nan (key x) = false) ->
  exists l1 l2,
    best :: rest = l1 ++ py_min_from key best rest :: l2 /\
    (forall x, In x (best :: rest) -> (key x <? key (py_min_from key best rest))%float = false) /\
    (forall y, In y l1 -> (key (py_min_from key best rest) <? key y)%float = true).
Proof.
  revert best. induction rest as [|x rest IH]; intros best H.
  - exists [], []. simpl. split; [reflexivity|]. split.
    + intros x [<-|[]]. apply ltb_irrefl.
    + intros y [].
  - simpl py_min_from. destruct (key x <? key best)%float eqn:E.
    + destruct (IH x) as (l1 & l2 & E1 & M & F).
      { intros z Hz. apply H. right. exact Hz. }
      set (r := py_min_from key x rest) in *.
      exists (best :: l1), l2. split; [simpl; rewrite E1; reflexivity|]. split.
      * intros z [<-|Hz]; [|apply M; exact Hz].
        destruct (key best <? key r)%float eqn:G; [|reflexivity].
        assert (K : (key x <? key r)%float = true) by (eapply ltb_trans; eassumption).
        rewrite M in K by (left; reflexivity). discriminate.
      * intros y [<-|Hy]; [|apply F; exact Hy].
        eapply ltb_le_lt_trans; [apply (M x); left; reflexivity| |exact E].
        apply H. right. rewrite E1. apply in_or_app. right. left. reflexivity.
    + destruct (IH best) as (l1 & l2 & E1 & M & F).
      { intros z [<-|Hz]; apply H; [left; reflexivity|right; right; exact Hz]. }
      set (r := py_min_from key best rest) in *.
      destruct l1 as [|b l1].
      * (* the best item so far stays *)
        simpl in E1. injection E1 as Eb El.
        exists [], (x :: l2). split; [simpl; rewrite <- Eb, El; reflexivity|]. split.
        -- intros z [<-|[<-|Hz]].
           ++ rewrite <- Eb. apply ltb_irrefl.
           ++ rewrite <- Eb. exact E.
           ++ apply M. right. exact Hz.
        -- intros y [].
      * simpl in E1. injection E1 as Eb El. subst b.
        exists (best :: x :: l1), l2. split; [simpl; rewrite El; reflexivity|]. split.
        -- intros z [<-|[<-|Hz]].
           ++ apply M. left. reflexivity.
           ++ apply (ltb_not_lt_trans _ (key best));
                [apply M; left; reflexivity | exact E | apply H; left; reflexivity].
           ++ apply M. right. exact Hz.
        -- intros y [<-|[<-|Hy]].
           ++ apply F. left. reflexivity.
           ++ apply (ltb_neg_trans _ (key best));
                [apply F; left; reflexivity | exact E | apply H; right; left; reflexivity].
           ++ apply F. right. exact Hy.
Qed.
End PyMin.

(** ** Residuals *)

Lemma finite_not_nan x : finite x -> is_nan x = false.
Proof. unfold finite. rewrite is_nan_spec. destruct (Prim2SF x); simpl; congruence. Qed.

Lemma SFsub_nan_r x : SFsub prec emax x S754_nan = S754_nan.
Proof. destruct x; reflexivity. Qed.

(** The residual [abs (x - l)] of a finite [x] is a NaN exactly when [l] is. *)
Lemma residual_nan x l : finite x -> is_nan (abs (x - l)) = is_nan l.
Proof.
  unfold finite. intros F. rewrite !is_nan_spec, abs_spec, sub_spec.
  destruct (Prim2SF l) as [s| s| |s m e] eqn:L.
  - pose proof (SFsub_finite_not_nan (Prim2SF x) (S754_zero s) F eq_refl) as N.
    unfold SF64sub. destruct (SFsub prec emax (Prim2SF x) (S754_zero s)); simpl; congruence.
  - destruct (Prim2SF x); try discriminate; reflexivity.
  - unfold SF64sub. rewrite SFsub_nan_r. reflexivity.
  - pose proof (SFsub_finite_not_nan (Prim2SF x) (S754_finite s m e) F eq_refl) as N.
    unfold SF64sub. destruct (SFsub prec emax (Prim2SF x) (S754_finite s m e)); simpl; congruence.
Qed.

Lemma eqb_finite_r x l : finite x -> (x =? l)%float = true -> finite l.
Proof.
  unfold finite. rewrite FloatAxioms.eqb_spec. unfold SFeqb.
  destruct (Prim2SF x) as [[]|[]| |[] ? ?], (Prim2SF l) as [[]|[]| |[] ? ?];
    simpl; congruence.
Qed.

(** Equal finite floats have residual [+0]. *)
Lemma residual_zero x l : finite x -> (x =? l)%float = true -> abs (x - l) = 0%float.
Proof.
  intros F E. pose proof (eqb_finite_r x l F E) as Fl.
  apply Prim2SF_inj. rewrite abs_spec, sub_spec.
  change (Prim2SF 0) with (S754_zero false).
  apply SFsub_eq_zero; try assumption.
  rewrite FloatAxioms.eqb_spec in E. unfold SFeqb in E.
  destruct (SFcompare (Prim2SF x) (Prim2SF l)) as [[]|]; congruence.
Qed.

(** A residual that is not above zero belongs to an equal float. *)
Lemma residual_zero_inv x l :
  finite x -> finite l -> (0 <? abs (x - l))%float = false -> (x =? l)%float = true.
Proof.
  intros Fx Fl H.
  rewrite FloatAxioms.ltb_spec, abs_spec, sub_spec in H.
  change (Prim2SF 0) with (S754_zero false) in H.
  rewrite FloatAxioms.eqb_spec. unfold SFeqb.
  pose proof (SFsub_finite_not_nan _ _ Fx Fl) as N.
  pose proof (SFsub_zero_eq (Prim2SF x) (Prim2SF l)) as Z.
  unfold SF64sub in H.
  destruct (SFsub prec emax (Prim2SF x) (Prim2SF l)) as [s|s| |s m e] eqn:S.
  - rewrite (Z s); auto using Prim2SF_valid.
  - simpl in H. discriminate.
  - congruence.
  - simpl in H. discriminate.
Qed.

Lemma nonneg_eqb_eq x y : nonneg x -> nonneg y -> (x =? y)%float = true -> x = y.
Proof.
  intros Nx Ny E. apply Prim2SF_inj.
  apply (proj1 (eqb_true_iff _ _)) in E. destruct E as (_ & _ & E). unfold fkey in E.
  destruct Nx as [X|[X|(mx & ex & X)]], Ny as [Y|[Y|(my & ey & Y)]]; rewrite X, Y in *;
    simpl in E; try discriminate; try reflexivity.
  injection E; intros; subst; reflexivity.
Qed.

(** ** Lists and loops *)

Lemma for_each_ok {A B : Type} (body : A -> outcome B) (l : list A) :
  (forall a, In a l -> exists b, body a = Ok b) ->
  exists res,
    for_each body l = Ok res /\ length res = length l /\
    forall i a, nth_error l i = Some a ->
                exists b, body a = Ok b /\ nth_error res i = Some b.
Proof.
  induction l as [|a l IH]; intros H.
  - exists []. repeat split. intros [|i] a E; discriminate.
  - destruct (H a (or_introl eq_refl)) as [b Hb].
    destruct IH as (res & E & L & N); [intros x Hx; apply H; right; exact Hx|].
    exists (b :: res). simpl. rewrite Hb. simpl. rewrite E. simpl.
    split; [reflexivity|]. split; [congruence|].
    intros [|i] x Hx; simpl in *.
    + injection Hx as <-. eauto.
    + apply N. exact Hx.
Qed.

Lemma for_each_length {A B : Type} (body : A -> outcome B) (l : list A) res :
  for_each body l = Ok res -> length res = length l.
Proof.
  revert res. induction l as [|a l IH]; simpl; intros res.
  - intros [= <-]. reflexivity.
  - destruct (body a); simpl; try discriminate.
    destruct (for_each body l); simpl; try discriminate.
    intros [= <-]. simpl. f_equal. apply IH. reflexivity.
Qed.

Lemma for_each_nth {A B : Type} (body : A -> outcome B) (l : list A) res :
  for_each body l = Ok res ->
  forall i a, nth_error l i = Some a -> exists b, body a = Ok b /\ nth_error res i = Some b.
Proof.
  revert res. induction l as [|a l IH]; simpl; intros res.
  - intros _ [|i] a E; discriminate.
  - destruct (body a) as [b| |] eqn:Hb; simpl; try discriminate.
    destruct (for_each body l) as [bs| |]; simpl; try discriminate.
    intros [= <-] [|i] x Hx; simpl in *.
    + injection Hx as <-. eauto.
    + eapply IH; [reflexivity|exact Hx].
Qed.

Lemma py_index_nth {A : Type} (a : list A) (i : nat) x :
  nth_error a i = Some x -> py_index a (Z.of_nat i) = Ok x.
Proof.
  intros H. unfold py_index.
  assert (L : (i < length a)%nat) by (apply nth_error_Some; congruence).
  destruct (Z.ltb_spec (Z.of_nat i) 0) as [?|_]; [lia|].
  destruct (Z.leb_spec 0 (Z.of_nat i)) as [_|?]; [|lia].
  destruct (Z.ltb_spec (Z.of_nat i) (Z.of_nat (length a))) as [_|?]; [|lia].
  simpl. rewrite Nat2Z.id, H. reflexivity.
Qed.

Lemma py_index_first {A : Type} (x : A) (l : list A) : py_index (x :: l) 0 = Ok x.
Proof. apply (py_index_nth (x :: l) 0). reflexivity. Qed.

Lemma last_default {A : Type} (l : list A) (z d d' : A) : last (z :: l) d = last (z :: l) d'.
Proof.
  revert z. induction l as [|y l IH]; intros z; [reflexivity|].
  change (last (y :: l) d = last (y :: l) d'). apply IH.
Qed.

Lemma nth_error_last {A : Type} (x : A) (l : list A) :
  nth_error (x :: l) (length l) = Some (last l x).
Proof.
  revert x. induction l as [|y l IH]; intros x; [reflexivity|].
  simpl length. simpl nth_error. rewrite IH. f_equal.
  destruct l as [|z l]; [reflexivity|].
  change (last (z :: l) y = last (z :: l) x). apply last_default.
Qed.

Lemma py_index_last {A : Type} (x : A) (l : list A) : py_index (x :: l) (-1) = Ok (last l x).
Proof.
  unfold py_index. cbv zeta.
  destruct (Z.ltb_spec (-1) 0) as [_|?]; [|lia].
  set (len := Z.of_nat (length (x :: l))).
  assert (Hl : len = Z.of_nat (length l) + 1) by (subst len; simpl length; lia).
  destruct (Z.leb_spec 0 (-1 + len)) as [_|?]; [|lia].
  destruct (Z.ltb_spec (-1 + len) len) as [_|?]; [|lia].
  simpl andb. cbv iota.
  replace (Z.to_nat (-1 + len)) with (length l) by lia.
  rewrite nth_error_last. reflexivity.
Qed.

Lemma first_index_from_app i v l1 l2 :
  (forall y, In y l1 -> (y =? v)%float = false) -> (v =? v)%float = true ->
  first_index_from i v (l1 ++ v :: l2) = Ok (i + length l1)%nat.
Proof.
  revert i. induction l1 as [|y l1 IH]; intros i H E; simpl.
  - rewrite E. f_equal. lia.
  - rewrite (H y) by (left; reflexivity).
    rewrite IH; [f_equal; lia| |exact E]. intros z Hz. apply H. right. exact Hz.
Qed.

(** ** The matching of one nominal wavelength *)

Lemma match_true_wavel_first cands lambd :
  cands <> [] -> (forall c, In c cands -> good_wavel (fst c)) ->
  exists l1 c l2,
    cands = l1 ++ c :: l2 /\
    match_true_wavel cands lambd = Ok c /\
    (forall x, In x cands ->
               (residual lambd (fst x) <? residual lambd (fst c))%float = false) /\
    (forall y, In y l1 ->
               (residual lambd (fst c) <? residual lambd (fst y))%float = true) /\
    (forall x, In x cands -> fst x = lambd -> fst c = lambd).
Proof.
  intros NE G. destruct cands as [|c0 cs]; [contradiction|]. clear NE.
  assert (K : forall w, In w (map fst (c0 :: cs)) ->
                        is_nan (residual lambd w) = is_nan lambd).
  { intros w Hw. apply in_map_iff in Hw. destruct Hw as (c & <- & Hc).
    apply residual_nan. apply G. exact Hc. }
  destruct (is_nan lambd) eqn:N.
  - (* every residual is a NaN: the first candidate is kept *)
    exists [], c0, cs. split; [reflexivity|].
    assert (M : py_min_from (residual lambd) (fst c0) (map fst cs) = fst c0)
      by (apply py_min_from_nan; apply K; left; reflexivity).
    split; [|split; [|split]].
    + unfold match_true_wavel. simpl map. simpl py_min. rewrite M. simpl bind.
      unfold first_index. simpl first_index_from.
      rewrite eqb_refl by (apply finite_not_nan, G; left; reflexivity). simpl bind.
      destruct c0; reflexivity.
    + intros x Hx. apply ltb_nan_l. apply K. apply in_map. exact Hx.
    + intros y [].
    + intros x Hx E. exfalso.
      pose proof (finite_not_nan (fst x) (proj2 (G x Hx))) as F. congruence.
  - destruct (py_min_from_first (residual lambd) (fst c0) (map fst cs)) as (l1 & l2 & E & M & F).
    { intros w Hw. apply (K w). exact Hw. }
    set (r := py_min_from (residual lambd) (fst c0) (map fst cs)) in *.
    change (fst c0 :: map fst cs) with (map fst (c0 :: cs)) in E, M.
    destruct (map_eq_app _ _ _ _ E) as (c1 & rest & Ec & E1 & E2).
    destruct (map_eq_cons _ _ E2) as (c & c2 & Er & Efc & E3).
    subst rest.
    assert (Hin : In c (c0 :: cs)) by (rewrite Ec; apply in_or_app; right; left; reflexivity).
    assert (Gc : good_wavel r) by (rewrite <- Efc; apply G; exact Hin).
    exists c1, c, c2. split; [exact Ec|]. split; [|split; [|split]].
    + unfold match_true_wavel.
      change (py_min (residual lambd) (map fst (c0 :: cs))) with (Ok r).
      cbn [bind]. rewrite E.
      unfold first_index. rewrite first_index_from_app.
      * cbn [bind]. rewrite Ec.
        rewrite (py_index_nth _ _ (snd c)).
        -- cbn [bind]. rewrite <- Efc. destruct c; reflexivity.
        -- rewrite map_app. simpl map. rewrite <- E1, length_map.
           rewrite nth_error_app2 by (rewrite length_map; lia).
           rewrite length_map, Nat.sub_diag. reflexivity.
      * intros y Hy. destruct (y =? r)%float eqn:Q; [|reflexivity]. exfalso.
        assert (Gy : good_wavel y).
        { rewrite <- E1 in Hy. apply in_map_iff in Hy. destruct Hy as (cy & <- & Hcy).
          apply G. rewrite Ec. apply in_or_app. left. exact Hcy. }
        apply nonneg_eqb_eq in Q; [|apply Gy|apply Gc]. subst y.
        specialize (F r Hy). rewrite ltb_irrefl in F. discriminate.
      * apply eqb_refl. apply finite_not_nan. apply Gc.
    + intros x Hx. rewrite Efc. apply M. apply in_map. exact Hx.
    + intros y Hy. rewrite Efc. apply F. rewrite <- E1. apply in_map. exact Hy.
    + intros x Hx Ex. rewrite Efc.
      assert (Z : residual lambd (fst x) = 0%float).
      { apply residual_zero; [apply G; exact Hx|]. rewrite Ex. apply eqb_refl. exact N. }
      specialize (M (fst x) (in_map fst _ _ Hx)). rewrite Z in M.
      assert (Fl : finite lambd) by (rewrite <- Ex; apply G; exact Hx).
      apply residual_zero_inv in M; [|apply Gc|exact Fl].
      apply nonneg_eqb_eq; [apply Gc| |exact M].
      rewrite <- Ex. apply G. exact Hx.
Qed.

(** ** The generation loop *)

Lemma last_wavel_snoc acc x : last_wavel (acc ++ [x]) = fst x.
Proof. unfold last_wavel. rewrite last_last. reflexivity. Qed.

Lemma gen_true_wavel_step fuel wmin acc n :
  gen_true_wavel fuel wmin acc n =
  if (lower_cut wmin <? last_wavel acc)%float
  then match fuel with
       | O => OutOfFuel
       | S fuel' =>
           w <- true_wavel (n + 1) ;;
           gen_true_wavel fuel' wmin (acc ++ [(w, n + 1)]) (n + 1)
       end
  else Ok acc.
Proof. destruct fuel; reflexivity. Qed.

(** What the loop returns extends the list it started from; its
    wavelengths are not negative and the last one is not above the lower
    cut. *)
Lemma gen_true_wavel_result fuel wmin : forall acc n res,
  0 <= n -> (forall row, In row acc -> nonneg (fst row)) ->
  gen_true_wavel fuel wmin acc n = Ok res ->
  (forall row, In row res -> nonneg (fst row)) /\
  (lower_cut wmin <? last_wavel res)%float = false /\
  exists ext, res = acc ++ ext.
Proof.
  induction fuel as [|fuel IH]; intros acc n res Hn Hacc; rewrite gen_true_wavel_step;
    destruct (lower_cut wmin <? last_wavel acc)%float eqn:C; try discriminate.
  - intros [= <-]. split; [exact Hacc|]. split; [exact C|]. exists []. symmetry. apply app_nil_r.
  - destruct (true_wavel (n + 1)) as [w| |] eqn:W; try discriminate. cbn [bind].
    intros G. apply IH in G; [|lia|].
    + destruct G as (A & B & ext & E). split; [exact A|]. split; [exact B|].
      exists ((w, n + 1) :: ext). rewrite E, <- app_assoc. reflexivity.
    + intros row Hr. apply in_app_or in Hr. destruct Hr as [Hr|[<-|[]]]; [auto|].
      apply (true_wavel_nonneg (n + 1)); [lia|exact W].
  - intros [= <-]. split; [exact Hacc|]. split; [exact C|]. exists []. symmetry. apply app_nil_r.
Qed.

(** With a lower cut that is not negative the loop ends, at the latest at
    the mode whose frequency overflows. *)
Lemma gen_true_wavel_terminates wmin :
  (lower_cut wmin <? 0)%float = false ->
  forall (k : nat) acc n,
    0 <= n -> n + Z.of_nat k = mode_limit -> true_wavel n = Ok (last_wavel acc) ->
    exists fuel0, forall fuel, (fuel0 <= fuel)%nat ->
                               exists res, gen_true_wavel fuel wmin acc n = Ok res.
Proof.
  intros L. induction k as [|k IH]; intros acc n Hn Hk Hw.
  - exists 0%nat. intros fuel _. rewrite gen_true_wavel_step.
    replace n with mode_limit in Hw by lia. rewrite true_wavel_limit in Hw.
    injection Hw as <-. rewrite L. eauto.
  - destruct (lower_cut wmin <? last_wavel acc)%float eqn:C.
    + destruct (true_wavel_ok (n + 1)) as (w & W & _); [lia|].
      destruct (IH (acc ++ [(w, n + 1)]) (n + 1)) as (fuel0 & F); [lia|lia| |].
      { rewrite last_wavel_snoc. exact W. }
      exists (S fuel0). intros [|fuel] Hf; [lia|].
      rewrite gen_true_wavel_step, C, W. cbn [bind]. apply F. lia.
    + exists 0%nat. intros fuel _. rewrite gen_true_wavel_step, C. eauto.
Qed.

(** ** The candidates *)

Lemma ltb_infinity_l x y : Prim2SF x = S754_infinity false -> (x <? y)%float = false.
Proof.
  intros H. rewrite FloatAxioms.ltb_spec, H. unfold SFltb.
  destruct (Prim2SF y) as [[]|[]| |[] m e]; reflexivity.
Qed.

Lemma nonneg_below_finite x y : nonneg x -> (x <? y)%float = true -> good_wavel x.
Proof.
  intros N L. split; [exact N|]. unfold finite.
  destruct N as [E|[E|(m & e & E)]]; rewrite E; try reflexivity.
  rewrite (ltb_infinity_l x y E) in L. discriminate.
Qed.

Lemma cut_and_reverse_In wmax gen c :
  In c (cut_and_reverse wmax gen) <->
  exists row, In row gen /\ c = (fst row, Z2float (snd row)) /\
              (fst row <? upper_cut wmax)%float = true.
Proof.
  unfold cut_and_reverse. rewrite <- in_rev, filter_In, in_map_iff. split.
  - intros ((row & <- & Hr) & L). exists row. auto.
  - intros (row & Hr & -> & L). split; [exists row; auto|exact L].
Qed.

Lemma cut_and_reverse_good wmax gen :
  (forall row, In row gen -> nonneg (fst row)) ->
  forall c, In c (cut_and_reverse wmax gen) -> good_wavel (fst c).
Proof.
  intros H c Hc. apply cut_and_reverse_In in Hc. destruct Hc as (row & Hr & -> & L).
  simpl. eapply nonneg_below_finite; [apply H; exact Hr|exact L].
Qed.

Lemma true_wavel_0_1 :
  true_wavel 0 = Ok 484317379.64458805%float /\ true_wavel 1 = Ok 148485615.65131253%float.
Proof. split; vm_compute; reflexivity. Qed.

Ltac inv_bind H :=
  match type of H with
  | bind ?m _ = Ok _ =>
      let E := fresh "E" in
      let v := fresh "v" in
      destruct m as [v| |] eqn:E; cbn [bind] in H; [|discriminate H|discriminate H]
  end.

(** What [true_wavel_candidates] returns, when it returns. *)
Lemma true_wavel_candidates_inv fuel wavel_given cands :
  true_wavel_candidates fuel wavel_given = Ok cands ->
  exists wmin wmax w0 w1 gen,
    py_index wavel_given 0 = Ok wmin /\ py_index wavel_given (-1) = Ok wmax /\
    true_wavel 0 = Ok w0 /\ true_wavel 1 = Ok w1 /\
    gen_true_wavel fuel wmin [(w0, 0); (w1, 1)] 1 = Ok gen /\
    cands = cut_and_reverse wmax gen.
Proof.
  unfold true_wavel_candidates. intros H.
  inv_bind H. inv_bind H. inv_bind H. inv_bind H. inv_bind H.
  injection H as <-. repeat eexists; eauto.
Qed.

Lemma true_wavel_candidates_good fuel wavel_given cands :
  true_wavel_candidates fuel wavel_given = Ok cands ->
  forall c, In c cands -> good_wavel (fst c).
Proof.
  intros H. apply true_wavel_candidates_inv in H.
  destruct H as (wmin & wmax & w0 & w1 & gen & _ & _ & H0 & H1 & G & ->).
  apply cut_and_reverse_good.
  apply gen_true_wavel_result in G; [apply G|lia|].
  intros row [<-|[<-|[]]]; simpl.
  - apply (true_wavel_nonneg 0); [lia|exact H0].
  - apply (true_wavel_nonneg 1); [lia|exact H1].
Qed.

(** With a lower cut that is not negative and below the upper cut, enough
    fuel yields candidates, and at least one. *)
Lemma true_wavel_candidates_total first rest :
  (lower_cut first <? 0)%float = false ->
  (lower_cut first <? upper_cut (last rest first))%float = true ->
  exists fuel0, forall fuel, (fuel0 <= fuel)%nat ->
    exists cands, true_wavel_candidates fuel (first :: rest) = Ok cands /\ cands <> [].
Proof.
  intros L U. destruct true_wavel_0_1 as [H0 H1].
  destruct (gen_true_wavel_terminates first L (Z.to_nat (mode_limit - 1))
              [(484317379.64458805%float, 0); (148485615.65131253%float, 1)] 1)
    as (fuel0 & F); [lia| |exact H1|].
  { assert (1 <= mode_limit) by (vm_compute; discriminate). lia. }
  exists fuel0. intros fuel Hf. destruct (F fuel Hf) as (gen & G).
  exists (cut_and_reverse (last rest first) gen). split.
  - unfold true_wavel_candidates.
    rewrite py_index_first, py_index_last, H0, H1. cbn [bind]. rewrite G. reflexivity.
  - apply gen_true_wavel_result in G; [|lia|].
    2:{ intros row [<-|[<-|[]]]; simpl.
        - apply (true_wavel_nonneg 0); [lia|exact H0].
        - apply (true_wavel_nonneg 1); [lia|exact H1]. }
    destruct G as (N & C & ext & E).
    assert (NE : gen <> []) by (rewrite E; discriminate).
    destruct (exists_last NE) as (gen' & row & ->).
    rewrite last_wavel_snoc in C.
    assert (In (fst row, Z2float (snd row)) (cut_and_reverse (last rest first) (gen' ++ [row]))).
    { apply cut_and_reverse_In. exists row. split; [apply in_or_app; right; left; reflexivity|].
      split; [reflexivity|]. eapply ltb_le_lt_trans; [exact C| |exact U].
      apply nonneg_not_nan. apply N. apply in_or_app. right. left. reflexivity. }
    intros Z. rewrite Z in H. exact H.
Qed.

Lemma mode_rows_snoc l w :
  mode_rows l -> true_wavel (Z.of_nat (length l)) = Ok w ->
  mode_rows (l ++ [(w, Z.of_nat (length l))]).
Proof.
  intros H W i w' m E.
  destruct (Nat.lt_ge_cases i (length l)) as [L|L].
  - rewrite nth_error_app1 in E by exact L. apply H. exact E.
  - rewrite nth_error_app2 in E by exact L.
    destruct (i - length l)%nat as [|j] eqn:J; simpl in E.
    + injection E as <- <-. assert (i = length l) by lia. subst i. auto.
    + destruct j; discriminate.
Qed.

Lemma gen_true_wavel_modes fuel wmin : forall acc n res,
  mode_rows acc -> Z.of_nat (length acc) = n + 1 ->
  gen_true_wavel fuel wmin acc n = Ok res -> mode_rows res.
Proof.
  induction fuel as [|fuel IH]; intros acc n res Hacc Hn; rewrite gen_true_wavel_step;
    destruct (lower_cut wmin <? last_wavel acc)%float; try discriminate;
    try (intros [= <-]; exact Hacc).
  destruct (true_wavel (n + 1)) as [w| |] eqn:W; try discriminate. cbn [bind].
  apply IH.
  - rewrite <- Hn. apply mode_rows_snoc; [exact Hacc|]. rewrite Hn. exact W.
  - rewrite length_app. simpl length. lia.
Qed.

(** The candidates are rows of the generated list, which holds the modes
    0, 1, 2, ... in order. *)
Lemma true_wavel_candidates_modes fuel wavel_given cands :
  true_wavel_candidates fuel wavel_given = Ok cands ->
  exists generated wavel_given_max,
    mode_rows generated /\ cands = cut_and_reverse wavel_given_max generated.
Proof.
  intros H. apply true_wavel_candidates_inv in H.
  destruct H as (wmin & wmax & w0 & w1 & gen & _ & _ & H0 & H1 & G & ->).
  exists gen, wmax. split; [|reflexivity].
  eapply gen_true_wavel_modes; [| |exact G]; [|reflexivity].
  intros [|[|[|j]]] w m E; simpl in E; try discriminate; injection E as <- <-; auto.
Qed.

(** ** The two cuts *)

(** A float that is not below the least normal float [2^-1022] is [+inf] or
    a finite float with a mantissa of 53 bits. *)
Lemma normal_cases x :
  (0x1p-1022 <=? x)%float = true ->
  Prim2SF x = S754_infinity false \/
  exists m e, Prim2SF x = S754_finite false m e /\
              Zdigits2 (Z.pos m) = 53 /\ -1074 <= e <= emax - prec.
Proof.
  intros H. apply (proj1 (leb_true_iff _ _)) in H. destruct H as (_ & N & K).
  rewrite is_nan_spec in N. unfold fkey in K.
  change (Prim2SF 0x1p-1022) with (S754_finite false 4503599627370496 (-1074)) in K.
  pose proof (Prim2SF_valid x) as V.
  destruct (Prim2SF x) as [[]|[]| |[] m e]; simpl in K, N; try discriminate;
    try (exfalso; destruct K as [K|K]; [lia|discriminate]); auto.
  right. exists m, e. split; [reflexivity|].
  simpl in V. unfold bounded, canonical_mantissa in V.
  apply andb_true_iff in V. destruct V as [C B].
  apply Z.eqb_eq in C. apply Z.leb_le in B.
  change (Z.pos (digits2_pos m)) with (Zdigits2 (Z.pos m)) in C. rewrite fexp_eq in C.
  assert (E : -1074 < e \/ (e = -1074 /\ 4503599627370496 <= Z.pos m)).
  { destruct K as [K|K]; [lia|]. injection K as <- <-. lia. }
  split; [|lia]. destruct E as [E|[E M]]; [lia|].
  assert (52 < Zdigits2 (Z.pos m)).
  { apply Zdigits2_above; [lia|]. change (2 ^ 52) with 4503599627370496. exact M. }
  lia.
Qed.

Lemma lower_cut_nonneg x : nonneg x -> nonneg (lower_cut x).
Proof.
  intros N. unfold nonneg, lower_cut. rewrite mul_spec.
  change (Prim2SF (1 - 0.001)) with (S754_finite false 8998192055486251 (-53)).
  eapply SFmul_nonneg; [exact N|reflexivity].
Qed.

Lemma nonneg_not_below_zero x : nonneg x -> (x <? 0)%float = false.
Proof.
  intros N. apply ltb_false_iff. right; right. unfold fkey.
  change (Prim2SF 0) with (S754_zero false).
  destruct N as [E|[E|(m & e & E)]]; rewrite E; simpl; lia.
Qed.

(** The lower cut of a normal float is below it. *)
Lemma lower_cut_below x :
  (0x1p-1022 <=? x)%float = true -> (x <? infinity)%float = true ->
  (lower_cut x <? x)%float = true.
Proof.
  intros N F. destruct (normal_cases x N) as [I|(m & e & E & D & B)].
  - rewrite (ltb_infinity_l x infinity I) in F. discriminate.
  - pose proof (SFmul_lower m e D B) as [A L]. cbv zeta in A, L.
    apply ltb_true_iff. rewrite !is_nan_spec. unfold fkey, lower_cut.
    rewrite mul_spec, E.
    change (Prim2SF (1 - 0.001)) with (S754_finite false 8998192055486251 (-53)).
    split; [exact A|]. split; [reflexivity|]. exact L.
Qed.

(** The upper cut of a normal float is not below it. *)
Lemma upper_cut_above x :
  (0x1p-1022 <=? x)%float = true ->
  is_nan (upper_cut x) = false /\ ~ lex_lt (fkey (upper_cut x)) (fkey x).
Proof.
  intros N. rewrite is_nan_spec. unfold fkey, upper_cut. rewrite mul_spec.
  change (Prim2SF (1 + 0.001)) with (S754_finite false 4508103226997866 (-52)).
  destruct (normal_cases x N) as [I|(m & e & E & D & B)].
  - rewrite I. simpl. split; [reflexivity|lia].
  - rewrite E. exact (SFmul_upper m e D B).
Qed.

(** For nominal wavelengths that do not decrease from a normal first one,
    the lower cut is not negative and is below the upper cut. *)
Lemma cuts_ordered first last :
  (0x1p-1022 <=? first)%float = true -> (first <? infinity)%float = true ->
  (first <=? last)%float = true ->
  (lower_cut first <? 0)%float = false /\
  (lower_cut first <? upper_cut last)%float = true.
Proof.
  intros N F Le.
  assert (Nl : (0x1p-1022 <=? last)%float = true).
  { apply leb_true_iff. apply (proj1 (leb_true_iff _ _)) in N, Le.
    destruct N as (A & B & C), Le as (_ & D & E). split; [exact A|]. split; [exact D|].
    eapply lex_le_trans; eassumption. }
  split.
  - apply nonneg_not_below_zero. apply lower_cut_nonneg.
    destruct (normal_cases first N) as [I|(m & e & E & _)]; unfold nonneg; rewrite ?I, ?E.
    + right; left; reflexivity.
    + right; right; eauto.
  - pose proof (lower_cut_below first N F) as A.
    destruct (upper_cut_above last Nl) as [B C].
    apply (proj1 (ltb_true_iff _ _)) in A. destruct A as (A1 & A2 & A3).
    apply (proj1 (leb_true_iff _ _)) in Le. destruct Le as (_ & L2 & L3).
    apply ltb_true_iff. split; [exact A1|]. split; [exact B|].
    eapply lex_chain; eassumption.
Qed.

(** ** The whole matcher *)

Lemma get_true_wavel_unfold fuel data peaks wavel_given cands :
  np_take data peaks = Ok wavel_given ->
  true_wavel_candidates fuel wavel_given = Ok cands ->
  get_true_wavel fuel data peaks = for_each (match_true_wavel cands) wavel_given.
Proof. intros H1 H2. unfold get_true_wavel. rewrite H1. cbn [bind]. rewrite H2. reflexivity. Qed.

Lemma true_wavel_raises n e : true_wavel n = Raise e -> e = OverflowError.
Proof.
  unfold true_wavel, float_of_int. destruct (is_infinity (Z2float n)); cbn [bind].
  - intros [= <-]. reflexivity.
  - discriminate.
Qed.

Lemma true_wavel_fuel n : true_wavel n <> OutOfFuel.
Proof.
  unfold true_wavel, float_of_int. destruct (is_infinity (Z2float n)); cbn [bind]; discriminate.
Qed.

(** With a lower cut below every wavelength the loop never ends well. *)
Lemma gen_true_wavel_never wmin :
  (forall w, nonneg w -> (lower_cut wmin <? w)%float = true) ->
  forall fuel acc n,
    0 <= n -> nonneg (last_wavel acc) ->
    gen_true_wavel fuel wmin acc n = OutOfFuel \/
    gen_true_wavel fuel wmin acc n = Raise OverflowError.
Proof.
  intros L. induction fuel as [|fuel IH]; intros acc n Hn Hl; rewrite gen_true_wavel_step;
    rewrite (L _ Hl).
  - left; reflexivity.
  - destruct (true_wavel (n + 1)) as [w|e|] eqn:W; cbn [bind].
    + apply IH; [lia|]. rewrite last_wavel_snoc. apply (true_wavel_nonneg (n + 1)); [lia|exact W].
    + right. rewrite (true_wavel_raises _ _ W). reflexivity.
    + exfalso. exact (true_wavel_fuel _ W).
Qed.

Lemma negative_below_nonneg x w :
  (x <? 0)%float = true -> nonneg w -> (x <? w)%float = true.
Proof.
  rewrite !ltb_true_iff. intros (A & _ & B) N. split; [exact A|].
  split; [apply nonneg_not_nan; exact N|].
  unfold fkey in *. change (Prim2SF 0) with (S754_zero false) in B. simpl SFkey in B.
  destruct N as [E|[E|(m & e & E)]]; rewrite E; simpl SFkey;
    destruct (SFkey (Prim2SF x)) as [[a b] c]; unfold lex_lt in *; lia.
Qed.

(** ** Truncation *)

Lemma int_of_float_truncate x : finite x -> int_of_float x = Ok (truncate x).
Proof.
  unfold finite, int_of_float, truncate.
  destruct (Prim2SF x) as [s|s| |s m e]; try discriminate; intros _; [reflexivity|].
  f_equal. destruct (Z.ltb_spec e 0) as [L|L].
  - rewrite <- (Z.opp_involutive e) at 1. rewrite Z.shiftl_opp_r.
    rewrite Z.shiftr_div_pow2 by lia.
    assert (0 < 2 ^ (- e)) by (apply Z.pow_pos_nonneg; lia).
    destruct s; simpl cond_Zopp.
    + change (Z.neg m) with (- Z.pos m). rewrite Z.quot_opp_l by lia.
      rewrite Z.quot_div_nonneg by lia. reflexivity.
    + rewrite Z.quot_div_nonneg by lia. reflexivity.
  - rewrite Z.shiftl_mul_pow2 by lia. destruct s; unfold cond_Zopp; ring.
Qed.

Lemma int_of_float_not_finite x : ~ finite x -> exists e, int_of_float x = Raise e.
Proof.
  unfold finite, int_of_float. destruct (Prim2SF x); simpl; eauto; intros H; exfalso; auto.
Qed.

Lemma Z2float_not_nan n : is_nan (Z2float n) = false.
Proof.
  rewrite is_nan_spec, Z2float_spec. destruct n as [|p|p]; [reflexivity| |].
  - change (binary_normalize prec emax (Z.pos p) 0 false) with (binary_round prec emax false p 0).
    destruct (binary_round_signed false p 0) as [E|[E|(m & e & E)]]; rewrite E; reflexivity.
  - change (binary_normalize prec emax (Z.neg p) 0 false) with (binary_round prec emax true p 0).
    destruct (binary_round_signed true p 0) as [E|[E|(m & e & E)]]; rewrite E; reflexivity.
Qed.

(** An inferred size is used as the float of the integer it is. *)
Lemma get_peak_index_ranges_inferred peak_locs size :
  mean_peak_separation peak_locs = Ok size ->
  get_peak_index_ranges peak_locs nan = get_peak_index_ranges peak_locs (Z2float size).
Proof.
  intros E. unfold get_peak_index_ranges.
  change (is_nan nan) with true. cbv iota. rewrite E. cbn [bind].
  rewrite Z2float_not_nan. reflexivity.
Qed.

(** ** The matcher on a list of candidates that is not empty *)

Lemma np_take_length {A : Type} (a : list A) idx l :
  np_take a idx = Ok l -> length l = length idx.
Proof. apply for_each_length. Qed.

Lemma get_true_wavel_succeeds fuel data_wavel_given peak_locs wavel_given wavel_true :
  np_take data_wavel_given peak_locs = Ok wavel_given ->
  true_wavel_candidates fuel wavel_given = Ok wavel_true ->
  wavel_true <> [] ->
  exists matches,
    get_true_wavel fuel data_wavel_given peak_locs = Ok matches /\
    length matches = length wavel_given /\
    forall i lambd_given,
      nth_error wavel_given i = Some lambd_given ->
      exists c, match_true_wavel wavel_true lambd_given = Ok c /\
                nth_error matches i = Some c.
Proof.
  intros T C NE.
  pose proof (true_wavel_candidates_good _ _ _ C) as G.
  rewrite (get_true_wavel_unfold _ _ _ _ _ T C).
  apply for_each_ok. intros lambd _.
  destruct (match_true_wavel_first wavel_true lambd NE G) as (l1 & c & l2 & _ & M & _).
  exists c. exact M.
Qed.

(** ** Ranges *)

Lemma np_arange_length a b : Z.of_nat (length (np_arange a b)) = Z.max 0 (b - a).
Proof. unfold np_arange. rewrite length_map, length_seq. lia. Qed.

(** ** The calibration polynomials *)

Lemma zip_with_map {A B C D : Type} (op : B -> C -> D) (g : A -> B) (h : A -> C) l :
  zip_with op (map g l) (map h l) = map (fun v => op (g v) (h v)) l.
Proof. induction l as [|a l IH]; simpl; congruence. Qed.

Lemma broadcast_map op (g h : float -> float) l :
  broadcast op (map g l) (map h l) = Ok (map (fun v => op (g v) (h v)) l).
Proof. unfold broadcast. rewrite !length_map, Nat.eqb_refl, zip_with_map. reflexivity. Qed.

Lemma vop_scalar_pointwise op c g x :
  vop op (Ok (Scalar c)) (Ok (pointwise g x)) = Ok (pointwise (fun v => op c (g v)) x).
Proof. destruct x; simpl; try reflexivity. rewrite map_map. reflexivity. Qed.

Lemma vop_scalar_ok op c x :
  vop op (Ok (Scalar c)) (Ok x) = Ok (pointwise (op c) x).
Proof. destruct x; reflexivity. Qed.

Lemma vop_pointwise op g h x :
  vop op (Ok (pointwise g x)) (Ok (pointwise h x))
  = Ok (pointwise (fun v => op (g v) (h v)) x).
Proof.
  destruct x; simpl; try reflexivity. rewrite broadcast_map. reflexivity.
Qed.

Lemma for_each_numbers (f : py_function) par (g : float -> float) l :
  (forall v, In v l -> exists r, f (NpScalar v) par = Ok r /\ number_value r = Some (g v)) ->
  exists items,
    for_each (fun xi => f (NpScalar xi) par) l = Ok items /\
    np_array items = Ok (map g l).
Proof.
  induction l as [|a l IH]; intros H.
  - exists []. split; reflexivity.
  - destruct (H a (or_introl eq_refl)) as (r & Hr & Vr).
    destruct IH as (items & Hi & Ha); [intros v Hv; apply H; right; exact Hv|].
    exists (r :: items). split.
    + cbn [for_each]. rewrite Hr. cbn [bind]. rewrite Hi. reflexivity.
    + destruct r as [v|v|?]; simpl in Vr; try discriminate;
        injection Vr as ->; cbn [np_array map]; rewrite Ha; reflexivity.
Qed.

Lemma degree_cases degree :
  existsb (Z.eqb degree) (np_arange 1 10) = true <-> 1 <= degree <= 9.
Proof.
  split.
  - intros E. apply existsb_exists in E. destruct E as (k & Hk & E).
    apply Z.eqb_eq in E. subst k. simpl in Hk. intuition lia.
  - intros H. apply existsb_exists. exists degree. split; [|apply Z.eqb_refl].
    assert (D : degree = 1 \/ degree = 2 \/ degree = 3 \/ degree = 4 \/ degree = 5 \/
                degree = 6 \/ degree = 7 \/ degree = 8 \/ degree = 9) by lia.
    simpl. intuition auto.
Qed.

Ltac pointwise_poly :=
  repeat first [rewrite vop_scalar_pointwise | rewrite vop_pointwise | rewrite vop_scalar_ok].

Ltac degree_by_degree D :=
  destruct D as [D|[D|[D|[D|[D|[D|[D|[D|D]]]]]]]]; subst.

Section Polynomials.

Variable pow : float -> float -> float.
Variable libm_pow : float -> float -> float.

Local Abbreviation get_calib_poly_func := (get_calib_poly_func pow libm_pow).
Local Abbreviation vpow := (vpow pow libm_pow).
Local Abbreviation item_pow := (item_pow pow libm_pow).

Lemma vpow_numpy x k :
  (forall v, x <> Scalar v) ->
  vpow (Ok x) k = Ok (pointwise (fun v => item_pow x v k) x).
Proof. intros N. destruct x as [v|v|l]; [destruct (N v eq_refl)| |]; reflexivity. Qed.

Lemma vpow_float v k :
  vpow (Ok (Scalar v)) k
  = if is_finite v && is_infinity (libm_pow v k) then Raise OverflowError
    else Ok (pointwise (fun v => libm_pow v k) (Scalar v)).
Proof.
  unfold vpow, float_pow. cbn [bind].
  destruct (is_finite v && is_infinity (libm_pow v k)); reflexivity.
Qed.

Lemma get_calib_poly_func_cases degree f :
  get_calib_poly_func degree = Ok f ->
  degree = 1 \/ degree = 2 \/ degree = 3 \/ degree = 4 \/ degree = 5 \/
  degree = 6 \/ degree = 7 \/ degree = 8 \/ degree = 9.
Proof.
  unfold get_calib_poly_func. intros H.
  assert (D : 1 <= degree <= 9).
  { destruct (existsb (Z.eqb degree) (np_arange 1 10)) eqn:E; [|discriminate].
    apply degree_cases. exact E. }
  lia.
Qed.

(** Each calibration polynomial acts on every item of an array, and on a
    NumPy value. *)
Lemma get_calib_poly_func_numpy degree f par x :
  get_calib_poly_func degree = Ok f -> Z.of_nat (length par) = degree + 1 ->
  (forall v, x <> Scalar v) ->
  f x par = Ok (pointwise (poly_sum (item_pow x) par) x).
Proof.
  intros H L N. pose proof (get_calib_poly_func_cases degree f H) as D.
  unfold get_calib_poly_func in H.
  degree_by_degree D;
    cbv - [calib_poly_func_1 calib_poly_func_2 calib_poly_func_3 calib_poly_func_4
             calib_poly_func_5 calib_poly_func_6 calib_poly_func_7 calib_poly_func_8
             calib_poly_func_9] in H;
    injection H as <-;
    repeat (destruct par as [|? par]; try (simpl in L; lia));
    cbv beta iota;
    unfold calib_poly_func_1, calib_poly_func_2, calib_poly_func_3, calib_poly_func_4,
      calib_poly_func_5, calib_poly_func_6, calib_poly_func_7, calib_poly_func_8,
      calib_poly_func_9; cbv zeta;
    rewrite ?(vpow_numpy x _ N);
    pointwise_poly; reflexivity.
Qed.

Lemma get_calib_poly_func_array degree f par l :
  get_calib_poly_func degree = Ok f -> Z.of_nat (length par) = degree + 1 ->
  f (Array l) par = Ok (Array (map (poly_sum pow par) l)).
Proof.
  intros H L. apply (get_calib_poly_func_numpy degree f par (Array l) H L). discriminate.
Qed.

Lemma get_calib_poly_func_float64 degree f par v :
  get_calib_poly_func degree = Ok f -> Z.of_nat (length par) = degree + 1 ->
  f (NpScalar v) par = Ok (NpScalar (poly_sum libm_pow par v)).
Proof.
  intros H L. apply (get_calib_poly_func_numpy degree f par (NpScalar v) H L). discriminate.
Qed.

Ltac literal_exponents :=
  change (Z2float 2) with 2%float; change (Z2float 3) with 3%float;
  change (Z2float 4) with 4%float; change (Z2float 5) with 5%float;
  change (Z2float 6) with 6%float; change (Z2float 7) with 7%float;
  change (Z2float 8) with 8%float; change (Z2float 9) with 9%float.

(** On a Python float a calibration polynomial raises [OverflowError] when
    one of its powers overflows, and returns the sum otherwise. *)
Lemma get_calib_poly_func_float degree f par v :
  get_calib_poly_func degree = Ok f -> Z.of_nat (length par) = degree + 1 ->
  f (Scalar v) par
  = if some_power_overflows libm_pow v degree then Raise OverflowError
    else Ok (Scalar (poly_sum libm_pow par v)).
Proof.
  intros H L. pose proof (get_calib_poly_func_cases degree f H) as D.
  unfold get_calib_poly_func in H.
  degree_by_degree D;
    cbv - [calib_poly_func_1 calib_poly_func_2 calib_poly_func_3 calib_poly_func_4
             calib_poly_func_5 calib_poly_func_6 calib_poly_func_7 calib_poly_func_8
             calib_poly_func_9] in H;
    injection H as <-;
    repeat (destruct par as [|? par]; try (simpl in L; lia));
    cbv beta iota;
    unfold calib_poly_func_1, calib_poly_func_2, calib_poly_func_3, calib_poly_func_4,
      calib_poly_func_5, calib_poly_func_6, calib_poly_func_7, calib_poly_func_8,
      calib_poly_func_9; cbv zeta;
    rewrite ?vpow_float;
    unfold some_power_overflows, power_overflows;
    match goal with
    | |- context [np_arange 2 ?d] =>
        let l := eval vm_compute in (np_arange 2 d) in change (np_arange 2 d) with l
    end;
    cbn [existsb]; literal_exponents;
    destruct (is_finite v); cbn [andb orb];
    repeat match goal with
           | |- context [is_infinity (libm_pow v ?k)] =>
               destruct (is_infinity (libm_pow v k))
           end;
    reflexivity.
Qed.

Lemma get_calib_poly_func_in_range degree :
  1 <= degree <= 9 -> exists f, get_calib_poly_func degree = Ok f.
Proof.
  intros H.
  assert (D : degree = 1 \/ degree = 2 \/ degree = 3 \/ degree = 4 \/ degree = 5 \/
              degree = 6 \/ degree = 7 \/ degree = 8 \/ degree = 9) by lia.
  destruct D as [D|[D|[D|[D|[D|[D|[D|[D|D]]]]]]]]; subst degree; eexists; reflexivity.
Qed.

Lemma get_calib_poly_func_out_of_range degree :
  degree < 1 \/ 9 < degree -> get_calib_poly_func degree = Raise AssertionError.
Proof.
  intros H. unfold get_calib_poly_func.
  destruct (existsb (Z.eqb degree) (np_arange 1 10)) eqn:E; [|reflexivity].
  apply degree_cases in E. lia.
Qed.

End Polynomials.

Lemma poly_sum_from_ext (P1 P2 : float -> float -> float) x cs :
  forall k acc,
    1 <= k ->
    (forall j, k <= j < k + Z.of_nat (length cs) -> 2 <= j ->
               P1 x (Z2float j) = P2 x (Z2float j)) ->
    poly_sum_from P1 x k acc cs = poly_sum_from P2 x k acc cs.
Proof.
  induction cs as [|c cs IH]; intros k acc K H; [reflexivity|].
  cbn [poly_sum_from].
  assert (T : poly_term P1 x k c = poly_term P2 x k c).
  { unfold poly_term. destruct (Z.eqb_spec k 0); [reflexivity|].
    destruct (Z.eqb_spec k 1); [reflexivity|].
    rewrite H; [reflexivity|cbn [length]; lia|lia]. }
  rewrite T. apply IH; [lia|]. intros j J J2. apply H; [|exact J2]. cbn [length]. lia.
Qed.

Lemma poly_sum_ext (P1 P2 : float -> float -> float) par x degree :
  Z.of_nat (length par) = degree + 1 ->
  (forall k, 2 <= k <= degree -> P1 x (Z2float k) = P2 x (Z2float k)) ->
  poly_sum P1 par x = poly_sum P2 par x.
Proof.
  intros L H. destruct par as [|c0 cs]; [reflexivity|]. cbn [poly_sum].
  change (poly_term P1 x 0 c0) with (poly_term P2 x 0 c0).
  apply poly_sum_from_ext; [lia|]. intros j J J2. apply H. cbn [length] in L. lia.
Qed.

(** The evaluation item by item returns the array of the numbers that the
    calls return. *)
Lemma evaluate_each_numbers (f : py_function) (h : float -> float) x par :
  (forall v, In v x ->
             exists r, f (NpScalar v) par = Ok r /\ number_value r = Some (h v)) ->
  evaluate_each f x par = Ok (Array (map h x)).
Proof.
  intros H. destruct (for_each_numbers f par h x H) as (items & I & A).
  unfold evaluate_each. rewrite I. cbn [bind]. rewrite A. reflexivity.
Qed.

(** * The claims of the specification *)

(** ** C1: the nearest comb mode *)

(** C1, as stated, fails on a tie.  The nominal wavelength
    43776950.277170539 is as far from mode 4 as from mode 5.  [get_true_wavel]
    matches it with mode 5, the first of the two in the reversed list it
    searches; the first of the two in the order of generation is mode 4. *)
Lemma get_true_wavel_tie :
  true_wavel 4 = Ok 48205894.516803347%float /\
  true_wavel 5 = Ok 39348006.037537731%float /\
  residual 43776950.277170539 48205894.516803347
  = residual 43776950.277170539 39348006.037537731 /\
  true_wavel_candidates 10 tie_wavel = Ok tie_candidates /\
  get_true_wavel 10 tie_wavel [0; 1]
  = Ok [(39348006.037537731%float, 5%float); (48205894.516803347%float, 4%float)] /\
  first_generated_get_true_wavel 10 tie_wavel [0; 1]
  = Ok [(48205894.516803347%float, 4%float); (48205894.516803347%float, 4%float)] /\
  get_true_wavel 10 tie_wavel [0; 1] <> first_generated_get_true_wavel 10 tie_wavel [0; 1].
Proof.
  repeat split; try (vm_compute; reflexivity).
  intros H. vm_compute in H. discriminate H.
Qed.

(** C1 (amended): the list of candidates [wavel_true] holds the rows
    (wavelength, mode) of the generated list, whose modes are 0, 1, 2, ... in
    order, that are below the upper cut, in reverse order.  When it is not
    empty, [get_true_wavel] returns one match per peak, and the match of a
    nominal wavelength is a candidate pair (wavelength, mode) such that no
    candidate has a smaller residual and every candidate before it in
    [wavel_true] has a strictly larger one: a tie goes to the first candidate
    of the reversed list, the one with the largest mode number.  When a
    candidate wavelength equals the nominal wavelength, the matched wavelength
    is that wavelength and its residual is zero. *)
Theorem get_true_wavel_nearest fuel data_wavel_given peak_locs wavel_given wavel_true :
  np_take data_wavel_given peak_locs = Ok wavel_given ->
  true_wavel_candidates fuel wavel_given = Ok wavel_true ->
  wavel_true <> [] ->
  (exists generated wavel_given_max,
      mode_rows generated /\ wavel_true = cut_and_reverse wavel_given_max generated) /\
  exists matches,
    get_true_wavel fuel data_wavel_given peak_locs = Ok matches /\
    length matches = length wavel_given /\
    forall i lambd_given,
      nth_error wavel_given i = Some lambd_given ->
      exists before c after,
        wavel_true = before ++ c :: after /\
        nth_error matches i = Some c /\
        (forall x, In x wavel_true ->
           (residual lambd_given (fst x) <? residual lambd_given (fst c))%float = false) /\
        (forall y, In y before ->
           (residual lambd_given (fst c) <? residual lambd_given (fst y))%float = true) /\
        (forall x, In x wavel_true -> fst x = lambd_given ->
           fst c = lambd_given /\ residual lambd_given (fst c) = 0%float).
Proof.
  intros T C NE. split; [exact (true_wavel_candidates_modes _ _ _ C)|].
  pose proof (true_wavel_candidates_good _ _ _ C) as G.
  destruct (get_true_wavel_succeeds _ _ _ _ _ T C NE) as (matches & E & L & N).
  exists matches. split; [exact E|]. split; [exact L|].
  intros i lambd Hi. destruct (N i lambd Hi) as (c' & M' & Hc').
  destruct (match_true_wavel_first wavel_true lambd NE G)
    as (l1 & c & l2 & Ec & M & Mi & F & X).
  assert (c' = c) by congruence. subst c'.
  exists l1, c, l2. split; [exact Ec|]. split; [exact Hc'|]. split; [exact Mi|].
  split; [exact F|].
  intros x Hx Ex. pose proof (X x Hx Ex) as Xc. split; [exact Xc|].
  rewrite Xc. rewrite <- Ex. apply residual_zero.
  - apply G. exact Hx.
  - apply eqb_refl. apply finite_not_nan. apply G. exact Hx.
Qed.

Lemma get_true_wavel_nearest_witness :
  (exists generated wavel_given_max,
      mode_rows generated /\ tie_candidates = cut_and_reverse wavel_given_max generated) /\
  exists matches,
    get_true_wavel 10 tie_wavel [0; 1] = Ok matches /\
    length matches = length tie_wavel /\
    forall i lambd_given,
      nth_error tie_wavel i = Some lambd_given ->
      exists before c after,
        tie_candidates = before ++ c :: after /\
        nth_error matches i = Some c /\
        (forall x, In x tie_candidates ->
           (residual lambd_given (fst x) <? residual lambd_given (fst c))%float = false) /\
        (forall y, In y before ->
           (residual lambd_given (fst c) <? residual lambd_given (fst y))%float = true) /\
        (forall x, In x tie_candidates -> fst x = lambd_given ->
           fst c = lambd_given /\ residual lambd_given (fst c) = 0%float).
Proof.
  apply (get_true_wavel_nearest 10 tie_wavel [0; 1] tie_wavel tie_candidates).
  - vm_compute. reflexivity.
  - vm_compute. reflexivity.
  - discriminate.
Defined.

(** ** C2: the closed form of the comb wavelengths *)

(** C2: the wavelength of comb mode [n] is [c / (v_rep * n + v_offset) * 1e10]
    with c = 299792458, v_rep = 14e9 and v_offset = 6.19e9, computed in
    binary64 on the float of [n]: for every [n] whose conversion to a float
    succeeds, which it does for every mode from 0 to [mode_limit]; the
    wavelengths of the modes 0 and 1 are that closed form; and every row of
    the generated list holds its mode number and that wavelength. *)
Theorem true_wavel_closed_form :
  (forall n, true_wavel n = (nf <- float_of_int n ;; Ok (comb_wavelength nf))) /\
  (forall n, 0 <= n <= mode_limit -> true_wavel n = Ok (comb_wavelength (Z2float n))) /\
  true_wavel 0 = Ok (299792458 / (14e9 * 0 + 6.19e9) * 1e10)%float /\
  true_wavel 1 = Ok (299792458 / (14e9 * 1 + 6.19e9) * 1e10)%float /\
  (forall fuel wavel_given_min generated,
      gen_true_wavel fuel wavel_given_min
        [(comb_wavelength 0, 0); (comb_wavelength 1, 1)] 1 = Ok generated ->
      forall i w n, nth_error generated i = Some (w, n) ->
                    n = Z.of_nat i /\ w = comb_wavelength (Z2float n)).
Proof.
  split; [|split; [|split; [|split]]].
  - intros n. reflexivity.
  - intros n H. unfold true_wavel. rewrite (proj1 (float_of_int_ok n H)). reflexivity.
  - vm_compute. reflexivity.
  - vm_compute. reflexivity.
  - intros fuel wmin generated G i w n E.
    assert (M : mode_rows generated).
    { eapply gen_true_wavel_modes; [| |exact G]; [|reflexivity].
      intros [|[|[|j]]] w' m E'; simpl in E'; try discriminate; injection E' as <- <-;
        (split; [reflexivity|vm_compute; reflexivity]). }
    destruct (M i w n E) as [-> W]. split; [reflexivity|].
    unfold true_wavel, float_of_int in W.
    destruct (is_infinity (Z2float (Z.of_nat i))); cbn [bind] in W; [discriminate|].
    injection W as <-. reflexivity.
Qed.

(** Beyond the range of binary64 the conversion of the mode number, and with
    it [true_wavel], raises an [OverflowError]. *)
Example true_wavel_overflow : true_wavel (2 ^ 1024) = Raise OverflowError.
Proof. vm_compute. reflexivity. Qed.

(** ** C3: the windows *)

(** C3: for a window size [s], given or inferred, and peaks whose two
    bounds [p - s/2] and [p + s/2] are finite floats, [get_peak_index_ranges]
    returns one window per peak, in the order of the peaks, and the window of
    peak [p] is the pair of the two bounds, each truncated toward zero on its
    own.  For the peaks 100, 200, 300 and no size given the windows are
    (50, 150), (150, 250) and (250, 350); an odd size gives windows that are
    not symmetric. *)
Theorem get_peak_index_ranges_truncates :
  (forall peak_locs peak_range_size,
      is_nan peak_range_size = false ->
      (forall nPeak, In nPeak peak_locs ->
         finite (Z2float nPeak - peak_range_size / 2) /\
         finite (Z2float nPeak + peak_range_size / 2)) ->
      exists windows,
        get_peak_index_ranges peak_locs peak_range_size = Ok windows /\
        length windows = length peak_locs /\
        forall i nPeak,
          nth_error peak_locs i = Some nPeak ->
          nth_error windows i
          = Some (truncate (Z2float nPeak - peak_range_size / 2),
                  truncate (Z2float nPeak + peak_range_size / 2))) /\
  (forall peak_locs size,
      mean_peak_separation peak_locs = Ok size ->
      (forall nPeak, In nPeak peak_locs ->
         finite (Z2float nPeak - Z2float size / 2) /\
         finite (Z2float nPeak + Z2float size / 2)) ->
      exists windows,
        get_peak_index_ranges peak_locs nan = Ok windows /\
        length windows = length peak_locs /\
        forall i nPeak,
          nth_error peak_locs i = Some nPeak ->
          nth_error windows i
          = Some (truncate (Z2float nPeak - Z2float size / 2),
                  truncate (Z2float nPeak + Z2float size / 2))) /\
  get_peak_index_ranges [100; 200; 300] nan = Ok [(50, 150); (150, 250); (250, 350)] /\
  get_peak_index_ranges [2; 10] 5 = Ok [(0, 4); (7, 12)] /\
  truncate (-0.5) = 0 /\ truncate 4.5 = 4 /\ truncate (-2.5) = -2.
Proof.
  assert (G : forall peak_locs size,
             is_nan size = false ->
             (forall nPeak, In nPeak peak_locs ->
                finite (Z2float nPeak - size / 2) /\ finite (Z2float nPeak + size / 2)) ->
             exists windows,
               get_peak_index_ranges peak_locs size = Ok windows /\
               length windows = length peak_locs /\
               forall i nPeak,
                 nth_error peak_locs i = Some nPeak ->
                 nth_error windows i
                 = Some (truncate (Z2float nPeak - size / 2),
                         truncate (Z2float nPeak + size / 2))).
  { intros peak_locs size N F. unfold get_peak_index_ranges. rewrite N. cbn [bind].
    destruct (for_each_ok (peak_index_range size) peak_locs) as (windows & E & L & Nth).
    { intros p Hp. destruct (F p Hp) as [Fa Fb]. unfold peak_index_range.
      rewrite (int_of_float_truncate _ Fa), (int_of_float_truncate _ Fb). cbn [bind]. eauto. }
    exists windows. split; [exact E|]. split; [exact L|].
    intros i p Hi. destruct (Nth i p Hi) as (w & Hw & ->). f_equal.
    destruct (F p (nth_error_In _ _ Hi)) as [Fa Fb]. unfold peak_index_range in Hw.
    rewrite (int_of_float_truncate _ Fa), (int_of_float_truncate _ Fb) in Hw.
    cbn [bind] in Hw. congruence. }
  split; [exact G|]. split; [|repeat split; vm_compute; reflexivity].
  intros peak_locs size E F. rewrite (get_peak_index_ranges_inferred _ _ E).
  apply G; [apply Z2float_not_nan|exact F].
Qed.

Lemma get_peak_index_ranges_truncates_witness :
  exists windows,
    get_peak_index_ranges [3; 17; 30] 13 = Ok windows /\
    length windows = length [3; 17; 30] /\
    forall i nPeak,
      nth_error [3; 17; 30] i = Some nPeak ->
      nth_error windows i
      = Some (truncate (Z2float nPeak - 13 / 2), truncate (Z2float nPeak + 13 / 2)).
Proof.
  apply (proj1 get_peak_index_ranges_truncates [3; 17; 30] 13%float).
  - reflexivity.
  - intros nPeak [<-|[<-|[<-|[]]]]; split; reflexivity.
Defined.

(** ** C4 and C5: the rows of the peak fitter *)

Section FitPeaks.

Variable pow : float -> float -> float.
Variable libm_pow : float -> float -> float.
Variable np_exp : float -> float.
Variable np_sum : list float -> float.
Variable chi2_sf : float -> Z -> float.
Variable migrad : forall X : Type, (X -> outcome float) -> X -> outcome (minuit X).

Local Abbreviation peak_minuit := (peak_minuit pow libm_pow np_exp np_sum migrad).
Local Abbreviation fit_peak := (fit_peak pow libm_pow np_exp np_sum chi2_sf migrad).
Local Abbreviation fit_peaks_list := (fit_peaks_list pow libm_pow np_exp np_sum chi2_sf migrad).
Local Abbreviation fit_peaks := (fit_peaks pow libm_pow np_exp np_sum chi2_sf migrad).

(** What a row that [fit_peak] returns holds. *)
Lemma fit_peak_inv data_spec data_spec_err print window row :
  fit_peak data_spec data_spec_err print window = Ok row ->
  print = false /\
  exists m,
    peak_minuit data_spec data_spec_err window = Ok m /\
    fit_ndof row = Npoints window - 5 /\
    fit_converged row = is_valid m /\
    values_list (values m) = [fit_A row; fit_mu row; fit_sigma row; fit_P row; fit_C row] /\
    values_list (errors m)
    = [fit_A_err row; fit_mu_err row; fit_sigma_err row; fit_P_err row; fit_C_err row] /\
    fit_chi2 row = fval m /\
    (fit_index_start row, fit_index_end row) = window.
Proof.
  unfold fit_peak. destruct (peak_minuit data_spec data_spec_err window) as [m| |];
    cbn [bind]; try discriminate.
  destruct print; [discriminate|]. intros [= <-]. split; [reflexivity|].
  exists m. simpl. destruct window. repeat split; reflexivity.
Qed.

(** With the flag [print] set, the first window whose fit returns ends the
    call with a [TypeError]. *)
Lemma fit_peaks_print data_spec data_spec_err window rest m :
  peak_minuit data_spec data_spec_err window = Ok m ->
  fit_peaks data_spec data_spec_err (window :: rest) true = Raise TypeError.
Proof.
  intros H. unfold fit_peaks, fit_peaks_list. cbn [for_each].
  unfold fit_peak at 1. rewrite H. reflexivity.
Qed.

(** C4: when [fit_peaks] returns, it returns one row per window, and the
    degrees of freedom of the row of a window are the number of its points
    [Npoints], the length of [np.arange(index_start, index_end)], minus 5;
    the row holds them at index 9. *)
Theorem fit_peaks_ndof data_spec data_spec_err peak_index_ranges print peak_fits :
  fit_peaks data_spec data_spec_err peak_index_ranges print = Ok peak_fits ->
  length peak_fits = length peak_index_ranges /\
  forall i window,
    nth_error peak_index_ranges i = Some window ->
    exists fit,
      fit_peak data_spec data_spec_err print window = Ok fit /\
      fit_ndof fit = Npoints window - 5 /\
      Npoints window = Z.max 0 (snd window - fst window) /\
      nth_error peak_fits i = Some (peak_fit_row fit) /\
      nth_error (peak_fit_row fit) 9 = Some (Z2float (Npoints window - 5)).
Proof.
  unfold fit_peaks, fit_peaks_list.
  destruct (for_each (fit_peak data_spec data_spec_err print) peak_index_ranges)
    as [fits| |] eqn:E; cbn [bind]; try discriminate.
  intros [= <-]. split; [rewrite length_map; eapply for_each_length; exact E|].
  intros i window Hi. destruct (for_each_nth _ _ _ E i window Hi) as (fit & F & N).
  exists fit. destruct (fit_peak_inv _ _ _ _ _ F) as (_ & m & _ & D & _).
  split; [exact F|]. split; [exact D|]. split; [apply np_arange_length|].
  split; [apply map_nth_error; exact N|]. simpl. rewrite D. reflexivity.
Qed.

(** C5: when the minimiser returns on every window, converged or not, a call
    with [print=False] (the default) returns one row per window; the row
    holds the values, the errors and the function value the minimiser was
    left with, and its convergence flag, which is false (0 in the row) when
    the minimiser did not converge.  A call with [print=True] on at least
    one window does not return: it raises a [TypeError], since the flag
    hides the built-in [print] that the function then calls. *)
Theorem fit_peaks_not_converged data_spec data_spec_err peak_index_ranges :
  (forall window, In window peak_index_ranges ->
                  exists m, peak_minuit data_spec data_spec_err window = Ok m) ->
  (exists peak_fits,
      fit_peaks data_spec data_spec_err peak_index_ranges false = Ok peak_fits /\
      length peak_fits = length peak_index_ranges /\
      forall i window,
        nth_error peak_index_ranges i = Some window ->
        exists m fit,
          peak_minuit data_spec data_spec_err window = Ok m /\
          nth_error peak_fits i = Some (peak_fit_row fit) /\
          fit_converged fit = is_valid m /\
          values_list (values m)
          = [fit_A fit; fit_mu fit; fit_sigma fit; fit_P fit; fit_C fit] /\
          values_list (errors m)
          = [fit_A_err fit; fit_mu_err fit; fit_sigma_err fit; fit_P_err fit; fit_C_err fit] /\
          fit_chi2 fit = fval m /\
          (is_valid m = false -> nth_error (peak_fit_row fit) 10 = Some 0%float)) /\
  (peak_index_ranges <> [] ->
   fit_peaks data_spec data_spec_err peak_index_ranges true = Raise TypeError).
Proof.
  intros H. split.
  - destruct (for_each_ok (fit_peak data_spec data_spec_err false) peak_index_ranges)
      as (fits & E & L & N).
    { intros window Hw. destruct (H window Hw) as (m & Hm).
      unfold fit_peak. rewrite Hm. cbn [bind]. eauto. }
    exists (map peak_fit_row fits). unfold fit_peaks, fit_peaks_list.
    rewrite E. cbn [bind].
    split; [reflexivity|]. split; [rewrite length_map; exact L|].
    intros i window Hi. destruct (N i window Hi) as (fit & F & Nf).
    destruct (fit_peak_inv _ _ _ _ _ F) as (_ & m & Hm & _ & Cv & V & Er & Ch & _).
    exists m, fit. repeat split; auto using map_nth_error.
    intros Inv. simpl. rewrite Cv, Inv. reflexivity.
  - destruct peak_index_ranges as [|window rest]; [contradiction|]. intros _.
    destruct (H window (or_introl eq_refl)) as (m & Hm).
    eapply fit_peaks_print. exact Hm.
Qed.

End FitPeaks.

Lemma fit_peaks_ndof_witness :
  length example_fits = length example_ranges /\
  forall i window,
    nth_error example_ranges i = Some window ->
    exists fit,
      fit_peak square_pow square_pow linear_exp left_sum unit_chi2_sf stalled_migrad
        example_spec example_err false window = Ok fit /\
      fit_ndof fit = Npoints window - 5 /\
      Npoints window = Z.max 0 (snd window - fst window) /\
      nth_error example_fits i = Some (peak_fit_row fit) /\
      nth_error (peak_fit_row fit) 9 = Some (Z2float (Npoints window - 5)).
Proof.
  apply (fit_peaks_ndof square_pow square_pow linear_exp left_sum unit_chi2_sf stalled_migrad
           example_spec example_err example_ranges false example_fits).
  vm_compute. reflexivity.
Defined.

Lemma fit_peaks_not_converged_witness :
  (exists peak_fits,
      fit_peaks square_pow square_pow linear_exp left_sum unit_chi2_sf stalled_migrad
        example_spec example_err example_ranges false = Ok peak_fits /\
      length peak_fits = length example_ranges /\
      forall i window,
        nth_error example_ranges i = Some window ->
        exists m fit,
          peak_minuit square_pow square_pow linear_exp left_sum stalled_migrad
            example_spec example_err window = Ok m /\
          nth_error peak_fits i = Some (peak_fit_row fit) /\
          fit_converged fit = is_valid m /\
          values_list (values m)
          = [fit_A fit; fit_mu fit; fit_sigma fit; fit_P fit; fit_C fit] /\
          values_list (errors m)
          = [fit_A_err fit; fit_mu_err fit; fit_sigma_err fit; fit_P_err fit; fit_C_err fit] /\
          fit_chi2 fit = fval m /\
          (is_valid m = false -> nth_error (peak_fit_row fit) 10 = Some 0%float)) /\
  (example_ranges <> [] ->
   fit_peaks square_pow square_pow linear_exp left_sum unit_chi2_sf stalled_migrad
     example_spec example_err example_ranges true = Raise TypeError).
Proof.
  apply (fit_peaks_not_converged square_pow square_pow linear_exp left_sum unit_chi2_sf
           stalled_migrad
           example_spec example_err example_ranges).
  intros window [<-|[<-|[]]]; eexists; vm_compute; reflexivity.
Defined.

(** The two calls on the example: the rows with the flag 0 at index 10, and
    the [TypeError]. *)
Example fit_peaks_example :
  fit_peaks square_pow square_pow linear_exp left_sum unit_chi2_sf stalled_migrad
    example_spec example_err example_ranges false = Ok example_fits /\
  map (fun row => nth_error row 10) example_fits = [Some 0%float; Some 0%float] /\
  fit_peaks square_pow square_pow linear_exp left_sum unit_chi2_sf stalled_migrad
    example_spec example_err example_ranges true = Raise TypeError.
Proof. repeat split; vm_compute; reflexivity. Qed.

(** ** C6: orders with fewer than 10 peaks *)

Section Orchestrator.

Variable pow : float -> float -> float.
Variable libm_pow : float -> float -> float.
Variable np_exp : float -> float.
Variable np_sum : list float -> float.
Variable chi2_sf : float -> Z -> float.
Variable signal_find_peaks : list float -> Z -> float -> list float -> list Z * list float.
Variable signal_peak_prominences :
  list float -> list Z -> Z -> list float * list Z * list Z.
Variable signal_peak_widths :
  list float -> list Z -> float -> list float * list Z * list Z ->
  list float * list float * list float * list float.
Variable migrad : forall X : Type, (X -> outcome float) -> X -> outcome (minuit X).
Variable fits_open : string -> outcome (list order_data).

Local Abbreviation peak_count :=
  (peak_count signal_find_peaks signal_peak_prominences signal_peak_widths).
Local Abbreviation fit_order :=
  (fit_order pow libm_pow np_exp np_sum chi2_sf signal_find_peaks signal_peak_prominences
     signal_peak_widths migrad).
Local Abbreviation fit_orders :=
  (fit_orders pow libm_pow np_exp np_sum chi2_sf signal_find_peaks signal_peak_prominences
     signal_peak_widths migrad).
Local Abbreviation fit_all_peaks_in_all_orders :=
  (fit_all_peaks_in_all_orders pow libm_pow np_exp np_sum chi2_sf signal_find_peaks
     signal_peak_prominences signal_peak_widths migrad fits_open).

Lemma fit_order_few_peaks fuel data correct_errors custom_error_factor order d :
  py_index data order = Ok d -> (peak_count d < 10)%nat ->
  fit_order fuel data correct_errors custom_error_factor order
  = (Ok (nan_result order), [CallFindPeaks order]).
Proof.
  intros D F. unfold fit_order. rewrite D. unfold tbind, call. cbn [fst snd].
  unfold peak_count in F.
  destruct (Z.ltb_spec
              (Z.of_nat (length (peaks (func_find_peaks signal_find_peaks
                                          signal_peak_prominences signal_peak_widths
                                          (spectrum d) 11 0.15)))) 10)
    as [_|G]; [|lia].
  reflexivity.
Qed.

Lemma tbind_events {A B : Type} (m : traced A) (k : A -> traced B) ev :
  In ev (snd (tbind m k)) ->
  In ev (snd m) \/ exists a, fst m = Ok a /\ In ev (snd (k a)).
Proof.
  unfold tbind. destruct (fst m) as [a| |] eqn:E; cbn [snd]; auto.
  intros H. apply in_app_or in H. destruct H; eauto.
Qed.

(** Every event of the body of the loop carries the order of that pass. *)
Lemma fit_order_events fuel data correct_errors custom_error_factor order ev :
  In ev (snd (fit_order fuel data correct_errors custom_error_factor order)) ->
  event_order ev = order.
Proof.
  unfold fit_order. destruct (py_index data order) as [d| |]; cbn [snd]; try contradiction.
  intros H.
  repeat match goal with
         | H : In _ (snd (tbind _ _)) |- _ =>
             apply tbind_events in H; destruct H as [H|(? & _ & H)]
         | H : In _ (snd (call _ _)) |- _ => destruct H as [<-|[]]; reflexivity
         | H : In _ (snd (if ?c then _ else _)) |- _ => destruct c
         | H : In _ (snd (tret _)) |- _ => destruct H
         | H : In _ (snd (_, [])) |- _ => destruct H
         end.
Qed.

Lemma fit_orders_events fuel data correct_errors custom_error_factor orders :
  forall results ev,
    In ev (snd (fit_orders fuel data correct_errors custom_error_factor orders results)) ->
    exists order,
      In order orders /\
      In ev (snd (fit_order fuel data correct_errors custom_error_factor order)).
Proof.
  induction orders as [|order rest IH]; intros results ev; simpl.
  - intros [].
  - intros H. apply tbind_events in H. destruct H as [H|(r & _ & H)].
    + exists order. auto.
    + destruct (IH _ _ H) as (o & Ho & He). exists o. auto.
Qed.

Lemma fit_orders_results fuel data correct_errors custom_error_factor orders :
  forall results final,
    fst (fit_orders fuel data correct_errors custom_error_factor orders results) = Ok final ->
    exists entries,
      final = results ++ entries /\ length entries = length orders /\
      forall i order,
        nth_error orders i = Some order ->
        exists r,
          fst (fit_order fuel data correct_errors custom_error_factor order) = Ok r /\
          nth_error entries i = Some r.
Proof.
  induction orders as [|order rest IH]; intros results final; simpl.
  - intros [= <-]. exists []. rewrite app_nil_r. repeat split. intros [|i] o E; discriminate.
  - unfold tbind at 1.
    destruct (fst (fit_order fuel data correct_errors custom_error_factor order))
      as [r| |] eqn:E; cbn [fst]; try discriminate.
    intros H. destruct (IH _ _ H) as (entries & -> & L & N).
    exists (r :: entries). rewrite <- app_assoc. split; [reflexivity|].
    split; [simpl; congruence|].
    intros [|i] o Ho; simpl in *.
    + injection Ho as <-. eauto.
    + apply N. exact Ho.
Qed.

(** C6: for an order of the table in which fewer than 10 peaks are found,
    the pass of the loop returns the entry of NaN placeholders
    [order, [[nan]], [[nan]], [nan]] and calls the peak finder only; the loop
    goes on with the orders that are left, that entry appended; in the whole
    run no call of the window builder, the peak fitter or the matcher is made
    for that order; and when the run returns, the entry of an order from 40
    to 75 is at its place in the results. *)
Theorem fit_all_peaks_few_peaks fuel filename correct_errors custom_error_factor
    data order d :
  fits_open filename = Ok data ->
  py_index data order = Ok d ->
  (peak_count d < 10)%nat ->
  fit_order fuel data correct_errors custom_error_factor order
  = (Ok (nan_result order), [CallFindPeaks order]) /\
  (forall rest results,
      fit_orders fuel data correct_errors custom_error_factor (order :: rest) results
      = (fst (fit_orders fuel data correct_errors custom_error_factor rest
                (results ++ [nan_result order])),
         CallFindPeaks order
         :: snd (fit_orders fuel data correct_errors custom_error_factor rest
                   (results ++ [nan_result order])))) /\
  (forall ev,
      In ev (snd (fit_all_peaks_in_all_orders fuel filename correct_errors
                    custom_error_factor)) ->
      event_order ev = order -> ev = CallFindPeaks order) /\
  (forall results,
      fst (fit_all_peaks_in_all_orders fuel filename correct_errors custom_error_factor)
      = Ok results ->
      40 <= order < 76 ->
      nth_error results (Z.to_nat (order - 40)) = Some (nan_result order)).
Proof.
  intros O D F.
  pose proof (fit_order_few_peaks fuel data correct_errors custom_error_factor order d D F)
    as B.
  split; [exact B|]. split; [|split].
  - intros rest results. simpl. unfold tbind at 1. rewrite B. reflexivity.
  - unfold fit_all_peaks_in_all_orders. rewrite O. intros ev H Ev.
    destruct (fit_orders_events _ _ _ _ _ _ _ H) as (o & _ & He).
    pose proof (fit_order_events _ _ _ _ _ _ He) as Eo.
    rewrite Ev in Eo. subst o.
    rewrite B in He. destruct He as [<-|[]]. reflexivity.
  - unfold fit_all_peaks_in_all_orders. rewrite O. intros results H R.
    destruct (fit_orders_results _ _ _ _ _ _ _ H) as (entries & -> & _ & N).
    destruct (N (Z.to_nat (order - 40)) order) as (r & Hr & Hn).
    { unfold np_arange. rewrite nth_error_map.
      rewrite nth_error_seq. change (Z.to_nat (76 - 40)) with 36%nat.
      destruct (Nat.ltb_spec (Z.to_nat (order - 40)) 36) as [_|?]; [|lia].
      cbn [option_map]. f_equal. lia. }
    rewrite B in Hr. injection Hr as <-. exact Hn.
Qed.

End Orchestrator.

Lemma fit_all_peaks_few_peaks_witness :
  fit_order square_pow square_pow linear_exp left_sum unit_chi2_sf two_peaks no_prominences
    no_widths
    stalled_migrad 5 (repeat example_order 76) true None 41
  = (Ok (nan_result 41), [CallFindPeaks 41]) /\
  (forall rest results,
      fit_orders square_pow square_pow linear_exp left_sum unit_chi2_sf two_peaks no_prominences
        no_widths stalled_migrad 5 (repeat example_order 76) true None (41 :: rest) results
      = (fst (fit_orders square_pow square_pow linear_exp left_sum unit_chi2_sf two_peaks
                no_prominences no_widths stalled_migrad 5 (repeat example_order 76)
                true None rest (results ++ [nan_result 41])),
         CallFindPeaks 41
         :: snd (fit_orders square_pow square_pow linear_exp left_sum unit_chi2_sf two_peaks
                   no_prominences no_widths stalled_migrad 5 (repeat example_order 76)
                   true None rest (results ++ [nan_result 41])))) /\
  (forall ev,
      In ev (snd (fit_all_peaks_in_all_orders square_pow square_pow linear_exp left_sum unit_chi2_sf
                    two_peaks no_prominences no_widths stalled_migrad example_table
                    5 "LFC.fits" true None)) ->
      event_order ev = 41 -> ev = CallFindPeaks 41) /\
  (forall results,
      fst (fit_all_peaks_in_all_orders square_pow square_pow linear_exp left_sum unit_chi2_sf
             two_peaks no_prominences no_widths stalled_migrad example_table
             5 "LFC.fits" true None)
      = Ok results ->
      40 <= 41 < 76 ->
      nth_error results (Z.to_nat (41 - 40)) = Some (nan_result 41)).
Proof.
  apply (fit_all_peaks_few_peaks square_pow square_pow linear_exp left_sum unit_chi2_sf two_peaks
           no_prominences no_widths stalled_migrad example_table 5 "LFC.fits" true None
           (repeat example_order 76) 41 example_order).
  - reflexivity.
  - reflexivity.
  - vm_compute. lia.
Defined.

(** A table whose orders all have two peaks: 36 entries of placeholders, and
    36 calls, all of the peak finder. *)
Example fit_all_peaks_example :
  fit_all_peaks_in_all_orders square_pow square_pow linear_exp left_sum unit_chi2_sf
    two_peaks no_prominences no_widths stalled_migrad example_table 5 "LFC.fits" false None
  = (Ok (map nan_result (np_arange 40 76)), map CallFindPeaks (np_arange 40 76)).
Proof. vm_compute. reflexivity. Qed.

(** ** C7: the inferred window size *)

(** C7: without a window size, [get_peak_index_ranges] uses
    [int(np.mean(np.diff(peak_locs)))], the mean of the differences of
    consecutive peaks cut to an integer.  With no peak or one peak there is
    no difference, the mean is a NaN and [int] raises a [ValueError]; so a
    call that returns was given at least two peaks. *)
Theorem get_peak_index_ranges_inferred_size :
  (forall peak_locs size,
      mean_peak_separation peak_locs = Ok size ->
      get_peak_index_ranges peak_locs nan = get_peak_index_ranges peak_locs (Z2float size)) /\
  (forall peak_locs,
      mean_peak_separation peak_locs = int_of_float (np_mean (np_diff peak_locs))) /\
  get_peak_index_ranges [] nan = Raise ValueError /\
  (forall nPeak, get_peak_index_ranges [nPeak] nan = Raise ValueError) /\
  (forall peak_locs windows,
      get_peak_index_ranges peak_locs nan = Ok windows -> (2 <= length peak_locs)%nat) /\
  mean_peak_separation [100; 200; 300] = Ok 100 /\
  mean_peak_separation [10; 21; 33; 40] = Ok 10 /\
  get_peak_index_ranges [100; 200] nan = Ok [(50, 150); (150, 250)].
Proof.
  split; [|split; [|split; [|split; [|split]]]].
  - exact get_peak_index_ranges_inferred.
  - reflexivity.
  - reflexivity.
  - intros nPeak. reflexivity.
  - intros [|p [|q peak_locs]] windows; try discriminate. simpl length. lia.
  - repeat split; vm_compute; reflexivity.
Qed.

(** ** C8 and C9: the calibration polynomials and [compute_f] *)

(** C8: for a degree from 1 to 9 [get_calib_poly_func] returns a function,
    and that function, given the [degree + 1] coefficients [par], evaluates
    the sum of the terms [c_k * x^k], k from 0 to the degree: on every item
    of an array with NumPy's power, on a NumPy number and on a Python float
    with the power of the C library.  As the expression does, it raises
    [OverflowError] on a Python float [x] of which one of the powers
    [x ** 2], ..., [x ** degree] overflows, and there only.  For a degree
    below 1 or above 9 the assertion fails: [get_calib_poly_func] raises an
    [AssertionError], and so does [fit_peak_positions], which does not
    recover from it. *)
Theorem get_calib_poly_func_degree pow libm_pow degree :
  (1 <= degree <= 9 ->
   exists f,
     get_calib_poly_func pow libm_pow degree = Ok f /\
     forall par,
       Z.of_nat (length par) = degree + 1 ->
       (forall x, f (Array x) par = Ok (Array (map (poly_sum pow par) x))) /\
       (forall x, f (NpScalar x) par = Ok (NpScalar (poly_sum libm_pow par x))) /\
       (forall x, some_power_overflows libm_pow x degree = false ->
                  f (Scalar x) par = Ok (Scalar (poly_sum libm_pow par x))) /\
       (forall x, some_power_overflows libm_pow x degree = true ->
                  f (Scalar x) par = Raise OverflowError)) /\
  (degree < 1 \/ 9 < degree ->
   get_calib_poly_func pow libm_pow degree = Raise AssertionError /\
   forall np_sum chi2_sf migrad wavel_true_match peak_fits x y_err,
     column peak_fits 2 = Ok x -> column peak_fits 4 = Ok y_err ->
     fit_peak_positions pow libm_pow np_sum chi2_sf migrad wavel_true_match peak_fits degree
     = Raise AssertionError).
Proof.
  split.
  - intros H. destruct (get_calib_poly_func_in_range pow libm_pow degree H) as (f & F).
    exists f. split; [exact F|]. intros par L.
    split; [intros x; apply (get_calib_poly_func_array pow libm_pow degree f par x F L)|].
    split; [intros x; apply (get_calib_poly_func_float64 pow libm_pow degree f par x F L)|].
    split; intros x O;
      rewrite (get_calib_poly_func_float pow libm_pow degree f par x F L), O; reflexivity.
  - intros H. pose proof (get_calib_poly_func_out_of_range pow libm_pow degree H) as E.
    split; [exact E|]. intros np_sum chi2_sf migrad wavel peak_fits x y_err Hx Hy.
    unfold fit_peak_positions. rewrite Hx. cbn [bind]. rewrite Hy. cbn [bind].
    rewrite E. reflexivity.
Qed.

Lemma get_calib_poly_func_degree_witness :
  (exists f,
      get_calib_poly_func square_pow square_pow 3 = Ok f /\
      forall par,
        Z.of_nat (length par) = 3 + 1 ->
        (forall x, f (Array x) par = Ok (Array (map (poly_sum square_pow par) x))) /\
        (forall x, f (NpScalar x) par = Ok (NpScalar (poly_sum square_pow par x))) /\
        (forall x, some_power_overflows square_pow x 3 = false ->
                   f (Scalar x) par = Ok (Scalar (poly_sum square_pow par x))) /\
        (forall x, some_power_overflows square_pow x 3 = true ->
                   f (Scalar x) par = Raise OverflowError)) /\
  (get_calib_poly_func square_pow square_pow 10 = Raise AssertionError /\
   forall np_sum chi2_sf migrad wavel_true_match peak_fits x y_err,
     column peak_fits 2 = Ok x -> column peak_fits 4 = Ok y_err ->
     fit_peak_positions square_pow square_pow np_sum chi2_sf migrad wavel_true_match
       peak_fits 10
     = Raise AssertionError).
Proof.
  split.
  - apply (proj1 (get_calib_poly_func_degree square_pow square_pow 3)). lia.
  - apply (proj2 (get_calib_poly_func_degree square_pow square_pow 10)). lia.
Defined.

(** The polynomial of degree 2 on the array [1, 2, 3], and on the number
    1e200, whose square overflows: a Python float raises, NumPy returns the
    infinity. *)
Example calib_poly_func_2_example :
  example_poly (Array [1; 2; 3]%float) [0.5; 2; 1]%float
  = Ok (Array [3.5; 8.5; 15.5]%float) /\
  example_poly (Scalar 3%float) [0.5; 2; 1]%float = Ok (Scalar 15.5%float) /\
  example_poly (Scalar 1e200%float) [0; 0; 1]%float = Raise OverflowError /\
  example_poly (NpScalar 1e200%float) [0; 0; 1]%float = Ok (NpScalar infinity) /\
  example_poly (Array [1e200%float]) [0; 0; 1]%float = Ok (Array [infinity]) /\
  example_poly (Scalar infinity) [0.5; 2; 1]%float = Ok (Scalar infinity).
Proof. repeat split; vm_compute; reflexivity. Qed.

(** C9, as stated, fails for a model function that is not pointwise: on
    [f(x, c) = c * np.sum(x)] the call on the whole array returns one number
    and the evaluation item by item returns an array. *)
Lemma compute_f_sum_model :
  sum_model (Array [1%float; 2%float]) [1%float] = Ok (NpScalar 3%float) /\
  evaluate_each sum_model [1%float; 2%float] [1%float] = Ok (Array [1%float; 2%float]) /\
  compute_f sum_model [1%float; 2%float] [1%float] = Ok (NpScalar 3%float) /\
  evaluate_each sum_model [1%float; 2%float] [1%float]
  <> sum_model (Array [1%float; 2%float]) [1%float].
Proof.
  repeat split; try (vm_compute; reflexivity).
  intros H. vm_compute in H. discriminate H.
Qed.

(** C9 (amended).  Let the calls [f(x_i, *par)] on the items of the array
    [x] return numbers, [h x_i].  Then the evaluation item by item, in
    order, returns the array of these numbers, which is what every function
    [g] that works on arrays and agrees with [f] on the items returns on
    [x].  When [f(x, *par)] raises [ValueError], [compute_f] takes the
    evaluation item by item: it returns what [g(x, *par)] returns, and
    [Chi2Regression.__call__] has with [f] the value it has with [g].  The
    calibration polynomials, given their [degree + 1] coefficients, agree
    with themselves, [g = f], on every array on whose items the power of
    the C library and NumPy's power of an array are the same for the
    exponents from 2 to the degree. *)
Theorem compute_f_transparent :
  (forall (f g : py_function) (h : float -> float) x par,
      (forall v, In v x ->
                 exists r, f (NpScalar v) par = Ok r /\ number_value r = Some (h v)) ->
      g (Array x) par = Ok (Array (map h x)) ->
      evaluate_each f x par = g (Array x) par /\
      (f (Array x) par = Raise ValueError ->
       compute_f f x par = g (Array x) par /\
       compute_f f x par = compute_f g x par /\
       forall pow libm_pow np_sum y sy weights,
         Chi2Regression_call pow libm_pow np_sum (MkChi2Regression f x y sy weights) par
         = Chi2Regression_call pow libm_pow np_sum (MkChi2Regression g x y sy weights) par)) /\
  (forall pow libm_pow degree f par x,
      get_calib_poly_func pow libm_pow degree = Ok f ->
      Z.of_nat (length par) = degree + 1 ->
      (forall v k, In v x -> 2 <= k <= degree ->
                   libm_pow v (Z2float k) = pow v (Z2float k)) ->
      evaluate_each f x par = f (Array x) par /\
      compute_f f x par = f (Array x) par).
Proof.
  split.
  - intros f g h x par I G.
    pose proof (evaluate_each_numbers f h x par I) as E.
    split; [rewrite E, G; reflexivity|]. intros V.
    assert (Cf : compute_f f x par = g (Array x) par).
    { unfold compute_f. rewrite V, E, G. reflexivity. }
    assert (Cg : compute_f g x par = g (Array x) par).
    { unfold compute_f. rewrite G. reflexivity. }
    split; [exact Cf|]. split; [rewrite Cf, Cg; reflexivity|].
    intros pow libm_pow np_sum y sy weights. unfold Chi2Regression_call.
    cbn [chi_f chi_x chi_y chi_sy chi_weights]. rewrite Cf, Cg. reflexivity.
  - intros pow libm_pow degree f par x F L A.
    pose proof (get_calib_poly_func_array pow libm_pow degree f par x F L) as V.
    assert (E : evaluate_each f x par = f (Array x) par).
    { rewrite V. rewrite (evaluate_each_numbers f (poly_sum libm_pow par) x par).
      - f_equal. f_equal. apply map_ext_in. intros v Hv.
        apply (poly_sum_ext libm_pow pow par v degree L). intros k K. apply A; assumption.
      - intros v _. exists (NpScalar (poly_sum libm_pow par v)). split; [|reflexivity].
        apply (get_calib_poly_func_float64 pow libm_pow degree f par v F L). }
    split; [exact E|]. unfold compute_f. rewrite V. reflexivity.
Qed.

Lemma compute_f_transparent_witness :
  evaluate_each step_model [-1; 2]%float [3%float]
  = step_model_where (Array [-1; 2]%float) [3%float] /\
  (step_model (Array [-1; 2]%float) [3%float] = Raise ValueError ->
   compute_f step_model [-1; 2]%float [3%float]
   = step_model_where (Array [-1; 2]%float) [3%float] /\
   compute_f step_model [-1; 2]%float [3%float]
   = compute_f step_model_where [-1; 2]%float [3%float] /\
   forall pow libm_pow np_sum y sy weights,
     Chi2Regression_call pow libm_pow np_sum
       (MkChi2Regression step_model [-1; 2]%float y sy weights) [3%float]
     = Chi2Regression_call pow libm_pow np_sum
         (MkChi2Regression step_model_where [-1; 2]%float y sy weights) [3%float]).
Proof.
  apply (proj1 compute_f_transparent step_model step_model_where
           (fun v => if (0 <? v)%float then 3%float else 0%float)
           [-1; 2]%float [3%float]).
  - intros v _. eexists. split; reflexivity.
  - reflexivity.
Defined.

(** ** C10: the range of the candidates *)

(** C10, as stated, fails for nominal wavelengths that increase from a
    negative first one: with -1 and 1 the lower cut is below every comb
    wavelength, and the loop that generates them does not end, whatever the
    fuel, unless a mode number overflows. *)
Lemma get_true_wavel_negative_first :
  ((-1) <=? 1)%float = true /\
  np_take [(-1)%float; 1%float] [0; 1] = Ok [(-1)%float; 1%float] /\
  forall fuel,
    get_true_wavel fuel [(-1)%float; 1%float] [0; 1] = OutOfFuel \/
    get_true_wavel fuel [(-1)%float; 1%float] [0; 1] = Raise OverflowError.
Proof.
  split; [reflexivity|]. split; [reflexivity|]. intros fuel.
  unfold get_true_wavel.
  change (np_take [(-1)%float; 1%float] [0; 1]) with (Ok [(-1)%float; 1%float]).
  cbn [bind]. unfold true_wavel_candidates.
  change (py_index [(-1)%float; 1%float] 0) with (Ok (-1)%float).
  change (py_index [(-1)%float; 1%float] (-1)) with (Ok 1%float).
  destruct true_wavel_0_1 as [-> ->]. cbn [bind].
  destruct (gen_true_wavel_never (-1)%float
              (fun w => negative_below_nonneg (lower_cut (-1)) w eq_refl) fuel
              [(484317379.64458805%float, 0); (148485615.65131253%float, 1)] 1) as [E|E].
  - lia.
  - right; right. do 2 eexists. vm_compute. reflexivity.
  - rewrite E. left. reflexivity.
  - rewrite E. right. reflexivity.
Qed.

(** C10 (amended): the matcher takes the first nominal wavelength of the
    peaks as the minimum of the range and the last one as its maximum, and
    nothing else of the array decides the candidates.  When the first one is
    a normal positive float, from [2^-1022] on and below [+inf], and is not
    above the last one, enough fuel makes the list of candidates not empty
    and the matching total: one match per peak.  For the input 2e8, 1e8,
    whose first wavelength is above the last one, the list of candidates is
    empty and the minimum over it raises a [ValueError]. *)
Theorem get_true_wavel_range :
  (forall fuel first rest,
      py_index (first :: rest) 0 = Ok first /\
      py_index (first :: rest) (-1) = Ok (last rest first) /\
      true_wavel_candidates fuel (first :: rest)
      = true_wavel_candidates fuel [first; last rest first]) /\
  (forall data_wavel_given peak_locs first rest,
      np_take data_wavel_given peak_locs = Ok (first :: rest) ->
      (0x1p-1022 <=? first)%float = true ->
      (first <? infinity)%float = true ->
      (first <=? last rest first)%float = true ->
      exists fuel0, forall fuel, (fuel0 <= fuel)%nat ->
        exists wavel_true matches,
          true_wavel_candidates fuel (first :: rest) = Ok wavel_true /\
          wavel_true <> [] /\
          get_true_wavel fuel data_wavel_given peak_locs = Ok matches /\
          length matches = length peak_locs) /\
  (exists data_wavel_given peak_locs first last,
      np_take data_wavel_given peak_locs = Ok [first; last] /\
      (last <? first)%float = true /\
      forall fuel,
        true_wavel_candidates fuel [first; last] = Ok [] /\
        get_true_wavel fuel data_wavel_given peak_locs = Raise ValueError).
Proof.
  split; [|split].
  - intros fuel first rest. split; [apply py_index_first|]. split; [apply py_index_last|].
    unfold true_wavel_candidates.
    rewrite !py_index_first, py_index_last.
    change (py_index [first; last rest first] (-1)) with (Ok (last rest first)).
    reflexivity.
  - intros data peaks first rest T N I Le.
    destruct (cuts_ordered first (last rest first) N I Le) as [L U].
    destruct (true_wavel_candidates_total first rest L U) as (fuel0 & F).
    exists fuel0. intros fuel Hf. destruct (F fuel Hf) as (cands & C & NE).
    destruct (get_true_wavel_succeeds fuel data peaks (first :: rest) cands T C NE)
      as (matches & M & Len & _).
    exists cands, matches. repeat split; auto.
    rewrite Len. eapply np_take_length. exact T.
  - exists [2e8%float; 1e8%float], [0; 1], 2e8%float, 1e8%float.
    split; [reflexivity|]. split; [reflexivity|].
    intros fuel. destruct fuel; split; vm_compute; reflexivity.
Qed.

Lemma get_true_wavel_range_witness :
  exists fuel0, forall fuel, (fuel0 <= fuel)%nat ->
    exists wavel_true matches,
      true_wavel_candidates fuel [5000%float; 5000.5%float; 5001%float] = Ok wavel_true /\
      wavel_true <> [] /\
      get_true_wavel fuel [4999%float; 5000%float; 5000.5%float; 5001%float] [1; 2; 3]
      = Ok matches /\
      length matches = length [1; 2; 3].
Proof.
  apply (proj1 (proj2 get_true_wavel_range)
           [4999%float; 5000%float; 5000.5%float; 5001%float] [1; 2; 3]
           5000%float [5000.5%float; 5001%float]).
  - reflexivity.
  - reflexivity.
  - reflexivity.
  - reflexivity.
Defined.

(** * Further properties of the module *)

(** ** Indexing, loops and broadcasting *)

Lemma py_index_outcome {A : Type} (a : list A) i :
  (exists x, py_index a i = Ok x) \/ py_index a i = Raise IndexError.
Proof.
  unfold py_index.
  destruct ((0 <=? (if i <? 0 then i + Z.of_nat (length a) else i)) &&
            ((if i <? 0 then i + Z.of_nat (length a) else i) <? Z.of_nat (length a)));
    [|auto].
  destruct (nth_error a _); eauto.
Qed.

Lemma py_index_out_of_range {A : Type} (a : list A) i :
  i < - Z.of_nat (length a) \/ Z.of_nat (length a) <= i -> py_index a i = Raise IndexError.
Proof.
  intros H. unfold py_index.
  destruct (Z.ltb_spec i 0) as [N|N].
  - destruct (Z.leb_spec 0 (i + Z.of_nat (length a))) as [P|P]; [|reflexivity].
    destruct (Z.ltb_spec (i + Z.of_nat (length a)) (Z.of_nat (length a))); [lia|].
    lia.
  - destruct (Z.leb_spec 0 i) as [_|?]; [|lia].
    destruct (Z.ltb_spec i (Z.of_nat (length a))); [lia|reflexivity].
Qed.

Lemma np_take_out_of_range {A : Type} (a : list A) idx p :
  In p idx -> (p < - Z.of_nat (length a) \/ Z.of_nat (length a) <= p) ->
  np_take a idx = Raise IndexError.
Proof.
  intros Hp R. unfold np_take. induction idx as [|i idx IH]; [contradiction|].
  cbn [for_each]. destruct (py_index_outcome a i) as [(x & E)|E]; rewrite E; cbn [bind].
  - destruct Hp as [->|Hp].
    + rewrite (py_index_out_of_range a p R) in E. discriminate.
    + rewrite (IH Hp). reflexivity.
  - reflexivity.
Qed.

Lemma for_each_In {A B : Type} (body : A -> outcome B) l res :
  for_each body l = Ok res ->
  forall b, In b res -> exists a, In a l /\ body a = Ok b.
Proof.
  revert res. induction l as [|a l IH]; simpl; intros res.
  - intros [= <-] b [].
  - destruct (body a) as [b0| |] eqn:Hb; simpl; try discriminate.
    destruct (for_each body l) as [bs| |]; simpl; try discriminate.
    intros [= <-] b [<-|Hin].
    + exists a. auto.
    + destruct (IH bs eq_refl b Hin) as (a' & Ha & E). exists a'. auto.
Qed.

Lemma for_each_raise {A B : Type} (body : A -> outcome B) before a after e :
  (forall x, In x before -> exists b, body x = Ok b) ->
  body a = Raise e ->
  for_each body (before ++ a :: after) = Raise e.
Proof.
  intros H R. induction before as [|x before IH]; cbn [app for_each].
  - rewrite R. reflexivity.
  - destruct (H x (or_introl eq_refl)) as (b & ->). cbn [bind].
    rewrite IH by (intros y Hy; apply H; right; exact Hy). reflexivity.
Qed.

Lemma length_py_slice {A : Type} (a : list A) start stop :
  Z.of_nat (length (py_slice a start stop))
  = Z.max 0 (Z.min (slice_index (Z.of_nat (length a)) stop
                    - slice_index (Z.of_nat (length a)) start)
               (Z.of_nat (length a) - slice_index (Z.of_nat (length a)) start)).
Proof.
  unfold py_slice. rewrite length_firstn, length_skipn.
  assert (0 <= slice_index (Z.of_nat (length a)) start).
  { unfold slice_index. destruct (start <? 0) eqn:E; [lia|]. apply Z.ltb_ge in E. lia. }
  lia.
Qed.

Lemma length_zip_with {A B C : Type} (op : A -> B -> C) a b :
  length a = length b -> length (zip_with op a b) = length a.
Proof.
  revert b. induction a as [|x a IH]; intros [|y b]; simpl; try discriminate; auto.
Qed.

Lemma broadcast_same_length op a b :
  length a = length b -> broadcast op a b = Ok (zip_with op a b).
Proof. intros H. unfold broadcast. rewrite H, Nat.eqb_refl. reflexivity. Qed.

Lemma broadcast_mismatch op a b :
  length a <> length b -> length a <> 1%nat -> length b <> 1%nat ->
  broadcast op a b = Raise ValueError.
Proof.
  intros H A B. unfold broadcast.
  destruct (Nat.eqb_spec (length a) (length b)) as [?|_]; [contradiction|].
  destruct a as [|x [|x' a]], b as [|y [|y' b]]; simpl in *; congruence.
Qed.

(** ** The wavelength matcher *)

(** X1: with no peak at all [get_true_wavel] raises [IndexError] (from
    [wavel_given[0]] on the empty selection), and so it does when a peak
    location is not an index of the wavelength array, that is, not within
    [-len, len). *)
Theorem get_true_wavel_index_error :
  (forall fuel data_wavel_given, get_true_wavel fuel data_wavel_given [] = Raise IndexError) /\
  (forall fuel data_wavel_given peak_locs p,
      In p peak_locs ->
      p < - Z.of_nat (length data_wavel_given) \/ Z.of_nat (length data_wavel_given) <= p ->
      get_true_wavel fuel data_wavel_given peak_locs = Raise IndexError).
Proof.
  split.
  - intros fuel data. reflexivity.
  - intros fuel data peaks p Hp R. unfold get_true_wavel.
    rewrite (np_take_out_of_range data peaks p Hp R). reflexivity.
Qed.

Lemma match_true_wavel_In cands lambd c :
  (forall x, In x cands -> good_wavel (fst x)) ->
  match_true_wavel cands lambd = Ok c -> In c cands.
Proof.
  intros G M. destruct cands as [|c0 cs]; [discriminate|].
  destruct (match_true_wavel_first (c0 :: cs) lambd ltac:(discriminate) G)
    as (l1 & c' & l2 & E & M' & _).
  assert (c = c') by congruence. subst c'. rewrite E.
  apply in_or_app. right. left. reflexivity.
Qed.

(** X2: every row [[w, n]] that [get_true_wavel] returns is a comb mode:
    [n] is the float of a mode number [m >= 0] and [w] is [true_wavel(m)], a
    finite wavelength that is not negative and lies below the upper cut
    [wavel_given[-1] * (1 + 0.001)]; there is one row per peak. *)
Theorem get_true_wavel_matches fuel data_wavel_given peak_locs wavel_given matches :
  np_take data_wavel_given peak_locs = Ok wavel_given ->
  get_true_wavel fuel data_wavel_given peak_locs = Ok matches ->
  exists wavel_given_max,
    py_index wavel_given (-1) = Ok wavel_given_max /\
    length matches = length peak_locs /\
    forall w nf,
      In (w, nf) matches ->
      (w <? upper_cut wavel_given_max)%float = true /\
      nonneg w /\ finite w /\
      exists n, 0 <= n /\ nf = Z2float n /\ true_wavel n = Ok w.
Proof.
  intros T H. unfold get_true_wavel in H. rewrite T in H. cbn [bind] in H.
  inv_bind H. rename v into cands.
  pose proof (true_wavel_candidates_good _ _ _ E) as G.
  destruct (true_wavel_candidates_inv _ _ _ E)
    as (wmin & wmax & w0 & w1 & gen & _ & Hmax & H0 & H1 & Hgen & Ec).
  exists wmax. split; [exact Hmax|]. split.
  { rewrite (for_each_length _ _ _ H). eapply np_take_length. exact T. }
  intros w nf Hin.
  destruct (for_each_In _ _ _ H _ Hin) as (lambd & _ & M).
  pose proof (match_true_wavel_In _ _ _ G M) as Hc.
  destruct (G _ Hc) as [N F]. rewrite Ec in Hc. apply cut_and_reverse_In in Hc.
  destruct Hc as ([w' n] & Hr & Eq & L). simpl in Eq, L. injection Eq as -> ->.
  split; [exact L|]. split; [exact N|]. split; [exact F|].
  assert (M' : mode_rows gen).
  { eapply gen_true_wavel_modes; [| |exact Hgen]; [|reflexivity].
    intros [|[|[|j]]] w'' m E'; simpl in E'; try discriminate; injection E' as <- <-; auto. }
  destruct (In_nth_error _ _ Hr) as (i & Hi).
  destruct (M' i w' n Hi) as [-> W]. exists (Z.of_nat i). split; [lia|]. auto.
Qed.

Lemma get_true_wavel_matches_witness :
  exists wavel_given_max,
    py_index tie_wavel (-1) = Ok wavel_given_max /\
    length tie_candidates = length [0; 1] /\
    forall w nf,
      In (w, nf) tie_candidates ->
      (w <? upper_cut wavel_given_max)%float = true /\
      nonneg w /\ finite w /\
      exists n, 0 <= n /\ nf = Z2float n /\ true_wavel n = Ok w.
Proof.
  apply (get_true_wavel_matches 10 tie_wavel [0; 1] tie_wavel tie_candidates).
  - reflexivity.
  - vm_compute. reflexivity.
Defined.

Lemma lower_cut_not_negative first :
  (first <? 0)%float = false -> (lower_cut first <? 0)%float = false.
Proof.
  intros H. rewrite FloatAxioms.ltb_spec in *. unfold lower_cut. rewrite mul_spec.
  change (Prim2SF (1 - 0.001)) with (S754_finite false 8998192055486251 (-53)).
  change (Prim2SF 0) with (S754_zero false) in *.
  destruct (Prim2SF first) as [[]|[]| |[] m e]; try reflexivity; try discriminate.
  pose proof (SFmul_nonneg (S754_finite false m e) (S754_finite false 8998192055486251 (-53))
                8998192055486251 (-53)) as N.
  destruct N as [E|[E|(m' & e' & E)]]; [right; right; eauto|reflexivity| | |];
    unfold SF64mul; rewrite E; reflexivity.
Qed.

Lemma upper_cut_nan x : is_nan x = true -> is_nan (upper_cut x) = true.
Proof.
  rewrite !is_nan_spec. unfold upper_cut. rewrite mul_spec.
  destruct (Prim2SF x); try discriminate. reflexivity.
Qed.

Lemma cut_and_reverse_nan wmax gen : is_nan wmax = true -> cut_and_reverse wmax gen = [].
Proof.
  intros N. unfold cut_and_reverse.
  assert (E : forall l : list (float * float),
             filter (fun row => (fst row <? upper_cut wmax)%float) l = []).
  { induction l as [|r l IH]; [reflexivity|]. simpl.
    rewrite (ltb_nan_r (fst r) _ (upper_cut_nan wmax N)). exact IH. }
  rewrite E. reflexivity.
Qed.

(** X3: when the nominal wavelength of the last peak is NaN, and that of
    the first peak is not negative, the comparison with the upper cut keeps
    no candidate: once the generation loop has ended (for every fuel from
    some bound on), the candidate list is empty and [get_true_wavel] raises
    [ValueError], the [min] of an empty sequence. *)
Theorem get_true_wavel_nan data_wavel_given peak_locs first rest :
  np_take data_wavel_given peak_locs = Ok (first :: rest) ->
  is_nan (last rest first) = true ->
  (first <? 0)%float = false ->
  exists fuel0, forall fuel, (fuel0 <= fuel)%nat ->
    true_wavel_candidates fuel (first :: rest) = Ok [] /\
    get_true_wavel fuel data_wavel_given peak_locs = Raise ValueError.
Proof.
  intros T N P. pose proof (lower_cut_not_negative first P) as L.
  destruct true_wavel_0_1 as [H0 H1].
  destruct (gen_true_wavel_terminates first L (Z.to_nat (mode_limit - 1))
              [(484317379.64458805%float, 0); (148485615.65131253%float, 1)] 1)
    as (fuel0 & F); [lia| |exact H1|].
  { assert (1 <= mode_limit) by (vm_compute; discriminate). lia. }
  exists fuel0. intros fuel Hf. destruct (F fuel Hf) as (gen & G).
  assert (C : true_wavel_candidates fuel (first :: rest) = Ok []).
  { unfold true_wavel_candidates.
    rewrite py_index_first, py_index_last, H0, H1. cbn [bind]. rewrite G. cbn [bind].
    rewrite (cut_and_reverse_nan _ _ N). reflexivity. }
  split; [exact C|].
  rewrite (get_true_wavel_unfold _ _ _ _ _ T C). reflexivity.
Qed.

Lemma get_true_wavel_nan_witness :
  exists fuel0, forall fuel, (fuel0 <= fuel)%nat ->
    true_wavel_candidates fuel [5000%float; nan] = Ok [] /\
    get_true_wavel fuel [4999%float; 5000%float; nan] [1; 2] = Raise ValueError.
Proof.
  apply (get_true_wavel_nan [4999%float; 5000%float; nan] [1; 2] 5000%float [nan]).
  - reflexivity.
  - reflexivity.
  - reflexivity.
Defined.

(** ** The peak fitter *)

Lemma slice_index_range len i : 0 <= len -> 0 <= slice_index len i <= len.
Proof. intros H. unfold slice_index. destruct (Z.ltb_spec i 0); lia. Qed.

Lemma length_py_slice_clamped {A : Type} (a : list A) start stop :
  Z.of_nat (length (py_slice a start stop))
  = Z.max 0 (slice_index (Z.of_nat (length a)) stop
             - slice_index (Z.of_nat (length a)) start).
Proof.
  rewrite length_py_slice.
  pose proof (slice_index_range (Z.of_nat (length a)) start ltac:(lia)).
  pose proof (slice_index_range (Z.of_nat (length a)) stop ltac:(lia)).
  lia.
Qed.

Lemma broadcast_one_l op a b : length a = 1%nat -> exists l, broadcast op a b = Ok l.
Proof.
  intros H. destruct a as [|x [|? ?]]; try discriminate. unfold broadcast.
  destruct (Nat.eqb (length [x]) (length b)); eauto.
Qed.

Lemma broadcast_one_r op a b : length b = 1%nat -> exists l, broadcast op a b = Ok l.
Proof.
  intros H. destruct b as [|y [|? ?]]; try discriminate. unfold broadcast.
  destruct (Nat.eqb (length a) (length [y])); [eauto|].
  destruct a as [|x [|? ?]]; eauto.
Qed.

Lemma broadcast_length op a b l :
  broadcast op a b = Ok l ->
  length l = length a /\ (length b = length a \/ length b = 1%nat) \/
  length l = length b /\ length a = 1%nat.
Proof.
  unfold broadcast. destruct (Nat.eqb_spec (length a) (length b)) as [E|E].
  - intros [= <-]. left. rewrite length_zip_with by exact E. auto.
  - destruct a as [|x [|x' a]], b as [|y [|y' b]]; intros [= <-];
      simpl; rewrite ?length_map;
      first [left; split; [reflexivity|]; first [left; reflexivity|right; reflexivity]
            |right; split; reflexivity].
Qed.

Section FitPeaksWindows.

Variable pow : float -> float -> float.
Variable libm_pow : float -> float -> float.
Variable np_exp : float -> float.
Variable np_sum : list float -> float.
Variable chi2_sf : float -> Z -> float.
Variable migrad : forall X : Type, (X -> outcome float) -> X -> outcome (minuit X).

Local Abbreviation super_gauss := (super_gauss pow libm_pow np_exp).
Local Abbreviation model_chi := (model_chi pow libm_pow np_exp np_sum).
Local Abbreviation peak_minuit := (peak_minuit pow libm_pow np_exp np_sum migrad).
Local Abbreviation fit_peak := (fit_peak pow libm_pow np_exp np_sum chi2_sf migrad).
Local Abbreviation fit_peaks := (fit_peaks pow libm_pow np_exp np_sum chi2_sf migrad).

(** X4: with no window [fit_peaks] returns the empty array, whatever
    [print] is; an exception raised by the minimisation of a window, after
    windows that were fitted, leaves [fit_peaks] with that exception: no row
    is returned. *)
Theorem fit_peaks_errors data_spec data_spec_err :
  (forall print, fit_peaks data_spec data_spec_err [] print = Ok []) /\
  (forall before window after e,
      (forall w, In w before -> exists m, peak_minuit data_spec data_spec_err w = Ok m) ->
      peak_minuit data_spec data_spec_err window = Raise e ->
      fit_peaks data_spec data_spec_err (before ++ window :: after) false = Raise e).
Proof.
  split; [reflexivity|].
  intros before window after e H R. unfold fit_peaks, fit_peaks_list.
  rewrite (for_each_raise _ before window after e); [reflexivity| |].
  - intros w Hw. destruct (H w Hw) as (m & Hm). unfold fit_peak. rewrite Hm.
    cbn [bind]. eauto.
  - unfold fit_peak. rewrite R. reflexivity.
Qed.

(** [super_gauss] raises when [sigma ** 2] overflows, and returns one value
    per pixel otherwise. *)
Lemma super_gauss_outcome x A mu sigma P C b :
  (power_overflows libm_pow sigma 2 = true ->
   super_gauss x A mu sigma P C b = Raise OverflowError) /\
  (power_overflows libm_pow sigma 2 = false ->
   exists y_fit, super_gauss x A mu sigma P C b = Ok y_fit /\ length y_fit = length x).
Proof.
  unfold super_gauss, float_pow, power_overflows.
  change (Z2float 2) with 2%float.
  destruct (is_finite sigma && is_infinity (libm_pow sigma 2)); split; intros H;
    try discriminate; cbn [bind]; [reflexivity|].
  eexists. split; [reflexivity|]. apply length_map.
Qed.

(** The objective on arrays of given lengths. *)
Lemma model_chi_lengths (x : list Z) (y ey : list float) p :
  length ey = length y ->
  (power_overflows libm_pow (p_sigma p) 2 = true ->
   model_chi x y ey p = Raise OverflowError) /\
  (power_overflows libm_pow (p_sigma p) 2 = false ->
   (length y = length x \/ length y = 1%nat \/ length x = 1%nat ->
    exists chi2, model_chi x y ey p = Ok chi2) /\
   (length y <> length x -> length y <> 1%nat -> length x <> 1%nat ->
    model_chi x y ey p = Raise ValueError)).
Proof.
  intros E. unfold model_chi.
  destruct (super_gauss_outcome x (p_A p) (p_mu p) (p_sigma p) (p_P p) (p_C p) 0) as [O N].
  split.
  - intros H. rewrite (O H). reflexivity.
  - intros H. destruct (N H) as (y_fit & -> & L). cbn [bind]. split.
    + intros C.
      assert (D : exists d, broadcast PrimFloat.sub y y_fit = Ok d).
      { destruct C as [C|[C|C]].
        - rewrite broadcast_same_length by congruence. eauto.
        - apply broadcast_one_l. exact C.
        - apply broadcast_one_r. congruence. }
      destruct D as (d & D). rewrite D. cbn [bind].
      assert (Q : exists q, broadcast PrimFloat.div d ey = Ok q).
      { destruct (broadcast_length _ _ _ _ D) as [[Ld _]|[Ld Ly]].
        - rewrite broadcast_same_length by congruence. eauto.
        - apply broadcast_one_r. congruence. }
      destruct Q as (q & ->). cbn [bind]. eauto.
    + intros C1 C2 C3. rewrite broadcast_mismatch by congruence. reflexivity.
Qed.

(** X5: the objective [model_chi] of a window [index_start, index_end) on a
    spectrum of [len] pixels with as many uncertainties.  The pixel array
    [np.arange(index_start, index_end)] has [max(0, index_end - index_start)]
    items; the slices [data_spec[index_start:index_end]] have
    [max(0, hi - lo)] items, for the bounds that Python clamps to the
    spectrum, a negative bound counting from the end ([slice_index]).  When
    [sigma ** 2] overflows the objective raises [OverflowError].  Otherwise
    it has a value when the two numbers are equal or one of them is 1
    (NumPy broadcasts), and raises [ValueError] in every other case.  So it
    has a value for a window inside the spectrum, counted from the start or
    from the end, and raises [ValueError] for a window of two pixels or
    more, and no more than [len], that starts below 0 and ends at 0 or
    above (the slice is empty), and for a window that runs past the last
    pixel with two pixels or more inside. *)
Theorem model_chi_window data_spec data_spec_err index_start index_end p :
  length data_spec_err = length data_spec ->
  let x := np_arange index_start index_end in
  let y := py_slice data_spec index_start index_end in
  let ey := py_slice data_spec_err index_start index_end in
  let len := Z.of_nat (length data_spec) in
  let n_window := Z.max 0 (index_end - index_start) in
  let n_slice := Z.max 0 (slice_index len index_end - slice_index len index_start) in
  Z.of_nat (length x) = n_window /\
  Z.of_nat (length y) = n_slice /\
  (power_overflows libm_pow (p_sigma p) 2 = true ->
   model_chi x y ey p = Raise OverflowError) /\
  (power_overflows libm_pow (p_sigma p) 2 = false ->
   (n_slice = n_window \/ n_slice = 1 \/ n_window = 1 ->
    exists chi2, model_chi x y ey p = Ok chi2) /\
   (n_slice <> n_window -> n_slice <> 1 -> n_window <> 1 ->
    model_chi x y ey p = Raise ValueError) /\
   (0 <= index_start <= index_end -> index_end <= len ->
    exists chi2, model_chi x y ey p = Ok chi2) /\
   (- len <= index_start <= index_end -> index_end < 0 ->
    exists chi2, model_chi x y ey p = Ok chi2) /\
   (index_start < 0 <= index_end -> 2 <= index_end - index_start <= len ->
    y = [] /\ model_chi x y ey p = Raise ValueError) /\
   (0 <= index_start -> index_start + 2 <= len -> len < index_end ->
    model_chi x y ey p = Raise ValueError)).
Proof.
  intros E x y ey len n_window n_slice.
  assert (Lx : Z.of_nat (length x) = n_window) by apply np_arange_length.
  assert (Ly : Z.of_nat (length y) = n_slice) by apply length_py_slice_clamped.
  assert (Ley : length ey = length y).
  { apply Nat2Z.inj. unfold ey, y. rewrite !length_py_slice_clamped, E. reflexivity. }
  destruct (model_chi_lengths x y ey p Ley) as [O N].
  split; [exact Lx|]. split; [exact Ly|]. split; [exact O|].
  intros H. destruct (N H) as [Val Err].
  assert (S : forall i, slice_index len i = if i <? 0 then Z.max 0 (i + len) else Z.min i len)
    by reflexivity.
  split; [|split; [|split; [|split; [|split]]]].
  - intros C. apply Val. lia.
  - intros C1 C2 C3. apply Err; lia.
  - intros [H0 H1] H2. apply Val. left. apply Nat2Z.inj. rewrite Lx, Ly.
    unfold n_slice, n_window. rewrite !S.
    destruct (Z.ltb_spec index_start 0), (Z.ltb_spec index_end 0); lia.
  - intros [H0 H1] H2. apply Val. left. apply Nat2Z.inj. rewrite Lx, Ly.
    unfold n_slice, n_window. rewrite !S.
    destruct (Z.ltb_spec index_start 0), (Z.ltb_spec index_end 0); lia.
  - intros [H0 H1] [H2 H3].
    assert (Z0 : n_slice = 0).
    { unfold n_slice. rewrite !S.
      destruct (Z.ltb_spec index_start 0), (Z.ltb_spec index_end 0); lia. }
    split; [destruct y; [reflexivity|cbn [length] in Ly; lia]|].
    apply Err; unfold n_window in *; lia.
  - intros H0 H1 H2.
    assert (Z0 : n_slice = len - index_start).
    { unfold n_slice. rewrite !S.
      destruct (Z.ltb_spec index_start 0), (Z.ltb_spec index_end 0); lia. }
    apply Err; unfold n_window in *; lia.
Qed.

End FitPeaksWindows.

Lemma model_chi_window_witness :
  Z.of_nat (length (np_arange (-2) 3)) = Z.max 0 (3 - -2) /\
  Z.of_nat (length (py_slice example_spec (-2) 3))
  = Z.max 0 (slice_index (Z.of_nat (length example_spec)) 3
             - slice_index (Z.of_nat (length example_spec)) (-2)) /\
  py_slice example_spec (-2) 3 = [] /\
  model_chi square_pow square_pow linear_exp left_sum (np_arange (-2) 3)
    (py_slice example_spec (-2) 3) (py_slice example_err (-2) 3)
    (Params 0.87 2 (-1.8) 1.3 0.12) = Raise ValueError.
Proof.
  pose proof (model_chi_window square_pow square_pow linear_exp left_sum example_spec
                example_err (-2) 3 (Params 0.87 2 (-1.8) 1.3 0.12) eq_refl) as W.
  cbv zeta in W. destruct W as (Lx & Ly & _ & W).
  split; [exact Lx|]. split; [exact Ly|].
  apply (proj1 (proj2 (proj2 (proj2 (proj2 (W eq_refl)))))); simpl; lia.
Defined.

(** A peak at pixel 3 with peaks ten pixels apart: its window starts at
    pixel -2, and the fit of that window raises as soon as the minimiser
    evaluates the objective. *)
Example fit_peaks_edge_window :
  get_peak_index_ranges [3; 13] nan = Ok [(-2, 8); (8, 18)] /\
  fit_peaks square_pow square_pow linear_exp left_sum unit_chi2_sf stalled_migrad comb_spec comb_err
    [(-2, 8); (8, 18)] false = Raise ValueError /\
  exists rows,
    fit_peaks square_pow square_pow linear_exp left_sum unit_chi2_sf stalled_migrad comb_spec
      comb_err
      [(8, 18)] false = Ok rows.
Proof.
  split; [vm_compute; reflexivity|]. split; [vm_compute; reflexivity|].
  eexists. vm_compute. reflexivity.
Qed.

(** ** The calibration polynomials and [compute_f] *)

Lemma calib_poly_func_wrong_arity pow libm_pow degree f x par :
  get_calib_poly_func pow libm_pow degree = Ok f ->
  Z.of_nat (length par) <> degree + 1 ->
  f x par = Raise TypeError.
Proof.
  unfold get_calib_poly_func. intros H L.
  assert (D : 1 <= degree <= 9).
  { destruct (existsb (Z.eqb degree) (np_arange 1 10)) eqn:E; [|discriminate].
    apply degree_cases. exact E. }
  assert (D' : degree = 1 \/ degree = 2 \/ degree = 3 \/ degree = 4 \/ degree = 5 \/
               degree = 6 \/ degree = 7 \/ degree = 8 \/ degree = 9) by lia.
  clear D.
  destruct D' as [D|[D|[D|[D|[D|[D|[D|[D|D]]]]]]]]; subst degree;
    cbv - [calib_poly_func_1 calib_poly_func_2 calib_poly_func_3 calib_poly_func_4
             calib_poly_func_5 calib_poly_func_6 calib_poly_func_7 calib_poly_func_8
             calib_poly_func_9] in H;
    injection H as <-;
    repeat (destruct par as [|? par]; try reflexivity);
    simpl in L; lia.
Qed.

(** X6: the calibration polynomial of a degree raises [TypeError] exactly
    when it is called with a number of coefficients other than
    [degree + 1], on a number and on an array alike. *)
Theorem get_calib_poly_func_arity pow libm_pow degree f x par :
  get_calib_poly_func pow libm_pow degree = Ok f ->
  (f x par = Raise TypeError <-> Z.of_nat (length par) <> degree + 1).
Proof.
  intros F. split.
  - intros R L. destruct x as [v|v|l].
    + rewrite (get_calib_poly_func_float pow libm_pow degree f par v F L) in R.
      destruct (some_power_overflows libm_pow v degree); discriminate.
    + rewrite (get_calib_poly_func_float64 pow libm_pow degree f par v F L) in R.
      discriminate.
    + rewrite (get_calib_poly_func_array pow libm_pow degree f par l F L) in R.
      discriminate.
  - apply (calib_poly_func_wrong_arity pow libm_pow degree f x par F).
Qed.

Lemma get_calib_poly_func_arity_witness :
  example_poly (Array [1; 2; 3]%float) [1; 2]%float = Raise TypeError
  <-> Z.of_nat (length [1; 2]%float) <> 2 + 1.
Proof.
  apply (get_calib_poly_func_arity square_pow square_pow 2 example_poly
           (Array [1; 2; 3]%float) [1; 2]%float).
  reflexivity.
Defined.

(** X7: [compute_f] returns what [f(x, *par)] returns and lets every
    exception but [ValueError] through.  On a [ValueError] it calls [f] on
    the items of [x] in order: when every call returns a number the result
    is the array of these numbers, and the first call that raises decides
    the exception of [compute_f], a [ValueError] included. *)
Theorem compute_f_fallback (f : py_function) x par :
  (forall v, f (Array x) par = Ok v -> compute_f f x par = Ok v) /\
  (forall e, f (Array x) par = Raise e -> e <> ValueError -> compute_f f x par = Raise e) /\
  (forall g : float -> float,
      f (Array x) par = Raise ValueError ->
      (forall v, In v x ->
                 exists r, f (NpScalar v) par = Ok r /\ number_value r = Some (g v)) ->
      compute_f f x par = Ok (Array (map g x))) /\
  (forall before v after e,
      f (Array x) par = Raise ValueError ->
      x = before ++ v :: after ->
      (forall u, In u before -> exists r, f (NpScalar u) par = Ok r) ->
      f (NpScalar v) par = Raise e ->
      compute_f f x par = Raise e).
Proof.
  split; [|split; [|split]].
  - intros v H. unfold compute_f. rewrite H. reflexivity.
  - intros e H N. unfold compute_f. rewrite H. destruct e; try reflexivity. contradiction.
  - intros g H S. unfold compute_f. rewrite H.
    apply (evaluate_each_numbers f g x par S).
  - intros before v after e H -> S R. unfold compute_f. rewrite H. unfold evaluate_each.
    rewrite (for_each_raise (fun xi => f (NpScalar xi) par) before v after e S R).
    reflexivity.
Qed.

(** The function [step_model] raises [ValueError] on the array [-1, 2], and
    [compute_f] returns the values item by item, as [np.where] does. *)
Example compute_f_step_model :
  step_model (Array [-1; 2]%float) [3%float] = Raise ValueError /\
  compute_f step_model [-1; 2]%float [3%float] = Ok (Array [0; 3]%float) /\
  compute_f step_model_where [-1; 2]%float [3%float] = Ok (Array [0; 3]%float) /\
  compute_f step_model [-1; 2]%float [3; 4]%float = Raise TypeError.
Proof. repeat split; reflexivity. Qed.

(** ** [Chi2Regression] and [fit_peak_positions] *)

Lemma mask_select_map (t : float -> bool) x (y : list float) :
  length y = length x ->
  mask_select (map t x) y
  = Ok (map snd (filter (fun p => t (fst p)) (combine x y))).
Proof.
  intros L. unfold mask_select. rewrite length_map, <- L, Nat.eqb_refl. f_equal.
  revert y L. induction x as [|a x IH]; intros [|b y] L; simpl in *; try discriminate;
    [reflexivity|].
  destruct (t a); simpl; rewrite IH by congruence; reflexivity.
Qed.

Lemma mask_select_mismatch mask y :
  length mask <> length y -> mask_select mask y = Raise IndexError.
Proof.
  intros L. unfold mask_select.
  destruct (Nat.eqb_spec (length mask) (length y)); [contradiction|reflexivity].
Qed.

Lemma filter_combine_self (t : float -> bool) x :
  map snd (filter (fun p => t (fst p)) (combine x x)) = filter t x.
Proof.
  induction x as [|a x IH]; [reflexivity|]. simpl. destruct (t a); simpl; congruence.
Qed.

Lemma length_filter_combine (t : float -> bool) x (y : list float) :
  length y = length x ->
  length (map snd (filter (fun p => t (fst p)) (combine x y))) = length (filter t x).
Proof.
  revert y. induction x as [|a x IH]; intros [|b y] L; simpl in *; try discriminate;
    [reflexivity|].
  destruct (t a); simpl; rewrite IH by congruence; reflexivity.
Qed.

Lemma Chi2Regression_init_bound_inv f x y sy weights lo hi self :
  let inside := fun v => ((lo <=? v) && (v <=? hi))%float in
  Chi2Regression_init f x y (Some sy) weights (Some (lo, hi)) = Ok self ->
  length y = length x /\ length sy = length x /\
  chi_f self = f /\
  chi_x self = filter inside x /\
  chi_y self = map snd (filter (fun p => inside (fst p)) (combine x y)) /\
  chi_sy self = map snd (filter (fun p => inside (fst p)) (combine x sy)) /\
  length (chi_y self) = length (chi_x self) /\
  length (chi_sy self) = length (chi_x self) /\
  chi_weights self = set_var_if_None weights (chi_x self).
Proof.
  intros inside.
  assert (X : mask_select (map inside x) x = Ok (filter inside x)).
  { rewrite mask_select_map by reflexivity. rewrite filter_combine_self. reflexivity. }
  unfold Chi2Regression_init. fold inside. rewrite X. cbn [bind].
  destruct (Nat.eq_dec (length y) (length x)) as [Ly|Ly];
    [|rewrite mask_select_mismatch by (rewrite length_map; congruence); discriminate].
  rewrite (mask_select_map inside x y Ly). cbn [bind].
  destruct (Nat.eq_dec (length sy) (length x)) as [Ls|Ls];
    [|rewrite mask_select_mismatch by (rewrite length_map; congruence); discriminate].
  rewrite (mask_select_map inside x sy Ls). cbn [bind].
  intros [= <-]. cbn [chi_f chi_x chi_y chi_sy chi_weights].
  repeat split; auto using length_filter_combine.
Qed.

Lemma filter_drops {A : Type} (t : A -> bool) (l : list A) v :
  In v l -> t v = false -> (length (filter t l) < length l)%nat.
Proof.
  induction l as [|a l IH]; [contradiction|]. intros [->|H] T; simpl.
  - rewrite T. pose proof (filter_length_le t l). lia.
  - specialize (IH H T). destruct (t a); simpl; lia.
Qed.

(** X8: [Chi2Regression] with a bound [(lo, hi)].  The points kept are
    those with [lo <= x <= hi], in their order, with the [y] and [sy] of the
    same positions; the weights are stored as given, they are not masked
    (the default is one weight 1 per point kept).  The construction succeeds
    exactly when [y] and [sy] have the length of [x]; otherwise, and when
    [sy] is left to its default [None], it raises [IndexError]. *)
Theorem Chi2Regression_init_bound f x y weights lo hi :
  let inside := fun v => ((lo <=? v) && (v <=? hi))%float in
  (forall sy self,
      Chi2Regression_init f x y (Some sy) weights (Some (lo, hi)) = Ok self ->
      length y = length x /\ length sy = length x /\
      chi_f self = f /\
      chi_x self = filter inside x /\
      (forall v, In v (chi_x self) -> (lo <=? v)%float = true /\ (v <=? hi)%float = true) /\
      chi_y self = map snd (filter (fun p => inside (fst p)) (combine x y)) /\
      chi_sy self = map snd (filter (fun p => inside (fst p)) (combine x sy)) /\
      length (chi_y self) = length (chi_x self) /\
      length (chi_sy self) = length (chi_x self) /\
      chi_weights self
      = match weights with
        | Some w => w
        | None => map (fun _ => 1%float) (chi_x self)
        end) /\
  (forall sy, length y = length x -> length sy = length x ->
              exists self, Chi2Regression_init f x y (Some sy) weights (Some (lo, hi))
                           = Ok self) /\
  (forall sy, length y <> length x \/ length sy <> length x ->
              Chi2Regression_init f x y (Some sy) weights (Some (lo, hi))
              = Raise IndexError) /\
  Chi2Regression_init f x y None weights (Some (lo, hi)) = Raise IndexError.
Proof.
  intros inside.
  assert (X : mask_select (map inside x) x = Ok (filter inside x)).
  { rewrite mask_select_map by reflexivity. rewrite filter_combine_self. reflexivity. }
  split; [|split; [|split]].
  - intros sy self I.
    destruct (Chi2Regression_init_bound_inv f x y sy weights lo hi self I)
      as (Ly & Ls & Hf & Hx & Hy & Hs & Ly' & Ls' & Hw).
    fold inside in Hx, Hy, Hs.
    repeat split; auto.
    + rewrite Hx in H. apply filter_In in H. destruct H as [_ H]. unfold inside in H.
      apply andb_true_iff in H. apply H.
    + rewrite Hx in H. apply filter_In in H. destruct H as [_ H]. unfold inside in H.
      apply andb_true_iff in H. apply H.
  - intros sy Ly Ls. unfold Chi2Regression_init. fold inside. rewrite X. cbn [bind].
    rewrite (mask_select_map inside x y Ly). cbn [bind].
    rewrite (mask_select_map inside x sy Ls). cbn [bind]. eauto.
  - intros sy H. unfold Chi2Regression_init. fold inside. rewrite X. cbn [bind].
    destruct (Nat.eq_dec (length y) (length x)) as [Ly|Ly];
      [|rewrite mask_select_mismatch by (rewrite length_map; congruence); reflexivity].
    rewrite (mask_select_map inside x y Ly). cbn [bind].
    destruct H as [H|H]; [contradiction|].
    rewrite mask_select_mismatch by (rewrite length_map; congruence). reflexivity.
  - unfold Chi2Regression_init. fold inside. rewrite X. cbn [bind].
    destruct (Nat.eq_dec (length y) (length x)) as [Ly|Ly].
    + rewrite (mask_select_map inside x y Ly). reflexivity.
    + rewrite mask_select_mismatch by (rewrite length_map; congruence). reflexivity.
Qed.

Lemma for_each_each {A B : Type} (body : A -> outcome B) l res :
  for_each body l = Ok res -> forall a, In a l -> exists b, body a = Ok b.
Proof.
  revert res. induction l as [|x l IH]; intros res H a []; subst; cbn [for_each] in H.
  - destruct (body a); try discriminate. eauto.
  - destruct (body x); try discriminate. cbn [bind] in H.
    destruct (for_each body l) eqn:E; try discriminate. apply (IH _ eq_refl a H0).
Qed.

Lemma column_inv a j l :
  column a j = Ok l -> a <> [] /\ for_each (fun row => py_index row j) a = Ok l.
Proof. destruct a; [discriminate|]. intros H. split; [discriminate|exact H]. Qed.

Lemma column_length a j l : column a j = Ok l -> length l = length a.
Proof. intros H. apply column_inv in H. eapply for_each_length. apply H. Qed.

Lemma column_rows a j l row :
  column a j = Ok l -> In row a -> 0 <= j -> j < Z.of_nat (length row).
Proof.
  intros C I J. apply column_inv in C. destruct C as [_ C].
  destruct (for_each_each _ _ _ C row I) as (v & P).
  destruct (Z_lt_ge_dec j (Z.of_nat (length row))) as [L|L]; [exact L|].
  rewrite py_index_out_of_range in P by lia. discriminate.
Qed.

Section Chi2Objective.

Variable pow : float -> float -> float.
Variable libm_pow : float -> float -> float.
Variable np_sum : list float -> float.
Variable chi2_sf : float -> Z -> float.
Variable migrad : forall X : Type, (X -> outcome float) -> X -> outcome (minuit X).

Local Abbreviation Chi2Regression_call := (Chi2Regression_call pow libm_pow np_sum).
Local Abbreviation fit_peak_positions := (fit_peak_positions pow libm_pow np_sum chi2_sf migrad).

Lemma Chi2Regression_call_pointwise (g : float -> float) self par :
  chi_f self (Array (chi_x self)) par = Ok (Array (map g (chi_x self))) ->
  length (chi_y self) = length (chi_x self) ->
  length (chi_sy self) = length (chi_x self) ->
  length (chi_weights self) = length (chi_x self) ->
  Chi2Regression_call self par
  = Ok (np_sum (chi2_terms pow g (chi_x self) (chi_y self) (chi_sy self)
                  (chi_weights self))).
Proof.
  intros P Ly Ls Lw. unfold Chi2Regression_call, compute_f.
  rewrite P. cbn [vop vdiv vpow bind lift2].
  assert (L1 : length (zip_with PrimFloat.sub (chi_y self) (map g (chi_x self)))
               = length (chi_x self))
    by (rewrite length_zip_with; rewrite ?length_map; congruence).
  rewrite broadcast_same_length by (rewrite length_map; exact Ly).
  cbn [vop vdiv vpow bind lift2].
  rewrite broadcast_same_length by (rewrite length_map; congruence).
  cbn [vop vdiv vpow bind lift2].
  rewrite broadcast_same_length
    by (rewrite length_zip_with; rewrite !length_map; congruence).
  reflexivity.
Qed.

Lemma Chi2Regression_call_mismatch (g : float -> float) self par :
  chi_f self (Array (chi_x self)) par = Ok (Array (map g (chi_x self))) ->
  length (chi_y self) <> length (chi_x self) ->
  length (chi_y self) <> 1%nat -> length (chi_x self) <> 1%nat ->
  Chi2Regression_call self par = Raise ValueError.
Proof.
  intros P Ly Y1 X1. unfold Chi2Regression_call, compute_f.
  rewrite P. cbn [vop vdiv vpow bind lift2].
  rewrite broadcast_mismatch; [reflexivity| | |]; rewrite ?length_map; congruence.
Qed.

(** One value of [y], or one point: NumPy broadcasts it. *)
Lemma Chi2Regression_call_one_y (g : float -> float) self par w :
  chi_f self (Array (chi_x self)) par = Ok (Array (map g (chi_x self))) ->
  chi_y self = [w] ->
  length (chi_sy self) = length (chi_x self) ->
  length (chi_weights self) = length (chi_x self) ->
  Chi2Regression_call self par
  = Ok (np_sum (chi2_terms pow g (chi_x self) (map (fun _ => w) (chi_x self))
                  (chi_sy self) (chi_weights self))).
Proof.
  intros P Y Ls Lw. unfold Chi2Regression_call, compute_f.
  rewrite P, Y. cbn [vop vdiv vpow bind lift2].
  assert (B : broadcast PrimFloat.sub [w] (map g (chi_x self))
              = Ok (zip_with PrimFloat.sub (map (fun _ => w) (chi_x self))
                      (map g (chi_x self)))).
  { rewrite zip_with_map. unfold broadcast. rewrite length_map.
    destruct (chi_x self) as [|a [|b l]]; reflexivity || (cbn; rewrite map_map; reflexivity). }
  rewrite B. cbn [vop vdiv vpow bind lift2].
  assert (L1 : length (zip_with PrimFloat.sub (map (fun _ => w) (chi_x self))
                         (map g (chi_x self))) = length (chi_x self))
    by (rewrite zip_with_map; apply length_map).
  rewrite broadcast_same_length by (rewrite length_map; congruence).
  cbn [vop vdiv vpow bind lift2].
  rewrite broadcast_same_length
    by (rewrite length_zip_with; rewrite !length_map; congruence).
  reflexivity.
Qed.

Lemma Chi2Regression_call_one_x (g : float -> float) self par m s :
  chi_f self (Array [m]) par = Ok (Array [g m]) ->
  chi_x self = [m] -> chi_sy self = [s] -> chi_weights self = [1%float] ->
  length (chi_y self) <> 1%nat ->
  Chi2Regression_call self par
  = Ok (np_sum (map (fun w => (1 * pow (w - g m) 2 / pow s 2)%float) (chi_y self))).
Proof.
  intros P X S W Y. unfold Chi2Regression_call, compute_f.
  rewrite X, P, S, W. cbn [vop vpow bind lift2 map].
  assert (B : forall op (a : list float) c, length a <> 1%nat ->
                broadcast op a [c] = Ok (map (fun v => op v c) a)).
  { intros op a c A. unfold broadcast.
    destruct a as [|u [|u' a]]; [reflexivity|destruct (A eq_refl)|reflexivity]. }
  assert (B' : forall op (b : list float) c, length b <> 1%nat ->
                broadcast op [c] b = Ok (map (op c) b)).
  { intros op b c A. unfold broadcast.
    destruct b as [|u [|u' b]]; [reflexivity|destruct (A eq_refl)|reflexivity]. }
  rewrite B by exact Y. cbn [vop vdiv vpow bind lift2].
  rewrite B' by (rewrite !length_map; exact Y). cbn [vop vdiv vpow bind lift2].
  rewrite B by (rewrite !length_map; exact Y). cbn [bind].
  rewrite !map_map. reflexivity.
Qed.

Lemma Chi2Regression_call_weights (g : float -> float) self par :
  chi_f self (Array (chi_x self)) par = Ok (Array (map g (chi_x self))) ->
  length (chi_y self) = length (chi_x self) ->
  length (chi_weights self) <> length (chi_x self) ->
  length (chi_weights self) <> 1%nat -> length (chi_x self) <> 1%nat ->
  Chi2Regression_call self par = Raise ValueError.
Proof.
  intros P Ly Lw W1 X1. unfold Chi2Regression_call, compute_f.
  rewrite P. cbn [vop vdiv vpow bind lift2].
  assert (L1 : length (zip_with PrimFloat.sub (chi_y self) (map g (chi_x self)))
               = length (chi_x self))
    by (rewrite length_zip_with; rewrite ?length_map; congruence).
  rewrite broadcast_same_length by (rewrite length_map; exact Ly).
  cbn [vop vdiv vpow bind lift2].
  rewrite broadcast_mismatch; [reflexivity| | |]; rewrite ?length_map; congruence.
Qed.

(** X9: for an object built without a bound from arrays of one length, and
    a model function that returns the values [g x_i] on the array [x], the
    call returns [np.sum] of the terms [w_i * (y_i - g x_i)**2 / sy_i**2],
    where an [sy] or [weights] left to its default is an array of ones. *)
Theorem Chi2Regression_value f (g : float -> float) x y sy weights self par :
  Chi2Regression_init f x y sy weights None = Ok self ->
  f (Array x) par = Ok (Array (map g x)) ->
  length y = length x ->
  length (set_var_if_None sy x) = length x ->
  length (set_var_if_None weights x) = length x ->
  Chi2Regression_call self par
  = Ok (np_sum (chi2_terms pow g x y (set_var_if_None sy x) (set_var_if_None weights x))).
Proof.
  intros I P Ly Ls Lw. unfold Chi2Regression_init in I. cbn [bind] in I.
  injection I as <-.
  rewrite (Chi2Regression_call_pointwise g); cbn [chi_f chi_x chi_y chi_sy chi_weights];
    auto.
Qed.

(** X10: the bound and the weights do not go together: when there is one
    weight per point and the bound drops a point, the weights are longer
    than the arrays kept and every call of the object raises [ValueError]
    (unless NumPy can broadcast: a single weight, or a single point kept). *)
Theorem Chi2Regression_bound_weights f (g : float -> float) x y sy w lo hi self par v :
  Chi2Regression_init f x y (Some sy) (Some w) (Some (lo, hi)) = Ok self ->
  f (Array (chi_x self)) par = Ok (Array (map g (chi_x self))) ->
  length w = length x ->
  In v x -> ((lo <=? v) && (v <=? hi))%float = false ->
  length w <> 1%nat -> length (chi_x self) <> 1%nat ->
  Chi2Regression_call self par = Raise ValueError.
Proof.
  intros I P Lw V T W1 X1.
  destruct (Chi2Regression_init_bound_inv f x y sy (Some w) lo hi self I)
    as (Ly & Ls & Hf & Hx & Hy & Hs & Ly' & Ls' & Hw).
  cbn [set_var_if_None] in Hw.
  pose proof (filter_drops (fun v => ((lo <=? v) && (v <=? hi))%float) x v V T) as D.
  rewrite <- Hx in D.
  apply (Chi2Regression_call_weights g); auto.
  - rewrite Hf. exact P.
  - rewrite Hw. lia.
  - rewrite Hw. exact W1.
Qed.

(** X11: what [fit_peak_positions] minimises.  The objective handed to the
    minimiser, started from [poly_degree + 1] ones, takes the vectors of
    [poly_degree + 1] coefficients: with another number of coefficients it
    raises [TypeError].  With one true wavelength per fitted peak its value
    is [np.sum] of the terms [1 * (wavelength_i - p(mu_i))**2 / sigma_i**2],
    with [p] the polynomial of the coefficients, [mu] the column 2 and
    [sigma] the column 4 of [peak_fits].  When the two numbers differ, NumPy
    broadcasts a single wavelength, which is then compared with every peak,
    and a single peak, which is compared with every wavelength: the
    objective has a value.  When they differ and neither is 1 it raises
    [ValueError].  The function returns the minimiser's values, its
    [fval], the probability
    [chi2.sf(fval, len(peak_fits) - (poly_degree + 1))], the polynomial and
    the validity flag. *)
Theorem fit_peak_positions_objective wavel_true_match peak_fits poly_degree x y_err f :
  column peak_fits 2 = Ok x -> column peak_fits 4 = Ok y_err ->
  get_calib_poly_func pow libm_pow poly_degree = Ok f ->
  let init_values := map (fun _ : Z => 1%float) (np_arange 0 (poly_degree + 1)) in
  let ones := map (fun _ : float => 1%float) x in
  exists objective : list float -> outcome float,
    fit_peak_positions wavel_true_match peak_fits poly_degree
    = (m <- migrad (list float) objective init_values ;;
       Ok (values m, fval m,
           chi2_sf (fval m) (Z.of_nat (length peak_fits) - (poly_degree + 1)),
           f, is_valid m)) /\
    Z.of_nat (length init_values) = poly_degree + 1 /\
    (forall par, Z.of_nat (length par) <> poly_degree + 1 ->
       objective par = Raise TypeError) /\
    (forall par, Z.of_nat (length par) = poly_degree + 1 ->
       (length wavel_true_match = length peak_fits ->
        objective par
        = Ok (np_sum (chi2_terms pow (poly_sum pow par) x wavel_true_match y_err ones))) /\
       (forall w, wavel_true_match = [w] -> length peak_fits <> 1%nat ->
        objective par
        = Ok (np_sum (chi2_terms pow (poly_sum pow par) x (map (fun _ => w) x) y_err
                        ones))) /\
       (forall mu sigma, x = [mu] -> y_err = [sigma] ->
        length wavel_true_match <> 1%nat ->
        objective par
        = Ok (np_sum (map (fun w => (1 * pow (w - poly_sum pow par mu) 2
                                     / pow sigma 2)%float) wavel_true_match))) /\
       (length wavel_true_match <> length peak_fits ->
        length wavel_true_match <> 1%nat -> length peak_fits <> 1%nat ->
        objective par = Raise ValueError)).
Proof.
  intros Cx Ce F init_values ones.
  pose proof (column_length _ _ _ Cx) as Lx. pose proof (column_length _ _ _ Ce) as Le.
  set (self := MkChi2Regression f x wavel_true_match y_err ones).
  exists (Chi2Regression_call self).
  split; [|split; [|split]].
  - unfold fit_peak_positions. rewrite Cx. cbn [bind]. rewrite Ce. cbn [bind].
    rewrite F. cbn [bind]. unfold Chi2Regression_init. cbn [bind set_var_if_None].
    fold ones. fold self. fold init_values. rewrite Lx. reflexivity.
  - unfold init_values. rewrite length_map, np_arange_length.
    assert (D : existsb (Z.eqb poly_degree) (np_arange 1 10) = true).
    { unfold get_calib_poly_func in F.
      destruct (existsb (Z.eqb poly_degree) (np_arange 1 10)); [reflexivity|discriminate]. }
    apply degree_cases in D. lia.
  - intros par L. unfold Chi2Regression_call, compute_f, self.
    cbn [chi_f chi_x chi_y chi_sy chi_weights].
    rewrite (calib_poly_func_wrong_arity pow libm_pow poly_degree f (Array x) par F L).
    reflexivity.
  - intros par L.
    assert (P : forall l, f (Array l) par = Ok (Array (map (poly_sum pow par) l)))
      by (intros l; apply (get_calib_poly_func_array pow libm_pow poly_degree f par l F L)).
    split; [|split; [|split]].
    + intros W.
      rewrite (Chi2Regression_call_pointwise (poly_sum pow par));
        unfold self; cbn [chi_f chi_x chi_y chi_sy chi_weights]; auto.
      * congruence.
      * congruence.
      * unfold ones. apply length_map.
    + intros w W N.
      rewrite (Chi2Regression_call_one_y (poly_sum pow par) self par w);
        unfold self; cbn [chi_f chi_x chi_y chi_sy chi_weights]; auto.
      * congruence.
      * unfold ones. apply length_map.
    + intros mu sigma X S N.
      apply (Chi2Regression_call_one_x (poly_sum pow par) self par mu sigma);
        unfold self; cbn [chi_f chi_x chi_y chi_sy chi_weights];
        [apply P|exact X|exact S|unfold ones; rewrite X; reflexivity|exact N].
    + intros W W1 P1.
      apply (Chi2Regression_call_mismatch (poly_sum pow par));
        unfold self; cbn [chi_f chi_x chi_y chi_sy chi_weights];
        [apply P|congruence|congruence|congruence].
Qed.

(** X12: when [fit_peak_positions] returns, the degree is within 1..9, the
    function returned is the calibration polynomial of that degree, every
    row of [peak_fits] has at least 5 columns, and the probability is
    [chi2.sf(chi2_fit, len(peak_fits) - (poly_degree + 1))]: the number of
    degrees of freedom is used as it is, positive or not. *)
Theorem fit_peak_positions_result wavel_true_match peak_fits poly_degree
    values chi2_fit prob_fit fit_func valid :
  fit_peak_positions wavel_true_match peak_fits poly_degree
  = Ok (values, chi2_fit, prob_fit, fit_func, valid) ->
  1 <= poly_degree <= 9 /\
  get_calib_poly_func pow libm_pow poly_degree = Ok fit_func /\
  (forall row, In row peak_fits -> (5 <= length row)%nat) /\
  prob_fit = chi2_sf chi2_fit (Z.of_nat (length peak_fits) - (poly_degree + 1)).
Proof.
  unfold fit_peak_positions.
  destruct (column peak_fits 2) as [x| |] eqn:Cx; try discriminate. cbn [bind].
  destruct (column peak_fits 4) as [y_err| |] eqn:Ce; try discriminate. cbn [bind].
  destruct (get_calib_poly_func pow libm_pow poly_degree) as [f| |] eqn:F; try discriminate.
  cbn [bind]. unfold Chi2Regression_init. cbn [bind].
  destruct (migrad _ _ _) as [m| |]; try discriminate. cbn [bind].
  intros [= <- <- <- <- <-].
  assert (D : existsb (Z.eqb poly_degree) (np_arange 1 10) = true).
  { unfold get_calib_poly_func in F.
    destruct (existsb (Z.eqb poly_degree) (np_arange 1 10)); [reflexivity|discriminate]. }
  apply degree_cases in D.
  repeat split; try lia.
  - intros row I. pose proof (column_rows _ _ _ _ Ce I). lia.
  - rewrite (column_length _ _ _ Cx). reflexivity.
Qed.

End Chi2Objective.

Lemma Chi2Regression_value_witness :
  Chi2Regression_call square_pow square_pow left_sum
    (MkChi2Regression example_poly [1; 2]%float [3; 4]%float [1; 1]%float [1; 1]%float)
    [1; 2; 3]%float
  = Ok (left_sum
          (chi2_terms square_pow (poly_sum square_pow [1; 2; 3]%float) [1; 2]%float
             [3; 4]%float (set_var_if_None None [1; 2]%float)
             (set_var_if_None None [1; 2]%float))).
Proof.
  apply (Chi2Regression_value square_pow square_pow left_sum example_poly
           (poly_sum square_pow [1; 2; 3]%float) [1; 2]%float [3; 4]%float None None
           (MkChi2Regression example_poly [1; 2]%float [3; 4]%float [1; 1]%float
              [1; 1]%float)
           [1; 2; 3]%float).
  - reflexivity.
  - reflexivity.
  - reflexivity.
  - reflexivity.
  - reflexivity.
Defined.

Lemma Chi2Regression_bound_weights_witness :
  Chi2Regression_call square_pow square_pow left_sum
    (MkChi2Regression example_poly [1; 2]%float [3; 4]%float [1; 1]%float
       [1; 1; 1]%float)
    [1; 2; 3]%float
  = Raise ValueError.
Proof.
  apply (Chi2Regression_bound_weights square_pow square_pow left_sum example_poly
           (poly_sum square_pow [1; 2; 3]%float) [1; 2; 9]%float [3; 4; 5]%float
           [1; 1; 1]%float [1; 1; 1]%float 0%float 5%float
           (MkChi2Regression example_poly [1; 2]%float [3; 4]%float [1; 1]%float
              [1; 1; 1]%float)
           [1; 2; 3]%float 9%float).
  - reflexivity.
  - reflexivity.
  - reflexivity.
  - simpl. auto.
  - reflexivity.
  - simpl. lia.
  - simpl. lia.
Defined.

Lemma fit_peak_positions_objective_witness :
  let init_values := map (fun _ : Z => 1%float) (np_arange 0 (1 + 1)) in
  let ones := map (fun _ : float => 1%float) [2; 8]%float in
  exists objective : list float -> outcome float,
    fit_peak_positions square_pow square_pow left_sum unit_chi2_sf stalled_migrad
      [5000.2; 5000.8]%float example_fits 1
    = (m <- stalled_migrad (list float) objective init_values ;;
       Ok (values m, fval m,
           unit_chi2_sf (fval m) (Z.of_nat (length example_fits) - (1 + 1)),
           example_line, is_valid m)) /\
    Z.of_nat (length init_values) = 1 + 1 /\
    (forall par, Z.of_nat (length par) <> 1 + 1 ->
       objective par = Raise TypeError) /\
    (forall par, Z.of_nat (length par) = 1 + 1 ->
       (length [5000.2; 5000.8]%float = length example_fits ->
        objective par
        = Ok (left_sum (chi2_terms square_pow (poly_sum square_pow par) [2; 8]%float
                          [5000.2; 5000.8]%float [-1.8; -1.8]%float ones))) /\
       (forall w, [5000.2; 5000.8]%float = [w] -> length example_fits <> 1%nat ->
        objective par
        = Ok (left_sum (chi2_terms square_pow (poly_sum square_pow par) [2; 8]%float
                          (map (fun _ => w) [2; 8]%float) [-1.8; -1.8]%float ones))) /\
       (forall mu sigma, [2; 8]%float = [mu] -> [-1.8; -1.8]%float = [sigma] ->
        length [5000.2; 5000.8]%float <> 1%nat ->
        objective par
        = Ok (left_sum (map (fun w => (1 * square_pow (w - poly_sum square_pow par mu) 2
                                       / square_pow sigma 2)%float)
                          [5000.2; 5000.8]%float))) /\
       (length [5000.2; 5000.8]%float <> length example_fits ->
        length [5000.2; 5000.8]%float <> 1%nat -> length example_fits <> 1%nat ->
        objective par = Raise ValueError)).
Proof.
  apply (fit_peak_positions_objective square_pow square_pow left_sum unit_chi2_sf
           stalled_migrad [5000.2; 5000.8]%float example_fits 1 [2; 8]%float
           [-1.8; -1.8]%float example_line).
  - reflexivity.
  - reflexivity.
  - reflexivity.
Defined.

(** One wavelength for the two fitted peaks of [example_fits] is compared
    with both; three wavelengths raise. *)
Example fit_peak_positions_broadcast :
  (exists values chi2 prob valid,
      fit_peak_positions square_pow square_pow left_sum unit_chi2_sf stalled_migrad
        [5000.2%float] example_fits 1
      = Ok (values, chi2, prob, example_line, valid)) /\
  fit_peak_positions square_pow square_pow left_sum unit_chi2_sf stalled_migrad
    [5000.2; 5000.8; 5001]%float example_fits 1 = Raise ValueError /\
  fit_peak_positions square_pow square_pow left_sum unit_chi2_sf stalled_migrad
    [5000.2; 5000.8]%float [] 1 = Raise IndexError.
Proof.
  split; [do 4 eexists; vm_compute; reflexivity|].
  split; vm_compute; reflexivity.
Qed.

Lemma fit_peak_positions_result_witness :
  1 <= 1 <= 9 /\
  get_calib_poly_func square_pow square_pow 1 = Ok example_line /\
  (forall row, In row example_fits -> (5 <= length row)%nat) /\
  1%float = unit_chi2_sf example_chi2 (Z.of_nat (length example_fits) - (1 + 1)).
Proof.
  apply (fit_peak_positions_result square_pow square_pow left_sum unit_chi2_sf stalled_migrad
           [5000.2; 5000.8]%float example_fits 1 [1; 1]%float example_chi2 1%float
           example_line false).
  vm_compute. reflexivity.
Defined.

(** ** The loop over the orders *)

Section OrchestratorRuns.

Variable pow : float -> float -> float.
Variable libm_pow : float -> float -> float.
Variable np_exp : float -> float.
Variable np_sum : list float -> float.
Variable chi2_sf : float -> Z -> float.
Variable signal_find_peaks : list float -> Z -> float -> list float -> list Z * list float.
Variable signal_peak_prominences :
  list float -> list Z -> Z -> list float * list Z * list Z.
Variable signal_peak_widths :
  list float -> list Z -> float -> list float * list Z * list Z ->
  list float * list float * list float * list float.
Variable migrad : forall X : Type, (X -> outcome float) -> X -> outcome (minuit X).
Variable fits_open : string -> outcome (list order_data).

Local Abbreviation func_find_peaks :=
  (func_find_peaks signal_find_peaks signal_peak_prominences signal_peak_widths).
Local Abbreviation peak_count :=
  (peak_count signal_find_peaks signal_peak_prominences signal_peak_widths).
Local Abbreviation fit_peaks := (fit_peaks pow libm_pow np_exp np_sum chi2_sf migrad).
Local Abbreviation fit_order :=
  (fit_order pow libm_pow np_exp np_sum chi2_sf signal_find_peaks signal_peak_prominences
     signal_peak_widths migrad).
Local Abbreviation fit_orders :=
  (fit_orders pow libm_pow np_exp np_sum chi2_sf signal_find_peaks signal_peak_prominences
     signal_peak_widths migrad).
Local Abbreviation fit_all_peaks_in_all_orders :=
  (fit_all_peaks_in_all_orders pow libm_pow np_exp np_sum chi2_sf signal_find_peaks
     signal_peak_prominences signal_peak_widths migrad fits_open).

(** What a pass of the loop that returns has done. *)
Lemma fit_order_inv fuel data correct_errors custom_error_factor order r :
  fst (fit_order fuel data correct_errors custom_error_factor order) = Ok r ->
  exists d,
    py_index data order = Ok d /\
    ((peak_count d < 10)%nat /\ r = nan_result order /\
     snd (fit_order fuel data correct_errors custom_error_factor order)
     = [CallFindPeaks order]
     \/
     (10 <= peak_count d)%nat /\
     exists peak_index_ranges peak_fits wavel_true wavel_given,
       let peak_locs := peaks (func_find_peaks (spectrum d) 11 0.15) in
       get_peak_index_ranges peak_locs nan = Ok peak_index_ranges /\
       fit_peaks (spectrum d)
         (corrected_uncertainty correct_errors custom_error_factor (uncertainty d))
         peak_index_ranges false = Ok peak_fits /\
       get_true_wavel fuel (wavelength d) peak_locs = Ok wavel_true /\
       np_take (wavelength d) peak_locs = Ok wavel_given /\
       r = OrderResult order peak_fits (map (fun row => [fst row; snd row]) wavel_true)
             wavel_given /\
       snd (fit_order fuel data correct_errors custom_error_factor order)
       = [CallFindPeaks order; CallPeakIndexRanges order; CallFitPeaks order;
          CallTrueWavel order]).
Proof.
  unfold fit_order, peak_count.
  destruct (py_index data order) as [d| |]; cbn [fst]; try discriminate.
  fold (corrected_uncertainty correct_errors custom_error_factor (uncertainty d)).
  unfold tbind, call, tret. cbn [fst snd].
  set (err := corrected_uncertainty correct_errors custom_error_factor (uncertainty d)).
  set (peak_locs := peaks (func_find_peaks (spectrum d) 11 0.15)).
  intros H. exists d. split; [reflexivity|].
  destruct (Z.ltb_spec (Z.of_nat (length peak_locs)) 10) as [F|F].
  - left. split; [unfold peak_locs in F; lia|]. cbn [fst snd app] in *. injection H as <-.
    split; reflexivity.
  - right. split; [unfold peak_locs in F; lia|].
    destruct (get_peak_index_ranges peak_locs nan) as [ranges| |] eqn:E1;
      cbn [fst snd] in *; try discriminate.
    destruct (fit_peaks (spectrum d) err ranges false) as [fits| |] eqn:E2;
      cbn [fst snd] in *; try discriminate.
    destruct (get_true_wavel fuel (wavelength d) peak_locs) as [wt| |] eqn:E3;
      cbn [fst snd] in *; try discriminate.
    destruct (np_take (wavelength d) peak_locs) as [wg| |] eqn:E4;
      cbn [fst snd] in *; try discriminate.
    injection H as <-. exists ranges, fits, wt, wg. cbv zeta.
    split; [exact E1|]. split; [exact E2|]. split; [exact E3|]. split; [exact E4|].
    split; reflexivity.
Qed.

Lemma fit_order_res_order fuel data correct_errors custom_error_factor order r :
  fst (fit_order fuel data correct_errors custom_error_factor order) = Ok r ->
  res_order r = order.
Proof.
  intros H. destruct (fit_order_inv _ _ _ _ _ _ H) as (d & _ & [(_ & -> & _)|(_ & R)]).
  - reflexivity.
  - destruct R as (ranges & fits & wt & wg & _ & _ & _ & _ & -> & _). reflexivity.
Qed.

(** A run that returns has read a table of 76 orders or more. *)
Lemma fit_all_peaks_table_size fuel filename correct_errors custom_error_factor results :
  fst (fit_all_peaks_in_all_orders fuel filename correct_errors custom_error_factor)
  = Ok results ->
  exists data, fits_open filename = Ok data /\ (76 <= length data)%nat.
Proof.
  unfold fit_all_peaks_in_all_orders.
  destruct (fits_open filename) as [data| |]; cbn [fst]; try discriminate.
  intros H.
  destruct (fit_orders_results _ _ _ _ _ _ _ _ _ _ _ _ _ _ _ _ H) as (entries & -> & L & N).
  exists data. split; [reflexivity|].
  destruct (N 35%nat 75) as (r & Hr & _); [reflexivity|].
  destruct (fit_order_inv _ _ _ _ _ _ Hr) as (d & D & _).
  unfold py_index in D.
  destruct (Z.ltb_spec 75 0) as [?|_]; [lia|].
  destruct (Z.leb_spec 0 75) as [_|?]; [|lia].
  destruct (Z.ltb_spec 75 (Z.of_nat (length data))) as [?|?]; [lia|].
  simpl in D. discriminate.
Qed.

(** X13: a run of [fit_all_peaks_in_all_orders] that returns gives 36
    entries, the entry [i] being that of the order [40 + i], and the table
    it read has at least 76 orders. *)
Theorem fit_all_peaks_results_shape fuel filename correct_errors custom_error_factor results :
  fst (fit_all_peaks_in_all_orders fuel filename correct_errors custom_error_factor)
  = Ok results ->
  length results = 36%nat /\
  (forall i r, nth_error results i = Some r -> res_order r = 40 + Z.of_nat i) /\
  exists data, fits_open filename = Ok data /\ (76 <= length data)%nat.
Proof.
  intros R. pose proof (fit_all_peaks_table_size _ _ _ _ _ R) as Size. revert R.
  unfold fit_all_peaks_in_all_orders.
  destruct (fits_open filename) as [data| |]; cbn [fst]; try discriminate.
  intros H.
  destruct (fit_orders_results _ _ _ _ _ _ _ _ _ _ _ _ _ _ _ _ H) as (entries & -> & L & N).
  cbn [app]. split; [rewrite L; reflexivity|]. split; [|exact Size].
  intros i r Hi.
  assert (Hlt : (i < 36)%nat).
  { change (length (np_arange 40 76)) with 36%nat in L.
    rewrite <- L. apply nth_error_Some. congruence. }
  destruct (N i (40 + Z.of_nat i)) as (r' & Hr & Hn).
  { unfold np_arange. rewrite nth_error_map, nth_error_seq.
    change (Z.to_nat (76 - 40)) with 36%nat.
    destruct (Nat.ltb_spec i 36) as [_|?]; [|lia]. reflexivity. }
  assert (r' = r) by congruence. subst r'.
  eapply fit_order_res_order. exact Hr.
Qed.

(** X14: on a table of fewer than 76 orders the run returns no result;
    with 40 orders or fewer it raises [IndexError] at once, before any peak
    is searched. *)
Theorem fit_all_peaks_short_table fuel filename correct_errors custom_error_factor data :
  fits_open filename = Ok data ->
  (length data < 76)%nat ->
  (forall results,
      fst (fit_all_peaks_in_all_orders fuel filename correct_errors custom_error_factor)
      <> Ok results) /\
  ((length data <= 40)%nat ->
   fit_all_peaks_in_all_orders fuel filename correct_errors custom_error_factor
   = (Raise IndexError, [])).
Proof.
  intros O L. split.
  - intros results H.
    destruct (fit_all_peaks_table_size fuel filename correct_errors custom_error_factor
                results H) as (data' & O' & L').
    rewrite O in O'. injection O' as <-. lia.
  - intros S. unfold fit_all_peaks_in_all_orders. rewrite O.
    change (np_arange 40 76) with (40 :: np_arange 41 76). cbn [fit_orders].
    unfold fit_order at 1.
    rewrite (py_index_out_of_range data 40) by lia. reflexivity.
Qed.

(** The trace of the loop is the traces of its passes, one after the other. *)
Lemma fit_orders_trace fuel data correct_errors custom_error_factor orders :
  forall results final,
    fst (fit_orders fuel data correct_errors custom_error_factor orders results) = Ok final ->
    snd (fit_orders fuel data correct_errors custom_error_factor orders results)
    = concat (map (fun order =>
                     snd (fit_order fuel data correct_errors custom_error_factor order))
                orders).
Proof.
  induction orders as [|order rest IH]; intros results final; [reflexivity|].
  cbn [fit_orders map concat]. unfold tbind at 1 2.
  destruct (fst (fit_order fuel data correct_errors custom_error_factor order))
    as [r| |] eqn:E; cbn [fst snd]; try discriminate.
  intros H. rewrite (IH _ _ H). reflexivity.
Qed.

(** The two passes of one order, with and without the correction of the
    uncertainties, differ in the fitted peaks only. *)
Lemma fit_order_frame fuel data order c1 f1 c2 f2 r1 r2 :
  fst (fit_order fuel data c1 f1 order) = Ok r1 ->
  fst (fit_order fuel data c2 f2 order) = Ok r2 ->
  res_order r1 = res_order r2 /\
  res_wavel_true r1 = res_wavel_true r2 /\
  res_wavel_given r1 = res_wavel_given r2 /\
  snd (fit_order fuel data c1 f1 order) = snd (fit_order fuel data c2 f2 order).
Proof.
  intros H1 H2.
  destruct (fit_order_inv _ _ _ _ _ _ H1) as (d1 & D1 & R1).
  destruct (fit_order_inv _ _ _ _ _ _ H2) as (d2 & D2 & R2).
  assert (d2 = d1) by congruence. subst d2.
  destruct R1 as [(F1 & -> & T1)|(F1 & ranges1 & fits1 & wt1 & wg1 & R1)],
           R2 as [(F2 & -> & T2)|(F2 & ranges2 & fits2 & wt2 & wg2 & R2)]; try lia.
  - rewrite T1, T2. repeat split; reflexivity.
  - cbv zeta in R1, R2.
    destruct R1 as (_ & _ & W1 & G1 & -> & T1), R2 as (_ & _ & W2 & G2 & -> & T2).
    rewrite T1, T2. cbn. repeat split; congruence.
Qed.

(** X15: the calls of a run that returns, order by order: an order whose
    entry is the NaN entry saw the peak search only; every other order saw
    the peak search, the windows, the peak fit and the wavelength matching,
    once each and in this order. *)
Theorem fit_all_peaks_trace fuel filename correct_errors custom_error_factor results :
  fst (fit_all_peaks_in_all_orders fuel filename correct_errors custom_error_factor)
  = Ok results ->
  exists passes,
    snd (fit_all_peaks_in_all_orders fuel filename correct_errors custom_error_factor)
    = concat passes /\
    length passes = 36%nat /\
    forall i r,
      nth_error results i = Some r ->
      let order := 40 + Z.of_nat i in
      (r = nan_result order /\ nth_error passes i = Some [CallFindPeaks order]) \/
      (r <> nan_result order /\
       nth_error passes i
       = Some [CallFindPeaks order; CallPeakIndexRanges order; CallFitPeaks order;
               CallTrueWavel order]).
Proof.
  unfold fit_all_peaks_in_all_orders.
  destruct (fits_open filename) as [data| |]; cbn [fst]; try discriminate.
  intros H.
  exists (map (fun order =>
                 snd (fit_order fuel data correct_errors custom_error_factor order))
            (np_arange 40 76)).
  split; [exact (fit_orders_trace _ _ _ _ _ _ _ H)|].
  split; [rewrite length_map; reflexivity|].
  destruct (fit_orders_results _ _ _ _ _ _ _ _ _ _ _ _ _ _ _ _ H) as (entries & -> & L & N).
  cbn [app]. intros i r Hi. set (order := 40 + Z.of_nat i).
  assert (Hlt : (i < 36)%nat).
  { change (length (np_arange 40 76)) with 36%nat in L.
    rewrite <- L. apply nth_error_Some. congruence. }
  assert (Ho : nth_error (np_arange 40 76) i = Some order).
  { unfold np_arange. rewrite nth_error_map, nth_error_seq.
    change (Z.to_nat (76 - 40)) with 36%nat.
    destruct (Nat.ltb_spec i 36) as [_|?]; [|lia]. reflexivity. }
  destruct (N i order Ho) as (r' & Hr & Hn).
  assert (r' = r) by congruence. subst r'.
  rewrite nth_error_map, Ho. cbn [option_map].
  destruct (fit_order_inv _ _ _ _ _ _ Hr) as (d & _ & [(_ & -> & T)|(_ & R)]).
  - left. rewrite T. split; reflexivity.
  - destruct R as (ranges & fits & wt & wg & R). cbv zeta in R.
    destruct R as (_ & _ & _ & G & -> & T). right. rewrite T. split; [|reflexivity].
    intros Q. apply (f_equal res_wavel_true) in Q. cbn in Q. destruct wt; discriminate.
Qed.

(** X16: [correct_errors] and [custom_error_factor] act on the fitted
    peaks only: two runs on the same file that both return make the same
    calls, and their entries agree on the order, on the matched wavelengths
    and on the nominal wavelengths, and are NaN entries for the same
    orders. *)
Theorem fit_all_peaks_correct_errors fuel filename c1 f1 c2 f2 results1 results2 :
  fst (fit_all_peaks_in_all_orders fuel filename c1 f1) = Ok results1 ->
  fst (fit_all_peaks_in_all_orders fuel filename c2 f2) = Ok results2 ->
  snd (fit_all_peaks_in_all_orders fuel filename c1 f1)
  = snd (fit_all_peaks_in_all_orders fuel filename c2 f2) /\
  length results1 = length results2 /\
  forall i r1 r2,
    nth_error results1 i = Some r1 -> nth_error results2 i = Some r2 ->
    res_order r1 = res_order r2 /\
    res_wavel_true r1 = res_wavel_true r2 /\
    res_wavel_given r1 = res_wavel_given r2 /\
    (r1 = nan_result (res_order r1) <-> r2 = nan_result (res_order r2)).
Proof.
  unfold fit_all_peaks_in_all_orders.
  destruct (fits_open filename) as [data| |]; cbn [fst]; try discriminate.
  intros H1 H2.
  rewrite (fit_orders_trace _ _ _ _ _ _ _ H1), (fit_orders_trace _ _ _ _ _ _ _ H2).
  destruct (fit_orders_results _ _ _ _ _ _ _ _ _ _ _ _ _ _ _ _ H1) as (e1 & -> & L1 & N1).
  destruct (fit_orders_results _ _ _ _ _ _ _ _ _ _ _ _ _ _ _ _ H2) as (e2 & -> & L2 & N2).
  cbn [app]. split; [|split; [congruence|]].
  - f_equal. apply map_ext_in. intros order Ho.
    destruct (In_nth_error _ _ Ho) as (i & Hi).
    destruct (N1 i order Hi) as (r1 & R1 & _), (N2 i order Hi) as (r2 & R2 & _).
    apply (fit_order_frame _ _ _ _ _ _ _ _ _ R1 R2).
  - intros i r1 r2 Hi1 Hi2.
    assert (Ho : exists order, nth_error (np_arange 40 76) i = Some order).
    { destruct (nth_error (np_arange 40 76) i) as [o|] eqn:E; [eauto|].
      apply nth_error_None in E. rewrite <- L1 in E.
      assert (nth_error e1 i <> None) by congruence.
      apply nth_error_Some in H. lia. }
    destruct Ho as (order & Ho).
    destruct (N1 i order Ho) as (r1' & R1 & Q1), (N2 i order Ho) as (r2' & R2 & Q2).
    assert (r1' = r1) by congruence. assert (r2' = r2) by congruence. subst r1' r2'.
    destruct (fit_order_frame _ _ _ _ _ _ _ _ _ R1 R2) as (A & B & C & _).
    split; [exact A|]. split; [exact B|]. split; [exact C|].
    destruct (fit_order_inv _ _ _ _ _ _ R1) as (d1 & D1 & K1).
    destruct (fit_order_inv _ _ _ _ _ _ R2) as (d2 & D2 & K2).
    assert (d2 = d1) by congruence. subst d2.
    assert (Full : forall o (fits : list (list float)) (wt : list (float * float)) wg,
               OrderResult o fits (map (fun row => [fst row; snd row]) wt) wg
               <> nan_result o).
    { intros o fits wt wg Q. apply (f_equal res_wavel_true) in Q. cbn in Q.
      destruct wt; discriminate. }
    destruct K1 as [(F1 & -> & _)|(F1 & ? & ? & ? & ? & K1)],
             K2 as [(F2 & -> & _)|(F2 & ? & ? & ? & ? & K2)]; try lia.
    + split; reflexivity.
    + cbv zeta in K1, K2.
      destruct K1 as (_ & _ & _ & _ & -> & _), K2 as (_ & _ & _ & _ & -> & _).
      cbn [res_order]. split; intros Q; exfalso; eapply Full; exact Q.
Qed.

End OrchestratorRuns.

Lemma fit_all_peaks_results_shape_witness :
  length comb_results = 36%nat /\
  (forall i r, nth_error comb_results i = Some r -> res_order r = 40 + Z.of_nat i) /\
  exists data, comb_table "LFC.fits" = Ok data /\ (76 <= length data)%nat.
Proof.
  apply (fit_all_peaks_results_shape square_pow square_pow linear_exp left_sum unit_chi2_sf
           comb_peaks no_prominences no_widths stalled_migrad comb_table
           10 "LFC.fits" false None comb_results).
  vm_compute. reflexivity.
Defined.

Lemma fit_all_peaks_short_table_witness :
  (forall results,
      fst (fit_all_peaks_in_all_orders square_pow square_pow linear_exp left_sum unit_chi2_sf
             two_peaks no_prominences no_widths stalled_migrad short_table
             5 "LFC.fits" false None)
      <> Ok results) /\
  ((length (repeat example_order 30) <= 40)%nat ->
   fit_all_peaks_in_all_orders square_pow square_pow linear_exp left_sum unit_chi2_sf
     two_peaks no_prominences no_widths stalled_migrad short_table 5 "LFC.fits" false None
   = (Raise IndexError, [])).
Proof.
  apply (fit_all_peaks_short_table square_pow square_pow linear_exp left_sum unit_chi2_sf
           two_peaks no_prominences no_widths stalled_migrad short_table
           5 "LFC.fits" false None (repeat example_order 30)).
  - reflexivity.
  - vm_compute. lia.
Defined.

Lemma fit_all_peaks_trace_witness :
  exists passes,
    snd (fit_all_peaks_in_all_orders square_pow square_pow linear_exp left_sum unit_chi2_sf
           comb_peaks no_prominences no_widths stalled_migrad comb_table
           10 "LFC.fits" false None)
    = concat passes /\
    length passes = 36%nat /\
    forall i r,
      nth_error comb_results i = Some r ->
      let order := 40 + Z.of_nat i in
      (r = nan_result order /\ nth_error passes i = Some [CallFindPeaks order]) \/
      (r <> nan_result order /\
       nth_error passes i
       = Some [CallFindPeaks order; CallPeakIndexRanges order; CallFitPeaks order;
               CallTrueWavel order]).
Proof.
  apply (fit_all_peaks_trace square_pow square_pow linear_exp left_sum unit_chi2_sf
           comb_peaks no_prominences no_widths stalled_migrad comb_table
           10 "LFC.fits" false None comb_results).
  vm_compute. reflexivity.
Defined.

Lemma fit_all_peaks_correct_errors_witness :
  snd (fit_all_peaks_in_all_orders square_pow square_pow linear_exp left_sum unit_chi2_sf
         comb_peaks no_prominences no_widths stalled_migrad comb_table
         10 "LFC.fits" false None)
  = snd (fit_all_peaks_in_all_orders square_pow square_pow linear_exp left_sum unit_chi2_sf
           comb_peaks no_prominences no_widths stalled_migrad comb_table
           10 "LFC.fits" true (Some 2%float)) /\
  length comb_results = length comb_results_corrected /\
  forall i r1 r2,
    nth_error comb_results i = Some r1 -> nth_error comb_results_corrected i = Some r2 ->
    res_order r1 = res_order r2 /\
    res_wavel_true r1 = res_wavel_true r2 /\
    res_wavel_given r1 = res_wavel_given r2 /\
    (r1 = nan_result (res_order r1) <-> r2 = nan_result (res_order r2)).
Proof.
  apply (fit_all_peaks_correct_errors square_pow square_pow linear_exp left_sum unit_chi2_sf
           comb_peaks no_prominences no_widths stalled_migrad comb_table
           10 "LFC.fits" false None true (Some 2%float) comb_results comb_results_corrected).
  - vm_compute. reflexivity.
  - vm_compute. reflexivity.
Defined.

Example fit_all_peaks_comb_table :
  nth_error comb_results 17 = Some (nan_result 57) /\
  (exists fits wavel_given,
      nth_error comb_results 18
      = Some (OrderResult 58 fits
                (repeat [39348006.037537731; 5]%float 4
                 ++ repeat [48205894.516803347; 4]%float 6) wavel_given) /\
      length fits = 10%nat) /\
  comb_results <> comb_results_corrected.
Proof.
  split; [reflexivity|]. split.
  - eexists. eexists. split; [vm_compute; reflexivity|reflexivity].
  - intros H. vm_compute in H. discriminate H.
Qed.
